(** * Accounts-receivable balance and aging engine (prac_data_pipelines)

    Shallow embedding of the computational core of [src/reporte_cxc.py],
    [src/kpis.py] and [src/auditor.py], of the export filters of
    [main.py], the aging buckets of [src/analytics.py] and the selection
    helpers of [dashboard/data_loader.py], followed by the properties
    proved about them.

    Modelling conventions
    - A pandas [DataFrame] is the list of its rows plus the presence flags
      of the columns the code tests with ["X" in df.columns].  The columns
      the engine reads without any test (TIPO_IMPTE, IMPORTE, IMPUESTO,
      NOMBRE_CLIENTE, FECHA_EMISION, FECHA_VENCIMIENTO) are fields of every
      row, so the tests on them are always true.  A row keeps a field for
      an absent optional column; the code never reads it.
    - float64 amounts are exact rationals [Q] and are compared with [Qeq];
      NaN, NaT and None are [None].  [round] is round-half-to-even, as
      [Series.round] and Python's [round] are.
    - Timestamps are whole day numbers ([Z]); "today" is a parameter.
    - A pandas [Series] indexed by document id (the result of
      [groupby(...).sum()] or [.max()]) is a [gmap Z _]; the per-client
      accumulator of a grouped [cumsum] is a [gmap string Q].
    - The standard deviation is a real number ([sqrt]); the three
      comparisons the code makes on it are decided on the rational
      variance, and lemmas relate both.

    Left out because they only concern presentation: column renaming,
    selection and reordering, the ZSCORE_ display columns (the z-score
    rounded to 4 decimals), MOTIVO and INTERPRETACION texts and
    [logger.info] messages.  The per-column completeness table
    [calidad_datos] of the auditor is modelled on its own, on a table
    read by columns. *)

From Stdlib Require Import QArith Qround Qabs ZArith List Lia Lra Lqa.
From Stdlib Require Import Ascii String.
From Stdlib Require Import Reals Qreals.
From Stdlib Require Import Permutation Sorted.
From stdpp Require Import gmap strings.
Import ListNotations.

Local Open Scope Q_scope.
Local Open Scope string_scope.

(** ** Numeric helpers *)

Module Num.

(** [Series.sum()] over exact amounts. *)
Definition suma (l : list Q) : Q := foldr Qplus 0 l.

(** [Series.sum()] of a column that may hold NaN: NaN is skipped. *)
Definition suma_validos (l : list (option Q)) : Q :=
  suma (omap (fun x => x) l).

(** Nearest integer, ties to the even neighbour ([np.rint]). *)
Definition rint (x : Q) : Z :=
  let f := Qfloor x in
  match Qcompare (x - inject_Z f) (1 # 2) with
  | Lt => f
  | Gt => (f + 1)%Z
  | Eq => if Z.even f then f else (f + 1)%Z
  end.

(** [10 ** d] as a rational. *)
Definition diez (d : nat) : Q := inject_Z (10 ^ Z.of_nat d).

(** [x.round(d)] / [round(x, d)]. *)
Definition round (d : nat) (x : Q) : Q := inject_Z (rint (x * diez d)) / diez d.

(** A value with at most [d] decimals. *)
Definition decimales (d : nat) (x : Q) : Prop :=
  exists n : Z, x == inject_Z n / diez d.

End Num.
Import Num.

(** ** Data model *)

(** A cell of the CANCELADO column as Firebird delivers it. *)
Inductive celda : Type :=
  | Texto (s : string)
  | Entero (n : Z)
  | Logico (b : bool)
  | Nulo.

(** One ledger row.  [N] is the type of a numeric cell: [option Q] in the
    raw table (NaN allowed), [Q] once [_preparar] has filled NaN with 0. *)
Record fila (N : Type) : Type := Fila {
  DOCTO_CC_ID : option Z;
  DOCTO_CC_ACR_ID : option Z;
  TIPO_IMPTE : string;
  NOMBRE_CLIENTE : option string;
  TIPO_CLIENTE : option string;
  VENDEDOR : option string;
  FECHA_EMISION : option Z;
  FECHA_VENCIMIENTO : option Z;
  IMPORTE : N;
  IMPUESTO : N;
  LIMITE_CREDITO : N;
  CANCELADO : celda;
}.
Arguments Fila {N}.
Arguments DOCTO_CC_ID {N}.
Arguments DOCTO_CC_ACR_ID {N}.
Arguments TIPO_IMPTE {N}.
Arguments NOMBRE_CLIENTE {N}.
Arguments TIPO_CLIENTE {N}.
Arguments VENDEDOR {N}.
Arguments FECHA_EMISION {N}.
Arguments FECHA_VENCIMIENTO {N}.
Arguments IMPORTE {N}.
Arguments IMPUESTO {N}.
Arguments LIMITE_CREDITO {N}.
Arguments CANCELADO {N}.

(** Presence of the optional columns. *)
Record columnas : Type := Columnas {
  col_CANCELADO : bool;
  col_DOCTO_CC_ACR_ID : bool;
  col_DOCTO_CC_ID : bool;
  col_TIPO_CLIENTE : bool;
  col_VENDEDOR : bool;
  col_LIMITE_CREDITO : bool;
}.

Record DataFrame (N : Type) : Type := Df {
  columns : columnas;
  rows : list (fila N);
}.
Arguments Df {N}.
Arguments columns {N}.
Arguments rows {N}.

(** [df[mask]]: keep the rows that satisfy [mask]. *)
Definition loc {N} (mask : fila N -> bool) (df : DataFrame N) : DataFrame N :=
  Df (columns df) (List.filter mask (rows df)).

(** ** Normalizer ([_preparar]) *)

(** [str.strip()] and [str.upper()] on ASCII text. *)

Definition es_blanco (c : ascii) : bool :=
  let n := nat_of_ascii c in
  ((9 <=? n) && (n <=? 13) || (28 <=? n) && (n <=? 32))%nat.

Fixpoint lstrip (s : string) : string :=
  match s with
  | String c s' => if es_blanco c then lstrip s' else s
  | EmptyString => EmptyString
  end.

Fixpoint rstrip (s : string) : string :=
  match s with
  | String c s' =>
      match rstrip s' with
      | EmptyString => if es_blanco c then EmptyString else String c EmptyString
      | t => String c t
      end
  | EmptyString => EmptyString
  end.

Definition strip (s : string) : string := rstrip (lstrip s).

Definition mayuscula (c : ascii) : ascii :=
  let n := nat_of_ascii c in
  if ((97 <=? n) && (n <=? 122))%nat then ascii_of_nat (n - 32) else c.

Fixpoint upper (s : string) : string :=
  match s with
  | String c s' => String (mayuscula c) (upper s')
  | EmptyString => EmptyString
  end.

(** [pd.to_numeric(col, errors="coerce").fillna(0)] *)
Definition fillna0 (x : option Q) : Q := default 0 x.

(** [kpis._preparar]; [reporte_cxc._preparar] is the same function without
    the LIMITE_CREDITO coercion, a column the report never reads.  Dates
    arrive parsed ([pd.to_datetime(..., errors="coerce")]). *)
Definition _preparar (df : DataFrame (option Q)) : DataFrame Q :=
  Df (columns df)
     (map (fun f =>
             Fila (DOCTO_CC_ID f) (DOCTO_CC_ACR_ID f)
                  (upper (strip (TIPO_IMPTE f)))
                  (NOMBRE_CLIENTE f) (TIPO_CLIENTE f) (VENDEDOR f)
                  (FECHA_EMISION f) (FECHA_VENCIMIENTO f)
                  (fillna0 (IMPORTE f)) (fillna0 (IMPUESTO f))
                  (fillna0 (LIMITE_CREDITO f)) (CANCELADO f))
          (rows df)).

(** ** Cancellation and advance filter *)

(** [cell in _CANCELADO_VALUES], with
    [_CANCELADO_VALUES = ["S", "SI", "s", "si", 1, True, "1"]]. *)
Definition _CANCELADO_VALUES (c : celda) : bool :=
  match c with
  | Texto s => existsb (String.eqb s) ["S"; "SI"; "s"; "si"; "1"]
  | Entero n => (n =? 1)%Z
  | Logico b => b
  | Nulo => false
  end.

Definition _filtrar_movimientos {N} (df : DataFrame N) : DataFrame N :=
  let df_f :=
    if col_CANCELADO (columns df)
    then loc (fun f => negb (_CANCELADO_VALUES (CANCELADO f))) df
    else df in
  loc (fun f => negb (String.eqb (TIPO_IMPTE f) "A")) df_f.

(** [kpis._filtrar_activos] has the same body. *)
Definition _filtrar_activos {N} (df : DataFrame N) : DataFrame N :=
  let df_f :=
    if col_CANCELADO (columns df)
    then loc (fun f => negb (_CANCELADO_VALUES (CANCELADO f))) df
    else df in
  loc (fun f => negb (String.eqb (TIPO_IMPTE f) "A")) df_f.

(** ** Balance engine *)

(** [df["_MONTO"] = df["IMPORTE"] + df["IMPUESTO"]] *)
Definition _MONTO (f : fila Q) : Q := IMPORTE f + IMPUESTO f.

Definition es_cargo {N} (f : fila N) : bool := String.eqb (TIPO_IMPTE f) "C".
Definition es_abono {N} (f : fila N) : bool := String.eqb (TIPO_IMPTE f) "R".

(** [df["NOMBRE_CLIENTE"] == c] *)
Definition es_de {N} (c : string) (f : fila N) : bool :=
  bool_decide (NOMBRE_CLIENTE f = Some c).

(** [.groupby(key)[value].sum()]: a series indexed by the key. *)
Definition groupby_sum (kv : list (Z * Q)) : gmap Z Q :=
  foldr (fun p m => <[p.1 := p.2 + default 0 (m !! p.1)]> m) ∅ kv.

(** [df.loc[es_abono & df["DOCTO_CC_ACR_ID"].notna()]
       .groupby("DOCTO_CC_ACR_ID")["_MONTO"].sum()] *)
Definition abonos_por_cargo (df : DataFrame Q) : gmap Z Q :=
  groupby_sum
    (omap (fun f => if es_abono f
                    then (fun k => (k, _MONTO f)) <$> DOCTO_CC_ACR_ID f
                    else None)
          (rows df)).

(** [cargo_ids.map(serie).fillna(0)] at one row. *)
Definition map_fillna0 (serie : gmap Z Q) (k : option Z) : Q :=
  match k with
  | Some i => default 0 (serie !! i)
  | None => 0
  end.

(** A row of the operational report: the ledger row plus the derived
    columns.  A derived column that has not been computed yet, or that
    does not apply to the row, holds NaN ([None]) or the empty text. *)
Record fila_rep : Type := FilaRep {
  mov : fila Q;
  SALDO_FACTURA : option Q;
  DELTA_RECAUDO : option Z;
  CATEGORIA_RECAUDO : string;
  DELTA_MORA : option Z;
  CATEGORIA_MORA : string;
  SALDO_CLIENTE : option Q;
}.

Record Reporte : Type := Rep {
  r_columns : columnas;
  r_rows : list fila_rep;
}.

Definition con_saldo_factura (f : fila Q) (s : option Q) : fila_rep :=
  FilaRep f s None "" None "" None.

Definition aviso_sin_acr : string :=
  "Sin DOCTO_CC_ACR_ID — saldo = monto total sin restar abonos.".

(** [reporte_cxc._calcular_saldo_factura].  The second component is the
    list of messages sent to [logger.warning]. *)
Definition _calcular_saldo_factura (df : DataFrame Q) : Reporte * list string :=
  if col_DOCTO_CC_ACR_ID (columns df) && col_DOCTO_CC_ID (columns df) then
    let serie := abonos_por_cargo df in
    (Rep (columns df)
         (map (fun f =>
                 con_saldo_factura f
                   (if es_cargo f
                    then Some (round 2 (_MONTO f - map_fillna0 serie (DOCTO_CC_ID f)))
                    else None))
              (rows df)),
     [])
  else
    (Rep (columns df)
         (map (fun f =>
                 con_saldo_factura f
                   (if es_cargo f then Some (round 2 (_MONTO f)) else None))
              (rows df)),
     [aviso_sin_acr]).

(** One row per charge of [kpis._saldos_por_factura]. *)
Record fila_saldo : Type := FilaSaldo {
  cargo : fila Q;
  MONTO_CARGO : Q;
  MONTO_ABONOS : Q;
  SALDO : Q;
}.

Definition _saldos_por_factura (df : DataFrame Q) : list fila_saldo :=
  let cargos := List.filter es_cargo (rows df) in
  let abonos_sum := abonos_por_cargo df in
  map (fun f =>
         let monto_abonos :=
           if col_DOCTO_CC_ACR_ID (columns df) && col_DOCTO_CC_ID (columns df)
           then map_fillna0 abonos_sum (DOCTO_CC_ID f)
           else 0 in
         FilaSaldo f (_MONTO f) monto_abonos (round 2 (_MONTO f - monto_abonos)))
      cargos.

(** The payments that reference charge [c]: rows of kind R whose
    DOCTO_CC_ACR_ID equals the DOCTO_CC_ID of [c].  Without either
    column no row references any other. *)
Definition referencia (cols : columnas) (p c : fila Q) : bool :=
  col_DOCTO_CC_ACR_ID cols && col_DOCTO_CC_ID cols &&
  match DOCTO_CC_ACR_ID p, DOCTO_CC_ID c with
  | Some a, Some i => (a =? i)%Z
  | _, _ => false
  end.

Definition abonos_vinculados (df : DataFrame Q) (c : fila Q) : list (fila Q) :=
  List.filter (fun p => es_abono p && referencia (columns df) p c) (rows df).

(** ** Deterministic ordering ([DataFrame.sort_values]) *)

Fixpoint insertar {A} (le : A -> A -> bool) (x : A) (l : list A) : list A :=
  match l with
  | [] => [x]
  | y :: l' => if le x y then x :: l else y :: insertar le x l'
  end.

(** A stable sort: rows with equal keys keep their relative order, as the
    lexicographic sort pandas uses for several key columns does. *)
Definition sort_values {A} (le : A -> A -> bool) (l : list A) : list A :=
  foldr (insertar le) [] l.

Definition lex (c1 c2 : comparison) : comparison :=
  match c1 with
  | Eq => c2
  | _ => c1
  end.

(** [na_position="first"] *)
Definition cmp_na_first {A} (cmp : A -> A -> comparison) (x y : option A) : comparison :=
  match x, y with
  | None, None => Eq
  | None, Some _ => Lt
  | Some _, None => Gt
  | Some a, Some b => cmp a b
  end.

Definition no_mayor (c : comparison) : bool :=
  match c with
  | Gt => false
  | _ => true
  end.

(** ** Running balance per client *)

(** Sort keys of [_calcular_saldo_cliente]:
    [NOMBRE_CLIENTE, DOCTO_CC_ACR_ID, DOCTO_CC_ID, FECHA_EMISION],
    each only if the column exists, all ascending. *)
Definition cmp_saldo_cliente (cols : columnas) (a b : fila Q) : comparison :=
  lex (cmp_na_first String.compare (NOMBRE_CLIENTE a) (NOMBRE_CLIENTE b))
  (lex (if col_DOCTO_CC_ACR_ID cols
        then cmp_na_first Z.compare (DOCTO_CC_ACR_ID a) (DOCTO_CC_ACR_ID b)
        else Eq)
  (lex (if col_DOCTO_CC_ID cols
        then cmp_na_first Z.compare (DOCTO_CC_ID a) (DOCTO_CC_ID b)
        else Eq)
       (cmp_na_first Z.compare (FECHA_EMISION a) (FECHA_EMISION b)))).

(** [np.where(TIPO == "C", monto, np.where(TIPO == "R", -monto, 0))] *)
Definition movimiento (f : fila Q) : Q :=
  if es_cargo f then _MONTO f
  else if es_abono f then - _MONTO f
  else 0.

Definition con_saldo_cliente (r : fila_rep) (s : option Q) : fila_rep :=
  FilaRep (mov r) (SALDO_FACTURA r) (DELTA_RECAUDO r) (CATEGORIA_RECAUDO r)
          (DELTA_MORA r) (CATEGORIA_MORA r) s.

(** [movimiento.groupby(df["NOMBRE_CLIENTE"]).cumsum().round(2)]: one
    accumulator per client name; rows without a name get NaN. *)
Fixpoint cumsum_por_cliente (acum : gmap string Q) (l : list fila_rep) : list fila_rep :=
  match l with
  | [] => []
  | r :: l' =>
      match NOMBRE_CLIENTE (mov r) with
      | None => con_saldo_cliente r None :: cumsum_por_cliente acum l'
      | Some c =>
          let s := default 0 (acum !! c) + movimiento (mov r) in
          con_saldo_cliente r (Some (round 2 s))
            :: cumsum_por_cliente (<[c := s]> acum) l'
      end
  end.

Definition _calcular_saldo_cliente (rep : Reporte) : Reporte :=
  let orden a b := no_mayor (cmp_saldo_cliente (r_columns rep) (mov a) (mov b)) in
  Rep (r_columns rep) (cumsum_por_cliente ∅ (sort_values orden (r_rows rep))).

(** ** Collection-cycle metrics *)

Definition Qlt_bool (x y : Q) : bool := negb (Qle_bool y x).

(** [np.select(condiciones, opciones, default)] at one row. *)
Definition np_select {A} (casos : list (bool * A)) (default : A) : A :=
  match List.find fst casos with
  | Some c => c.2
  | None => default
  end.

Definition categoria_recaudo (dias : option Z) : string :=
  match dias with
  | None => ""
  | Some d =>
      np_select
        [ ((d <? 0)%Z, "Pago anticipado");
          ((d =? 0)%Z, "Pago puntual");
          ((1 <=? d)%Z && (d <=? 15)%Z, "Retraso leve (1-15)");
          ((16 <=? d)%Z && (d <=? 30)%Z, "Retraso moderado (16-30)");
          ((31 <=? d)%Z && (d <=? 60)%Z, "Retraso alto (31-60)");
          ((60 <? d)%Z, "Retraso critico (>60)") ]
        ""
  end.

Definition categoria_mora (dias : option Z) : string :=
  match dias with
  | None => ""
  | Some d =>
      np_select
        [ ((d <=? 0)%Z, "Por vencer");
          ((1 <=? d)%Z && (d <=? 30)%Z, "Mora temprana (1-30)");
          ((31 <=? d)%Z && (d <=? 60)%Z, "Mora media (31-60)");
          ((61 <=? d)%Z && (d <=? 90)%Z, "Mora alta (61-90)");
          ((90 <? d)%Z, "Mora critica (>90)") ]
        ""
  end.

(** [Series.max()] of dates skips NaT. *)
Definition max_fecha (a b : option Z) : option Z :=
  match a, b with
  | Some x, Some y => Some (Z.max x y)
  | Some x, None => Some x
  | None, _ => b
  end.

Definition groupby_max (kv : list (Z * option Z)) : gmap Z (option Z) :=
  foldr (fun p m => <[p.1 := max_fecha p.2 (default None (m !! p.1))]> m) ∅ kv.

(** [df.loc[es_abono & df["DOCTO_CC_ACR_ID"].notna()]
       .groupby("DOCTO_CC_ACR_ID")["FECHA_EMISION"].max()] *)
Definition ultimo_abono (l : list fila_rep) : gmap Z (option Z) :=
  groupby_max
    (omap (fun r => if es_abono (mov r)
                    then (fun k => (k, FECHA_EMISION (mov r))) <$> DOCTO_CC_ACR_ID (mov r)
                    else None)
          l).

Definition resta_fechas (a b : option Z) : option Z :=
  match a, b with
  | Some x, Some y => Some (x - y)%Z
  | _, _ => None
  end.

Definition pagada (r : fila_rep) : bool :=
  es_cargo (mov r) &&
  match SALDO_FACTURA r with
  | Some s => Qeq_bool s 0
  | None => false
  end.

Definition abierta (r : fila_rep) : bool :=
  es_cargo (mov r) &&
  match SALDO_FACTURA r with
  | Some s => Qlt_bool 0 s
  | None => false
  end.

Definition con_recaudo (r : fila_rep) (d : option Z) : fila_rep :=
  FilaRep (mov r) (SALDO_FACTURA r) d (categoria_recaudo d)
          (DELTA_MORA r) (CATEGORIA_MORA r) (SALDO_CLIENTE r).

Definition con_mora (r : fila_rep) (d : option Z) : fila_rep :=
  FilaRep (mov r) (SALDO_FACTURA r) (DELTA_RECAUDO r) (CATEGORIA_RECAUDO r)
          d (categoria_mora d) (SALDO_CLIENTE r).

(** [reporte_cxc._calcular_metricas_ciclo]; [hoy] is
    [pd.Timestamp.now().normalize()]. *)
Definition _calcular_metricas_ciclo (hoy : Z) (rep : Reporte) : Reporte :=
  let cols := r_columns rep in
  let l := r_rows rep in
  let l1 :=
    if existsb pagada l && col_DOCTO_CC_ACR_ID cols && col_DOCTO_CC_ID cols then
      let ultimo := ultimo_abono l in
      map (fun r =>
             if pagada r then
               let fecha_ultimo :=
                 match DOCTO_CC_ID (mov r) with
                 | Some i => default None (ultimo !! i)
                 | None => None
                 end in
               con_recaudo r (resta_fechas fecha_ultimo (FECHA_VENCIMIENTO (mov r)))
             else r)
          l
    else l in
  let l2 :=
    if existsb abierta l1 then
      map (fun r =>
             if abierta r
             then con_mora r (resta_fechas (Some hoy) (FECHA_VENCIMIENTO (mov r)))
             else r)
          l1
    else l1 in
  Rep cols l2.

(** ** Views of the report *)

Record fila_banda : Type := FilaBanda {
  base : fila_rep;
  _BAND_GROUP : Z;
}.

(** [_GRUPO_CARGO]: a charge is keyed by its own id, any other row by
    [df.get("DOCTO_CC_ACR_ID", df["DOCTO_CC_ID"]).fillna(df["DOCTO_CC_ID"])]. *)
Definition _GRUPO_CARGO (cols : columnas) (f : fila Q) : option Z :=
  if es_cargo f then DOCTO_CC_ID f
  else
    match (if col_DOCTO_CC_ACR_ID cols then DOCTO_CC_ACR_ID f else DOCTO_CC_ID f) with
    | Some a => Some a
    | None => DOCTO_CC_ID f
    end.

Definition cmp_bandas (cols : columnas) (a b : fila Q) : comparison :=
  lex (cmp_na_first String.compare (NOMBRE_CLIENTE a) (NOMBRE_CLIENTE b))
  (lex (cmp_na_first Z.compare (_GRUPO_CARGO cols a) (_GRUPO_CARGO cols b))
  (lex (String.compare (TIPO_IMPTE a) (TIPO_IMPTE b))
       (cmp_na_first Z.compare (FECHA_EMISION a) (FECHA_EMISION b)))).

(** [cambio = grupo != grupo.shift()] and [cambio.cumsum() % 2]; NaN
    differs from everything, itself included. *)
Fixpoint bandas (cols : columnas) (previo : option Z) (cuenta : Z) (l : list fila_rep)
  : list fila_banda :=
  match l with
  | [] => []
  | r :: l' =>
      let g := _GRUPO_CARGO cols (mov r) in
      let cambio :=
        match g, previo with
        | Some a, Some b => negb (a =? b)%Z
        | _, _ => true
        end in
      let cuenta' := if cambio then (cuenta + 1)%Z else cuenta in
      FilaBanda r (cuenta' mod 2) :: bandas cols g cuenta' l'
  end.

Definition agregar_bandas_grupo (cols : columnas) (l : list fila_rep) : list fila_banda :=
  if negb (col_DOCTO_CC_ID cols) then map (fun r => FilaBanda r 0) l
  else
    let orden a b := no_mayor (cmp_bandas cols (mov a) (mov b)) in
    bandas cols None 0 (sort_values orden l).

(** [set(cargos["DOCTO_CC_ID"].dropna())] *)
Definition ids_de (cols : columnas) (cargos : list fila_rep) : gset Z :=
  if col_DOCTO_CC_ID cols
  then list_to_set (omap (fun r => DOCTO_CC_ID (mov r)) cargos)
  else ∅.

(** [df[(TIPO == "R") & df["DOCTO_CC_ACR_ID"].isin(ids)]] *)
Definition abonos_de (cols : columnas) (ids : gset Z) (l : list fila_rep) : list fila_rep :=
  if negb (bool_decide (ids = ∅)) && col_DOCTO_CC_ACR_ID cols then
    List.filter
      (fun r => es_abono (mov r) &&
                match DOCTO_CC_ACR_ID (mov r) with
                | Some a => bool_decide (a ∈ ids)
                | None => false
                end)
      l
  else [].

Definition _extraer_facturas_abiertas (rep : Reporte) : list fila_banda :=
  let cargos_abiertos := List.filter abierta (r_rows rep) in
  match cargos_abiertos with
  | [] => []
  | _ =>
      let ids_abiertos := ids_de (r_columns rep) cargos_abiertos in
      let abonos_parciales := abonos_de (r_columns rep) ids_abiertos (r_rows rep) in
      agregar_bandas_grupo (r_columns rep) (cargos_abiertos ++ abonos_parciales)
  end.

Definition _extraer_facturas_cerradas (rep : Reporte) : list fila_banda :=
  let cargos_cerrados := List.filter pagada (r_rows rep) in
  match cargos_cerrados with
  | [] => []
  | _ =>
      let ids_cerrados := ids_de (r_columns rep) cargos_cerrados in
      let abonos_completos := abonos_de (r_columns rep) ids_cerrados (r_rows rep) in
      agregar_bandas_grupo (r_columns rep) (cargos_cerrados ++ abonos_completos)
  end.

(** [_obtener_por_acreditar]: unapplied advances, cancelled ones removed. *)
Definition _obtener_por_acreditar (df : DataFrame Q) : list (fila Q) :=
  let df_a := loc (fun f => String.eqb (TIPO_IMPTE f) "A") df in
  let df_a := if col_CANCELADO (columns df_a)
              then loc (fun f => negb (_CANCELADO_VALUES (CANCELADO f))) df_a
              else df_a in
  rows df_a.

(** ** Outlier detector *)

Definition de_entero (n : Z) : Q := inject_Z n.

(** [Series.mean()] *)
Definition mean (xs : list Q) : Q := suma xs / inject_Z (Z.of_nat (length xs)).

(** [Series.var(ddof)]: squared deviations over [len - ddof]. *)
Definition var (ddof : nat) (xs : list Q) : Q :=
  suma (map (fun x => (x - mean xs) * (x - mean xs)) xs)
  / inject_Z (Z.of_nat (length xs) - Z.of_nat ddof).

(** [Series.std()]; pandas defaults to [ddof=1]. *)
Definition std (xs : list Q) : R := sqrt (Q2R (var 1 xs)).

(** [np.abs((v - xs.mean()) / xs.std())] *)
Definition zscore (xs : list Q) (v : Q) : R :=
  Rabs ((Q2R v - Q2R (mean xs)) / std xs).

(** The three comparisons the code makes on these reals, decided on the
    rational variance ([std_positiva_spec], [std_cero_spec] and
    [zscore_supera_spec] relate them to [std] and [zscore]). *)

(** [xs.std() > 0] *)
Definition std_positiva (xs : list Q) : bool := Qlt_bool 0 (var 1 xs).

(** [xs.std() == 0] *)
Definition std_cero (xs : list Q) : bool := Qle_bool (var 1 xs) 0.

(** [zscore >= umbral] *)
Definition zscore_supera (xs : list Q) (umbral v : Q) : bool :=
  Qlt_bool umbral 0
  || Qle_bool (umbral * umbral * var 1 xs) ((v - mean xs) * (v - mean xs)).

Record fila_total : Type := FilaTotal {
  fila_b : fila_banda;
  ATIPICO_IMPORTE : option bool;
  ATIPICO_DELTA_RECAUDO : option bool;
  ATIPICO_DELTA_MORA : option bool;
}.

Definition dias_validos (col : fila_rep -> option Z) (l : list fila_rep) : list Q :=
  map de_entero (omap col l).

(** [reporte_cxc._agregar_zscores].  The ATIPICO_ columns are kept; the
    ZSCORE_ columns hold [zscore] (rounded to 4 decimals for display). *)
Definition _agregar_zscores (umbral : Q) (l : list fila_banda) : list fila_total :=
  let filas := map base l in
  let importes := map (fun r => IMPORTE (mov r)) (List.filter (fun r => es_cargo (mov r)) filas) in
  let vals_recaudo := dias_validos DELTA_RECAUDO filas in
  let vals_mora := dias_validos DELTA_MORA filas in
  let delta (vals : list Q) (d : option Z) : option bool :=
    if (3 <=? length vals)%nat && std_positiva vals
    then (fun x => zscore_supera vals umbral (de_entero x)) <$> d
    else None in
  map (fun b =>
         let r := base b in
         FilaTotal b
           (if (3 <=? length importes)%nat && std_positiva importes && es_cargo (mov r)
            then Some (zscore_supera importes umbral (IMPORTE (mov r)))
            else None)
           (delta vals_recaudo (DELTA_RECAUDO r))
           (delta vals_mora (DELTA_MORA r)))
      l.

(** ** The operational report ([generar_reporte_cxc]) *)

Record vistas : Type := Vistas {
  reporte_cxc : list fila_banda;
  por_acreditar : list (fila Q);
  movimientos_abiertos_cxc : list fila_banda;
  movimientos_cerrados_cxc : list fila_banda;
  movimientos_totales_cxc : list fila_total;
}.

(** Steps 2 to 5 of [generar_reporte_cxc]: the table called [df_filtrado]
    before the group bands are applied. *)
Definition df_filtrado (hoy : Z) (df : DataFrame Q) : Reporte :=
  _calcular_saldo_cliente
    (_calcular_metricas_ciclo hoy
       (_calcular_saldo_factura (_filtrar_movimientos df)).1).

(** Column selection ([_seleccionar_columnas]) only drops columns and is
    left out. *)
Definition generar_reporte_cxc (hoy : Z) (df_crudo : DataFrame (option Q)) : vistas :=
  let df := _preparar df_crudo in
  let filtrado := df_filtrado hoy df in
  let con_bandas := agregar_bandas_grupo (r_columns filtrado) (r_rows filtrado) in
  Vistas con_bandas
         (_obtener_por_acreditar df)
         (_extraer_facturas_abiertas filtrado)
         (_extraer_facturas_cerradas filtrado)
         (_agregar_zscores 3 con_bandas).

(** ** Auditor *)

(** [settings.ANOMALIAS]: a missing key defaults to 3.0. *)
Record config : Type := Config {
  importe_zscore_umbral : option Q;
  delta_recaudo_zscore_umbral : option Q;
  delta_mora_zscore_umbral : option Q;
}.

Definition umbral_de (clave : option Q) : Q := default 3 clave.

(** [Auditor._preparar_datos]: numeric columns are coerced but NaN is kept. *)
Definition _preparar_datos (df : DataFrame (option Q)) : DataFrame (option Q) :=
  Df (columns df)
     (map (fun f =>
             Fila (DOCTO_CC_ID f) (DOCTO_CC_ACR_ID f)
                  (upper (strip (TIPO_IMPTE f)))
                  (NOMBRE_CLIENTE f) (TIPO_CLIENTE f) (VENDEDOR f)
                  (FECHA_EMISION f) (FECHA_VENCIMIENTO f)
                  (IMPORTE f) (IMPUESTO f) (LIMITE_CREDITO f) (CANCELADO f))
          (rows df)).

(** [Auditor._detectar_importes_atipicos]: the flagged sales. *)
Definition _detectar_importes_atipicos (cfg : config) (df : DataFrame (option Q))
  : list (fila (option Q)) :=
  let umbral := umbral_de (importe_zscore_umbral cfg) in
  let ventas := List.filter es_cargo (rows df) in
  match ventas with
  | [] => []
  | _ =>
      let importes := omap IMPORTE ventas in
      if (length importes <? 3)%nat || std_cero importes then []
      else
        List.filter
          (fun f => match IMPORTE f with
                    | Some v => zscore_supera importes umbral v
                    | None => false
                    end)
          ventas
  end.

(** [Auditor._detectar_atipicos_delta] for the column read by [columna]. *)
Definition _detectar_atipicos_delta (umbral : Q) (columna : fila_rep -> option Z)
           (df_reporte : list fila_banda) : list fila_rep :=
  let cargos := List.filter (fun r => es_cargo (mov r)) (map base df_reporte) in
  let valores := dias_validos columna cargos in
  if (length valores <? 3)%nat || std_cero valores then []
  else
    List.filter
      (fun r => match columna r with
                | Some d => zscore_supera valores umbral (de_entero d)
                | None => false
                end)
      cargos.

Definition isna {A} (x : option A) : bool :=
  match x with
  | None => true
  | Some _ => false
  end.

Definition _detectar_sin_tipo_cliente {N} (df : DataFrame N) : list (fila N) :=
  if col_TIPO_CLIENTE (columns df)
  then List.filter (fun f => isna (TIPO_CLIENTE f)) (rows df)
  else [].

Definition _detectar_sin_vendedor {N} (df : DataFrame N) : list (fila N) :=
  if col_VENDEDOR (columns df)
  then List.filter (fun f => isna (VENDEDOR f)) (rows df)
  else [].

Definition _analizar_cancelados {N} (df : DataFrame N) : list (fila N) :=
  if col_CANCELADO (columns df)
  then List.filter (fun f => _CANCELADO_VALUES (CANCELADO f)) (rows df)
  else [].

Record Resumen : Type := MkResumen {
  fecha_auditoria : Z;
  total_registros : nat;
  n_importes_atipicos : nat;
  n_recaudos_atipicos : nat;
  n_moras_atipicas : nat;
  n_sin_tipo_cliente : nat;
  n_sin_vendedor : nat;
  n_cancelados : nat;
  total_hallazgos : nat;
}.

(** The findings of [AuditResult]; the per-column completeness table
    [calidad_datos] is [_evaluar_calidad_datos] below. *)
Record AuditResult : Type := MkAudit {
  resumen : Resumen;
  importes_atipicos : list (fila (option Q));
  recaudos_atipicos : list fila_rep;
  moras_atipicas : list fila_rep;
  sin_tipo_cliente : list (fila (option Q));
  sin_vendedor : list (fila (option Q));
  documentos_cancelados : list (fila (option Q));
}.

Definition _generar_resumen (ahora : Z) (df : DataFrame (option Q))
           (imp : list (fila (option Q))) (rec mor : list fila_rep)
           (stc sv canc : list (fila (option Q))) : Resumen :=
  MkResumen ahora (length (rows df))
            (length imp) (length rec) (length mor)
            (length stc) (length sv) (length canc)
            (length imp + length rec + length mor
             + length stc + length sv + length canc).

(** [Auditor.run_audit]; [ahora] is [datetime.now()]. *)
Definition run_audit (cfg : config) (ahora : Z) (df_crudo : DataFrame (option Q))
           (df_reporte : option (list fila_banda)) : AuditResult :=
  let df := _preparar_datos df_crudo in
  let imp := _detectar_importes_atipicos cfg df in
  let stc := _detectar_sin_tipo_cliente df in
  let sv := _detectar_sin_vendedor df in
  let canc := _analizar_cancelados df in
  let deltas :=
    match df_reporte with
    | Some (_ :: _ as rep) =>
        (_detectar_atipicos_delta (umbral_de (delta_recaudo_zscore_umbral cfg))
           DELTA_RECAUDO rep,
         _detectar_atipicos_delta (umbral_de (delta_mora_zscore_umbral cfg))
           DELTA_MORA rep)
    | _ => ([], [])
    end in
  MkAudit (_generar_resumen ahora df imp deltas.1 deltas.2 stc sv canc)
          imp deltas.1 deltas.2 stc sv canc.

(** ** KPI calculator *)

Definition en_periodo (inicio_periodo hoy : Z) (f : fila Q) : bool :=
  match FECHA_EMISION f with
  | Some d => (inicio_periodo <=? d)%Z && (d <=? hoy)%Z
  | None => false
  end.

(** [kpis._calcular_dso]: the value before and after [round(dso, 1)]. *)
Record kpi_dso : Type := KpiDso {
  saldo_total : Q;
  ventas_periodo : Q;
  dso : Q;
  DSO_VALOR : Q;
}.

Definition _calcular_dso (df : DataFrame Q) (saldos : list fila_saldo)
           (hoy inicio_periodo : Z) (dias_periodo : Z) : kpi_dso :=
  let saldo_total := suma (map SALDO saldos) in
  let cargos_periodo :=
    List.filter (fun f => es_cargo f && en_periodo inicio_periodo hoy f) (rows df) in
  let ventas_periodo := suma (map _MONTO cargos_periodo) in
  let dso := if Qlt_bool 0 ventas_periodo
             then saldo_total / ventas_periodo * de_entero dias_periodo
             else 0 in
  KpiDso saldo_total ventas_periodo dso (round 1 dso).

(** [kpis._calcular_cei]: the intermediate amounts are the ones printed in
    INTERPRETACION. *)
Record kpi_cei : Type := KpiCei {
  cargos_periodo : Q;
  cobros_periodo : Q;
  saldo_actual : Q;
  saldo_inicio : Q;
  cobrable : Q;
  cei : Q;
  CEI_VALOR : Q;
}.

Definition _calcular_cei (df : DataFrame Q) (hoy inicio_periodo : Z) : kpi_cei :=
  let periodo := en_periodo inicio_periodo hoy in
  let cargos_periodo :=
    suma (map _MONTO (List.filter (fun f => es_cargo f && periodo f) (rows df))) in
  let cobros_periodo :=
    suma (map _MONTO (List.filter (fun f => es_abono f && periodo f) (rows df))) in
  let saldo_actual :=
    suma (map _MONTO (List.filter es_cargo (rows df)))
    - suma (map _MONTO (List.filter es_abono (rows df))) in
  let saldo_inicio := saldo_actual - cargos_periodo + cobros_periodo in
  let cobrable := saldo_inicio + cargos_periodo in
  let cei := if Qlt_bool 0 cobrable then cobros_periodo / cobrable * 100 else 100 in
  KpiCei cargos_periodo cobros_periodo saldo_actual saldo_inicio cobrable cei
         (round 1 cei).

Record kpi_morosidad : Type := KpiMorosidad {
  cartera_total : Q;
  cartera_vencida : Q;
  indice : Q;
  MOROSIDAD_VALOR : Q;
}.

Definition _calcular_morosidad (saldos : list fila_saldo) (hoy : Z) : kpi_morosidad :=
  let cartera_total := suma (map SALDO saldos) in
  let vencidos :=
    List.filter (fun s => match FECHA_VENCIMIENTO (cargo s) with
                          | Some v => (v <? hoy)%Z
                          | None => false
                          end)
                saldos in
  let cartera_vencida := suma (map SALDO vencidos) in
  let indice := if Qlt_bool 0 cartera_total
                then cartera_vencida / cartera_total * 100
                else 0 in
  KpiMorosidad cartera_total cartera_vencida indice (round 1 indice).

(** *** Concentration (Pareto / ABC) *)

Record fila_conc : Type := FilaConc {
  CLIENTE : string;
  SALDO_CLIENTE_TOTAL : Q;
  PCT_DEL_TOTAL : Q;
  PCT_ACUMULADO : Q;
  CLASIFICACION : string;
}.

(** [saldos.groupby("NOMBRE_CLIENTE")["SALDO"].sum().round(2).reset_index()]:
    one row per distinct name, in ascending name order; rows without a
    name are dropped. *)
Definition saldo_por_cliente (saldos : list fila_saldo) : list (string * Q) :=
  let nombres := omap (fun s => NOMBRE_CLIENTE (cargo s)) saldos in
  let claves :=
    sort_values (fun a b => no_mayor (String.compare a b)) (remove_dups nombres) in
  map (fun c =>
         (c, round 2 (suma (map SALDO
                (List.filter (fun s => bool_decide (NOMBRE_CLIENTE (cargo s) = Some c))
                             saldos)))))
      claves.

(** [Series.cumsum()] *)
Fixpoint cumsum (acum : Q) (l : list Q) : list Q :=
  match l with
  | [] => []
  | x :: l' => (acum + x) :: cumsum (acum + x) l'
  end.

Definition clasificar (pct_acumulado : Q) : string :=
  if Qle_bool pct_acumulado 80 then "A"
  else if Qle_bool pct_acumulado 95 then "B"
  else "C".

Definition _calcular_concentracion (saldos : list fila_saldo) : list fila_conc :=
  let por_cliente :=
    sort_values (fun a b => Qle_bool b.2 a.2) (saldo_por_cliente saldos) in
  let total := suma (map snd por_cliente) in
  if Qle_bool total 0 then []
  else
    let pct := map (fun p => round 2 (p.2 / total * 100)) por_cliente in
    let acumulado := map (round 2) (cumsum 0 pct) in
    map (fun t => FilaConc t.1.1.1 t.1.1.2 t.1.2 t.2 (clasificar t.2))
        (combine (combine por_cliente pct) acumulado).

(** *** Credit limit against balance *)

Record fila_limite : Type := FilaLimite {
  LC_CLIENTE : string;
  LC_SALDO : Q;
  LC_LIMITE_CREDITO : Q;
  UTILIZACION_PCT : option Q;
  DISPONIBLE : Q;
  ALERTA : string;
}.

(** [Series.max()] of a group. *)
Definition maximo (l : list Q) : option Q :=
  foldr (fun x m => match m with
                    | Some y => Some (if Qle_bool y x then x else y)
                    | None => Some x
                    end)
        None l.

Definition _calcular_limite_credito (df : DataFrame Q) (saldos : list fila_saldo)
  : list fila_limite :=
  if negb (col_LIMITE_CREDITO (columns df)) then []
  else
    let limite c :=
      default 0 (maximo (map LIMITE_CREDITO (List.filter (es_de c) (rows df)))) in
    let resultado :=
      map (fun p =>
             let lim := limite p.1 in
             let util := if Qlt_bool 0 lim then Some (round 1 (p.2 / lim * 100)) else None in
             let sobre (cota : Q) (estricto : bool) :=
               match util with
               | Some u => if estricto then Qlt_bool cota u else Qle_bool cota u
               | None => false
               end in
             FilaLimite p.1 p.2 lim util (round 2 (lim - p.2))
               (np_select [ (Qeq_bool lim 0, "SIN_LIMITE");
                            (sobre 100 true, "SOBRE_LIMITE");
                            (sobre 90 false, "CRITICO");
                            (sobre 70 false, "ALTO") ]
                          "NORMAL"))
          (saldo_por_cliente saldos) in
    sort_values (fun a b => Qle_bool (LC_SALDO b) (LC_SALDO a)) resultado.

(** *** Delinquency per client *)

Record fila_morosidad : Type := FilaMorosidad {
  MC_CLIENTE : string;
  SALDO_TOTAL : Q;
  SALDO_VIGENTE : Q;
  SALDO_VENCIDO : Q;
  PCT_VENCIDO : Q;
  NUM_FACTURAS : nat;
  NUM_VENCIDAS : nat;
  DIAS_VENCIDO_MAX : Z;
}.

(** [(hoy - FECHA_VENCIMIENTO).dt.days.fillna(0)] *)
Definition DIAS_VENCIDO (hoy : Z) (s : fila_saldo) : Z :=
  match FECHA_VENCIMIENTO (cargo s) with
  | Some v => (hoy - v)%Z
  | None => 0%Z
  end.

Definition maximo_Z (l : list Z) : Z :=
  match l with
  | [] => 0%Z
  | x :: l' => foldr Z.max x l'
  end.

Definition _calcular_morosidad_por_cliente (saldos : list fila_saldo) (hoy : Z)
  : list fila_morosidad :=
  let vencido s := (0 <? DIAS_VENCIDO hoy s)%Z in
  let nombres := omap (fun s => NOMBRE_CLIENTE (cargo s)) saldos in
  let claves :=
    sort_values (fun a b => no_mayor (String.compare a b)) (remove_dups nombres) in
  let por_cliente :=
    map (fun c =>
           let grupo :=
             List.filter (fun s => bool_decide (NOMBRE_CLIENTE (cargo s) = Some c)) saldos in
           let total := round 2 (suma (map SALDO grupo)) in
           let vigente :=
             round 2 (suma (map (fun s => if vencido s then 0 else SALDO s) grupo)) in
           let vencida :=
             round 2 (suma (map (fun s => if vencido s then SALDO s else 0) grupo)) in
           FilaMorosidad c total vigente vencida
             (if Qlt_bool 0 total then round 1 (vencida / total * 100) else 0)
             (length grupo) (length (List.filter vencido grupo))
             (maximo_Z (map (DIAS_VENCIDO hoy) grupo)))
        claves in
  sort_values (fun a b => Qle_bool (SALDO_VENCIDO b) (SALDO_VENCIDO a)) por_cliente.

(** [generar_kpis]: the three summary KPIs and the three tables. *)
Record kpis : Type := Kpis {
  kpis_dso : kpi_dso;
  kpis_cei : kpi_cei;
  kpis_morosidad : kpi_morosidad;
  kpis_concentracion : list fila_conc;
  kpis_limite_credito : list fila_limite;
  kpis_morosidad_cliente : list fila_morosidad;
}.

Definition generar_kpis (hoy : Z) (df_crudo : DataFrame (option Q)) (dias_periodo : Z) : kpis :=
  let inicio_periodo := (hoy - dias_periodo)%Z in
  let df := _preparar df_crudo in
  let df_activo := _filtrar_activos df in
  let saldos := _saldos_por_factura df_activo in
  Kpis (_calcular_dso df_activo saldos hoy inicio_periodo dias_periodo)
       (_calcular_cei df_activo hoy inicio_periodo)
       (_calcular_morosidad saldos hoy)
       (_calcular_concentracion saldos)
       (_calcular_limite_credito df_activo saldos)
       (_calcular_morosidad_por_cliente saldos hoy).

(** ** Reference quantities used in the statements *)

(** [df["DOCTO_CC_ACR_ID"] == k] *)
Definition acr_es (k : Z) (p : fila Q) : bool :=
  match DOCTO_CC_ACR_ID p with
  | Some a => (a =? k)%Z
  | None => false
  end.

(** The balance a charge should carry: amount minus linked payments,
    rounded to 2 decimals. *)
Definition saldo_esperado (df : DataFrame Q) (c : fila Q) : Q :=
  round 2 (_MONTO c - suma (map _MONTO (abonos_vinculados df c))).

(** The CEI as a function of the ledger balance and the window payments. *)
Definition cei_de (saldo cobros : Q) : Q :=
  if Qlt_bool 0 (saldo + cobros) then cobros / (saldo + cobros) * 100 else 100.

(** The z-score with the sample standard deviation (divisor [n - 1]). *)
Definition zscore_muestral (xs : list Q) (v : Q) : R :=
  (Rabs (Q2R v - Q2R (mean xs))
   / sqrt (Q2R (suma (map (fun x => (x - mean xs) * (x - mean xs)) xs)
                / inject_Z (Z.of_nat (length xs) - 1))%Q))%R.

(** The z-score with the population standard deviation (divisor [n]). *)
Definition zscore_poblacional (xs : list Q) (v : Q) : R :=
  (Rabs (Q2R v - Q2R (mean xs))
   / sqrt (Q2R (suma (map (fun x => (x - mean xs) * (x - mean xs)) xs)
                / inject_Z (Z.of_nat (length xs)))%Q))%R.

(** The series each detector works on. *)
Definition serie_importes_auditor (df : DataFrame (option Q)) : list Q :=
  omap IMPORTE (List.filter es_cargo (rows df)).

Definition serie_delta_auditor (columna : fila_rep -> option Z) (rep : list fila_banda)
  : list Q :=
  dias_validos columna (List.filter (fun r => es_cargo (mov r)) (map base rep)).

Definition serie_importes_reporte (l : list fila_banda) : list Q :=
  map (fun r => IMPORTE (mov r)) (List.filter (fun r => es_cargo (mov r)) (map base l)).

Definition serie_delta_reporte (columna : fila_rep -> option Z) (l : list fila_banda)
  : list Q :=
  dias_validos columna (map base l).

(** The rows of client [c]. *)
Definition filas_de (c : string) (l : list fila_rep) : list fila_rep :=
  List.filter (fun r => es_de c (mov r)) l.

(** Sum of the invoice balances of client [c] in a report. *)
Definition suma_saldos_factura (c : string) (l : list fila_rep) : Q :=
  suma_validos (map SALDO_FACTURA (filas_de c l)).

(** The ledger of client [c] is closed under linkage: its amounts have
    two decimals, each of its payments is linked to exactly one of its
    charges, and no payment of anybody else is linked to its charges. *)
Definition bien_vinculado (df : DataFrame Q) (c : string) : Prop :=
  (forall f, In f (rows df) -> es_de c f = true -> decimales 2 (_MONTO f))
  /\ (forall p, In p (rows df) -> es_abono p = true ->
      length (List.filter
                (fun ch => es_cargo ch && es_de c ch && referencia (columns df) p ch)
                (rows df))
      = if es_de c p then 1%nat else 0%nat).

(** What [cumsum_por_cliente] leaves untouched. *)
Definition clave (r : fila_rep) : fila Q * option Q := (mov r, SALDO_FACTURA r).

(** Both sums of interest only depend on the multiset of
    (row, SALDO_FACTURA) pairs. *)
Definition saldos_en (c : string) (K : list (fila Q * option Q)) : Q :=
  suma (omap snd (List.filter (fun k => es_de c k.1) K)).

Definition movimientos_en (c : string) (K : list (fila Q * option Q)) : Q :=
  suma (map (fun k => movimiento k.1) (List.filter (fun k => es_de c k.1) K)).

(** A row whose cycle columns are still empty. *)
Definition sin_ciclo (r : fila_rep) : Prop :=
  DELTA_RECAUDO r = None /\ CATEGORIA_RECAUDO r = ""
  /\ DELTA_MORA r = None /\ CATEGORIA_MORA r = "".

(** A row is marked cancelled when the table has the CANCELADO column
    and the cell holds one of the cancellation values. *)
Definition marcada_cancelada {N} (df : DataFrame N) (f : fila N) : bool :=
  col_CANCELADO (columns df) && _CANCELADO_VALUES (CANCELADO f).

(** The source table without its cancelled rows. *)
Definition sin_cancelados {N} (df : DataFrame N) : DataFrame N :=
  loc (fun f => negb (marcada_cancelada df f)) df.

(** The source table without the DOCTO_CC_ACR_ID column. *)
Definition sin_columna_acr {N} (df : DataFrame N) : DataFrame N :=
  Df (Columnas (col_CANCELADO (columns df)) false (col_DOCTO_CC_ID (columns df))
               (col_TIPO_CLIENTE (columns df)) (col_VENDEDOR (columns df))
               (col_LIMITE_CREDITO (columns df)))
     (rows df).

(** The audit of a table together with the report generated from it, as
    [run_pipeline] calls it. *)
Definition auditar (cfg : config) (ahora hoy : Z) (df : DataFrame (option Q)) : AuditResult :=
  run_audit cfg ahora df (Some (reporte_cxc (generar_reporte_cxc hoy df))).

(** *** Dependence on the amounts *)

(** A ledger row without its two amount cells. *)
Definition sin_importes (f : fila Q) : fila Q :=
  Fila (DOCTO_CC_ID f) (DOCTO_CC_ACR_ID f) (TIPO_IMPTE f) (NOMBRE_CLIENTE f)
       (TIPO_CLIENTE f) (VENDEDOR f) (FECHA_EMISION f) (FECHA_VENCIMIENTO f)
       0 0 (LIMITE_CREDITO f) (CANCELADO f).

(** Two rows that agree on everything except how the same amount is
    split between IMPORTE and IMPUESTO. *)
Definition mismo_monto (f f' : fila Q) : Prop :=
  sin_importes f = sin_importes f' /\ _MONTO f == _MONTO f'.

Definition misma_tabla (df df' : DataFrame Q) : Prop :=
  columns df = columns df' /\ Forall2 mismo_monto (rows df) (rows df').

Definition mismo_reporte (rep rep' : Reporte) : Prop :=
  r_columns rep = r_columns rep'
  /\ Forall2 (fun r r' => mismo_monto (mov r) (mov r')) (r_rows rep) (r_rows rep').

(** Equality of two cells that may hold NaN. *)
Definition opt_Qeq (a b : option Q) : Prop :=
  match a, b with
  | Some x, Some y => x == y
  | None, None => True
  | _, _ => False
  end.

(** A ledger row with the tax cell blanked. *)
Definition sin_impuesto (f : fila (option Q)) : fila (option Q) :=
  Fila (DOCTO_CC_ID f) (DOCTO_CC_ACR_ID f) (TIPO_IMPTE f) (NOMBRE_CLIENTE f)
       (TIPO_CLIENTE f) (VENDEDOR f) (FECHA_EMISION f) (FECHA_VENCIMIENTO f)
       (IMPORTE f) None (LIMITE_CREDITO f) (CANCELADO f).

(** What the IMPORTE z-score of [_agregar_zscores] reads of a row. *)
Definition clave_importe (b : fila_banda) : bool * Q :=
  (es_cargo (mov (base b)), IMPORTE (mov (base b))).

(** A decision procedure for [bien_vinculado]. *)
Definition bien_vinculado_b (df : DataFrame Q) (c : string) : bool :=
  forallb (fun f => implb (es_de c f) (Qeq_bool (round 2 (_MONTO f)) (_MONTO f))) (rows df)
  && forallb
       (fun p =>
          implb (es_abono p)
            (length (List.filter
                       (fun ch => es_cargo ch && es_de c ch && referencia (columns df) p ch)
                       (rows df))
             =? (if es_de c p then 1 else 0))%nat)
       (rows df).

(** ** Export filters of the pipeline ([main.py]) *)

(** [main._filtrar_por_acreditar], applied by [run_pipeline] to the raw
    table: the rows of type A, the type being normalised in place
    ([astype(str).str.strip().str.upper()]), cancelled ones excluded. *)
Definition _filtrar_por_acreditar {N} (df_totales : DataFrame N) : list (fila N) :=
  let mask_tipo_a f := String.eqb (upper (strip (TIPO_IMPTE f))) "A" in
  if col_CANCELADO (columns df_totales)
  then List.filter (fun f => mask_tipo_a f && negb (_CANCELADO_VALUES (CANCELADO f)))
                   (rows df_totales)
  else List.filter mask_tipo_a (rows df_totales).

(** [main._filtrar_cancelados] *)
Definition _filtrar_cancelados {N} (df_totales : DataFrame N) : list (fila N) :=
  if col_CANCELADO (columns df_totales)
  then List.filter (fun f => _CANCELADO_VALUES (CANCELADO f)) (rows df_totales)
  else [].

(** ** Orders used by [sort_values] *)

(** A three-way comparison that describes a total preorder: swapping
    the arguments flips the answer, equal keys are interchangeable, and
    each strict answer is transitive. *)
Record buen_orden {A} (cmp : A -> A -> comparison) : Prop := BuenOrden {
  bo_antisym : forall a b, cmp b a = CompOpp (cmp a b);
  bo_eq : forall a b c, cmp a b = Eq -> cmp a c = cmp b c;
  bo_lt : forall a b c, cmp a b = Lt -> cmp b c = Lt -> cmp a c = Lt;
}.

(** The order a list of rows is in after [sort_values] on the key [cmp]. *)
Definition en_orden {A} (cmp : A -> A -> comparison) (a b : A) : Prop :=
  no_mayor (cmp a b) = true.

(** ** Row-wise reading of [_calcular_metricas_ciclo] *)

(** [df.loc[pagadas, "DOCTO_CC_ID"].map(ultimo_abono)] at one row. *)
Definition fecha_ultimo_abono (l : list fila_rep) (r : fila_rep) : option Z :=
  match DOCTO_CC_ID (mov r) with
  | Some i => default None (ultimo_abono l !! i)
  | None => None
  end.

(** What the first block does to one row of the table [rep]. *)
Definition paso_recaudo (rep : Reporte) (r : fila_rep) : fila_rep :=
  if pagada r && (col_DOCTO_CC_ACR_ID (r_columns rep) && col_DOCTO_CC_ID (r_columns rep))
  then con_recaudo r (resta_fechas (fecha_ultimo_abono (r_rows rep) r)
                                   (FECHA_VENCIMIENTO (mov r)))
  else r.

(** What the second block does to one row. *)
Definition paso_mora (hoy : Z) (r : fila_rep) : fila_rep :=
  if abierta r
  then con_mora r (resta_fechas (Some hoy) (FECHA_VENCIMIENTO (mov r)))
  else r.

(** ** Reading the outlier flags *)

(** A flag cell that holds [True]. *)
Definition marcado (flag : option bool) : bool :=
  match flag with
  | Some true => true
  | _ => false
  end.

(** ** Data-quality table ([Auditor._evaluar_calidad_datos]) *)

Record fila_calidad : Type := FilaCalidad {
  COLUMNA : string;
  TOTAL_REGISTROS : nat;
  NULOS : nat;
  PCT_NULOS : Q;
  VALORES_UNICOS : nat;
}.

Section Calidad.

(** The cells of the table and the equality [nunique] uses on them. *)
Context {V : Type} (igual : V -> V -> bool).

(** The distinct values of a column, last occurrences kept. *)
Fixpoint distintos (l : list V) : list V :=
  match l with
  | [] => []
  | x :: l' => if existsb (igual x) l' then distintos l' else x :: distintos l'
  end.

(** The body of the loop for the column [nombre]; [total] is [len(df)].
    [df[col].nunique()] does not count nulls.  TIPO_DATO, the name of
    the column's dtype, is left out. *)
Definition calidad_columna (total : nat) (nombre : string) (col : list (option V))
  : fila_calidad :=
  let nulos := length (List.filter isna col) in
  FilaCalidad nombre total nulos
    (if (0 <? total)%nat
     then round 2 (inject_Z (Z.of_nat nulos) / inject_Z (Z.of_nat total) * 100)
     else 0)
    (length (distintos (omap (fun x => x) col))).

(** The table is read by columns here: [df] lists each column name with
    its cells. *)
Definition _evaluar_calidad_datos (total : nat) (df : list (string * list (option V)))
  : list fila_calidad :=
  map (fun c => calidad_columna total c.1 c.2) df.

End Calidad.

(** ** Aging buckets ([Analytics._bucket_mora]) *)

(** An entry of [settings.RANGOS_ANTIGUEDAD]:
    [(min_dias, max_dias | None, etiqueta)]. *)
Definition rango : Type := Z * option Z * string.

(** The condition appended for one range. *)
Definition en_rango (mora : Z) (r : rango) : bool :=
  match r.1.2 with
  | None => (r.1.1 - 1 <? mora)%Z
  | Some max_d => (r.1.1 <=? mora)%Z && (mora <=? max_d)%Z
  end.

(** [Analytics._bucket_mora] at one row; [col_DELTA_MORA] tells whether
    the table has the DELTA_MORA column.  A NaN satisfies no condition. *)
Definition _bucket_mora (rangos_antiguedad : list rango) (col_DELTA_MORA : bool)
           (mora : option Z) : string :=
  if negb col_DELTA_MORA then "Sin datos"
  else
    match mora with
    | None => "Sin clasificar"
    | Some m =>
        np_select
          (((m <=? 0)%Z, "Por vencer")
           :: map (fun r => (en_rango m r, r.2)) rangos_antiguedad)
          "Sin clasificar"
    end.

(** [Analytics._preparar] on the DELTA_MORA column:
    [pd.to_numeric(..., errors="coerce").fillna(0)]. *)
Definition mora_preparada (mora : option Z) : option Z := Some (default 0%Z mora).

(** The ranges leave no gap from day [desde] on: each starts no later
    than where the previous one ended plus one, and the last one is
    open-ended. *)
Fixpoint cubre (desde : Z) (rangos : list rango) : bool :=
  match rangos with
  | [] => false
  | r :: resto =>
      (r.1.1 <=? desde)%Z
      && match r.1.2 with
         | None => true
         | Some max_d => cubre (max_d + 1) resto
         end
  end.

(** ** Selection helpers of the dashboard ([dashboard/data_loader.py]) *)

(** [sorted(col.dropna().unique().tolist())] *)
Definition ordenados_unicos (col : list (option string)) : list string :=
  sort_values (fun a b => no_mayor (String.compare a b))
              (remove_dups (omap (fun x => x) col)).

Definition get_clientes {N} (df : DataFrame N) : list string :=
  ordenados_unicos (map NOMBRE_CLIENTE (rows df)).

Definition get_vendedores {N} (df : DataFrame N) : list string :=
  if negb (col_VENDEDOR (columns df)) then []
  else ordenados_unicos (map VENDEDOR (rows df)).

(** [df[df["NOMBRE_CLIENTE"].isin(clientes)]], or the whole table when
    no client is selected. *)
Definition filtrar_por_cliente {N} (df : DataFrame N) (clientes : list string)
  : DataFrame N :=
  match clientes with
  | [] => df
  | _ =>
      loc (fun f => match NOMBRE_CLIENTE f with
                    | Some c => bool_decide (c ∈ clientes)
                    | None => false
                    end)
          df
  end.

(** ** Sample ledgers *)

Module Ejemplos.

Definition todas : columnas := Columnas true true true true true true.

(** A well-formed row: typed client, salesperson, not cancelled. *)
Definition mov_ej (id : Z) (acr : option Z) (tipo cliente : string)
           (emision vencimiento : Z) (importe impuesto : Q) : fila (option Q) :=
  Fila (Some id) acr tipo (Some cliente) (Some "MAYOREO") (Some "VENTAS 1")
       (Some emision) (Some vencimiento) (Some importe) (Some impuesto)
       (Some 50000) (Texto "N").

Definition cargo_ej (id : Z) (cliente : string) (importe impuesto : Q) : fila (option Q) :=
  mov_ej id None "C" cliente 0 30 importe impuesto.

Definition abono_ej (id : Z) (acr : option Z) (cliente : string) (importe : Q)
  : fila (option Q) :=
  mov_ej id acr "R" cliente 10 10 importe 0.

Definition cfg_defecto : config := Config None None None.

(** Three sales of 100, 200 and 300 and a threshold of 1.1. *)
Definition df_tres_ventas : DataFrame (option Q) :=
  Df todas [cargo_ej 1 "ACME" 100 16; cargo_ej 2 "ACME" 200 32; cargo_ej 3 "ACME" 300 48].

Definition cfg_umbral_bajo : config := Config (Some (11 # 10)) None None.

(** Three sales with the same IMPORTE. *)
Definition df_ventas_iguales : DataFrame (option Q) :=
  Df todas [cargo_ej 1 "ACME" 100 16; cargo_ej 2 "ACME" 100 0; cargo_ej 3 "BETA" 100 16].

(** A ledger with one charge and two payments, one inside each window. *)
Definition df_cobros : DataFrame Q :=
  _preparar
    (Df todas [mov_ej 1 None "C" "ACME" 50 80 1000 160;
               mov_ej 2 None "C" "ACME" 95 125 500 80;
               mov_ej 3 (Some 1%Z) "R" "ACME" 99 99 400 0]).

(** ACME owes 100; BETA paid 150 against an invoice of 100. *)
Definition df_sobrepago : DataFrame (option Q) :=
  Df todas [cargo_ej 1 "ACME" 100 0;
            cargo_ej 2 "BETA" 100 0;
            abono_ej 3 (Some 2%Z) "BETA" 150].

(** Sixty clients, each owing 1. *)
Definition df_sesenta : DataFrame (option Q) :=
  Df todas (map (fun i => cargo_ej (Z.of_nat i)
                                   (String (ascii_of_nat (48 + i)) EmptyString) 1 0)
                (seq 0 60)).

(** Three clients owing 500, 300 and 200. *)
Definition df_tres_clientes : DataFrame (option Q) :=
  Df todas [cargo_ej 1 "ACME" 300 0; cargo_ej 2 "BETA" 500 0; cargo_ej 3 "CETA" 200 0].

(** ACME owes 100 and made a payment of 40 that references no invoice. *)
Definition df_abono_suelto : DataFrame (option Q) :=
  Df todas [cargo_ej 1 "ACME" 100 0; abono_ej 2 None "ACME" 40].

(** Two invoices of 0.004 each. *)
Definition df_milesimas : DataFrame (option Q) :=
  Df todas [cargo_ej 1 "ACME" (4 # 1000) 0; cargo_ej 2 "ACME" (4 # 1000) 0].

(** Ten sales of 100 and a cancelled one of 100000 without salesperson
    nor client type. *)
Definition venta_cancelada : fila (option Q) :=
  Fila (Some 11%Z) None "C" (Some "ACME") None None (Some 0%Z) (Some 30%Z)
       (Some 100000) (Some 16000) (Some 50000) (Texto "S").

Definition df_con_cancelada : DataFrame (option Q) :=
  Df todas (map (fun i => cargo_ej (Z.of_nat i) "ACME" 100 16) (seq 1 10)
            ++ [venta_cancelada]).

(** Ten sales of 100 + 16 and one of 100016 in total, entered either as
    100000 + 16 or as 100 + 99916. *)
Definition diez_ventas : list (fila (option Q)) :=
  map (fun i => cargo_ej (Z.of_nat i) "ACME" 100 16) (seq 1 10).

Definition df_atipico_importe : DataFrame (option Q) :=
  Df todas (diez_ventas ++ [cargo_ej 11 "ACME" 100000 16]).

Definition df_atipico_impuesto : DataFrame (option Q) :=
  Df todas (diez_ventas ++ [cargo_ej 11 "ACME" 100 99916]).

(** The three sales of [df_tres_ventas] entered without tax. *)
Definition df_tres_ventas_sin_iva : DataFrame (option Q) :=
  Df todas [cargo_ej 1 "ACME" 100 0; cargo_ej 2 "ACME" 200 0; cargo_ej 3 "ACME" 300 0].

Definition saldos_de (df : DataFrame (option Q)) : list fila_saldo :=
  _saldos_por_factura (_filtrar_activos (_preparar df)).


(** A sale, an advance typed in lower case with blanks, a cancelled
    advance and a cancelled sale. *)
Definition anticipo_ej : fila (option Q) :=
  mov_ej 2 None " a " "ACME" 5 5 50 0.

Definition anticipo_cancelado_ej : fila (option Q) :=
  Fila (Some 3%Z) None "A" (Some "ACME") (Some "MAYOREO") (Some "VENTAS 1")
       (Some 6%Z) (Some 6%Z) (Some 70) (Some 0) (Some 50000) (Entero 1).

Definition df_anticipos : DataFrame (option Q) :=
  Df todas [cargo_ej 1 "ACME" 100 16; anticipo_ej; anticipo_cancelado_ej; venta_cancelada].

(** An invoice of 116 due on day 30, paid with 100 on day 20 and 16 on
    day 45, and an open invoice of 200. *)
Definition df_pagada : DataFrame (option Q) :=
  Df todas [mov_ej 1 None "C" "ACME" 0 30 100 16;
            mov_ej 2 (Some 1%Z) "R" "ACME" 20 20 100 0;
            mov_ej 3 (Some 1%Z) "R" "ACME" 45 45 16 0;
            mov_ej 4 None "C" "ACME" 50 80 200 0].

(** The table of cycle metrics of [df_pagada] on day 100. *)
Definition ciclo_pagada : list fila_rep :=
  r_rows (_calcular_metricas_ciclo 100
            (_calcular_saldo_factura (_filtrar_movimientos (_preparar df_pagada))).1).

Definition fila_nula : fila Q :=
  Fila None None "" None None None None None 0 0 0 Nulo.

Definition fila_rep_nula : fila_rep := con_saldo_factura fila_nula None.

Definition fila_saldo_nula : fila_saldo := FilaSaldo fila_nula 0 0 0.

(** The same table with and without the DOCTO_CC_ID column. *)
Definition sin_id : columnas := Columnas true true false true true true.

(** Clients with a credit limit of 100, 0 and -1 that owe 95, 10 and 10. *)
Definition venta_con_limite (id : Z) (cliente : string) (importe limite : Q)
  : fila (option Q) :=
  Fila (Some id) None "C" (Some cliente) (Some "MAYOREO") (Some "VENTAS 1")
       (Some 0%Z) (Some 30%Z) (Some importe) (Some 0) (Some limite) (Texto "N").

Definition df_limites : DataFrame (option Q) :=
  Df todas [venta_con_limite 1 "ACME" 95 100;
            venta_con_limite 2 "BETA" 10 0;
            venta_con_limite 3 "CETA" 10 (-1)].

Definition fila_limite_nula : fila_limite := FilaLimite "" 0 0 None 0 "".

Definition fila_morosidad_nula : fila_morosidad := FilaMorosidad "" 0 0 0 0 0 0 0.

(** A table of two columns and three records. *)
Definition tabla_calidad : list (string * list (option Z)) :=
  [("DOCTO_CC_ID", [Some 1%Z; Some 2%Z; Some 1%Z]);
   ("FECHA_CANCELACION", [None; None; None])].

(** Aging ranges as the settings usually give them. *)
Definition rangos_ej : list rango :=
  [(0%Z, Some 30%Z, "0-30 dias"); (31%Z, Some 60%Z, "31-60 dias");
   (61%Z, Some 90%Z, "61-90 dias"); (91%Z, None, "Mas de 90 dias")].

(** A table with its rows in reverse order. *)
Definition al_reves {N} (df : DataFrame N) : DataFrame N :=
  Df (columns df) (rev (rows df)).
End Ejemplos.
(** ** Properties of the numeric helpers *)

Section NumFacts.

Lemma suma_app l1 l2 : suma (l1 ++ l2) == suma l1 + suma l2.
Proof.
  induction l1 as [|x l1 IH]; simpl.
  - ring.
  - rewrite IH. ring.
Qed.

Lemma rint_comp x y : x == y -> rint x = rint y.
Proof.
  intros E. unfold rint.
  rewrite (Qfloor_comp _ _ E).
  assert (E' : x - inject_Z (Qfloor y) == y - inject_Z (Qfloor y)) by (rewrite E; reflexivity).
  rewrite E'. reflexivity.
Qed.

#[global] Instance round_comp d : Proper (Qeq ==> Qeq) (round d).
Proof.
  intros x y E. unfold round.
  assert (E' : x * diez d == y * diez d) by (rewrite E; reflexivity).
  rewrite (rint_comp _ _ E'). reflexivity.
Qed.

Lemma floor_cotas x :
  inject_Z (Qfloor x) <= x /\ x < inject_Z (Qfloor x) + 1.
Proof.
  split; [apply Qfloor_le|].
  pose proof (Qlt_floor x) as H. rewrite inject_Z_plus in H. exact H.
Qed.

Lemma par_o_siguiente (f : Z) (P : Z -> Prop) :
  P f -> P (f + 1)%Z -> P (if Z.even f then f else (f + 1)%Z).
Proof. destruct (Z.even f); auto. Qed.

(** [rint] is within one half of its argument. *)
Lemma rint_cota x :
  x - (1 # 2) <= inject_Z (rint x) /\ inject_Z (rint x) <= x + (1 # 2).
Proof.
  unfold rint. destruct (floor_cotas x) as [H1 H2].
  destruct (Qcompare_spec (x - inject_Z (Qfloor x)) (1 # 2)) as [E|L|G].
  - apply par_o_siguiente; rewrite ?inject_Z_plus; change (inject_Z 1) with 1; lra.
  - lra.
  - rewrite inject_Z_plus. change (inject_Z 1) with 1. lra.
Qed.

Lemma rint_Z (n : Z) : rint (inject_Z n) = n.
Proof.
  unfold rint. rewrite Qfloor_Z.
  destruct (Qcompare_spec (inject_Z n - inject_Z n) (1 # 2)) as [E|L|G];
    [lra | reflexivity | lra].
Qed.

Lemma inject_Z_lt_inv (a b : Z) : inject_Z a < inject_Z b + 1 -> (a <= b)%Z.
Proof.
  intros H. change 1 with (inject_Z 1) in H. rewrite <- inject_Z_plus in H.
  rewrite <- Zlt_Qlt in H. lia.
Qed.

Lemma rint_mono x y : x <= y -> (rint x <= rint y)%Z.
Proof.
  intros Hxy.
  pose proof (Qfloor_resp_le _ _ Hxy) as Hf.
  destruct (floor_cotas x) as [X1 X2]. destruct (floor_cotas y) as [Y1 Y2].
  destruct (Z.eq_dec (Qfloor x) (Qfloor y)) as [E|NE].
  - unfold rint. rewrite E in *.
    destruct (Qcompare_spec (x - inject_Z (Qfloor y)) (1 # 2)) as [Ex|Lx|Gx];
      destruct (Qcompare_spec (y - inject_Z (Qfloor y)) (1 # 2)) as [Ey|Ly|Gy];
      try lra; try lia; destruct (Z.even (Qfloor y)); lia.
  - assert (Hx : (rint x <= Qfloor x + 1)%Z).
    { unfold rint. destruct (Qcompare _ _); [destruct (Z.even _)| |]; lia. }
    assert (Hy : (Qfloor y <= rint y)%Z).
    { unfold rint. destruct (Qcompare _ _); [destruct (Z.even _)| |]; lia. }
    lia.
Qed.

Lemma diez_pos d : 0 < diez d.
Proof.
  unfold diez. change 0 with (inject_Z 0). rewrite <- Zlt_Qlt.
  apply Z.pow_pos_nonneg; lia.
Qed.

Lemma round_decimales d x : decimales d (round d x).
Proof. exists (rint (x * diez d)). reflexivity. Qed.

Lemma round_id d x : decimales d x -> round d x == x.
Proof.
  intros [n Hn]. pose proof (diez_pos d) as Hd. unfold round.
  assert (E : x * diez d == inject_Z n) by (rewrite Hn; field; lra).
  rewrite (rint_comp _ _ E), rint_Z, Hn. reflexivity.
Qed.

Lemma round_mono d x y : x <= y -> round d x <= round d y.
Proof.
  intros Hxy. pose proof (diez_pos d) as Hd. unfold round.
  assert (H : (rint (x * diez d) <= rint (y * diez d))%Z).
  { apply rint_mono. apply Qmult_le_compat_r; lra. }
  rewrite Zle_Qle in H.
  apply Qmult_le_compat_r; [exact H|].
  apply Qlt_le_weak, Qinv_lt_0_compat, Hd.
Qed.

Lemma round_0 d : round d 0 == 0.
Proof.
  apply round_id. exists 0%Z. pose proof (diez_pos d). field. lra.
Qed.

(** Rounding to [d] decimals moves a value by at most half a unit of the
    last place. *)
Lemma round_error d x :
  x - (1 # 2) / diez d <= round d x /\ round d x <= x + (1 # 2) / diez d.
Proof.
  pose proof (diez_pos d) as Hd. unfold round.
  destruct (rint_cota (x * diez d)) as [H1 H2].
  set (r := inject_Z (rint (x * diez d))) in *.
  assert (Hi : 0 < / diez d) by (apply Qinv_lt_0_compat, Hd).
  split.
  - apply Qle_trans with ((x * diez d - (1 # 2)) / diez d).
    + apply Qle_lteq. right. field. lra.
    + apply Qmult_le_compat_r; lra.
  - apply Qle_trans with ((x * diez d + (1 # 2)) / diez d).
    + apply Qmult_le_compat_r; lra.
    + apply Qle_lteq. right. field. lra.
Qed.

Lemma decimales_0 d : decimales d 0.
Proof. exists 0%Z. pose proof (diez_pos d). field. lra. Qed.

Lemma decimales_plus d x y : decimales d x -> decimales d y -> decimales d (x + y).
Proof.
  intros [n Hn] [m Hm]. exists (n + m)%Z. pose proof (diez_pos d).
  rewrite Hn, Hm, inject_Z_plus. field. lra.
Qed.

Lemma decimales_opp d x : decimales d x -> decimales d (- x).
Proof.
  intros [n Hn]. exists (- n)%Z. pose proof (diez_pos d).
  rewrite Hn, inject_Z_opp. field. lra.
Qed.

Lemma decimales_minus d x y : decimales d x -> decimales d y -> decimales d (x - y).
Proof. intros Hx Hy. apply decimales_plus; [exact Hx|apply decimales_opp, Hy]. Qed.

Lemma decimales_suma d l : Forall (decimales d) l -> decimales d (suma l).
Proof.
  induction 1 as [|x l Hx _ IH]; simpl.
  - apply decimales_0.
  - apply decimales_plus; assumption.
Qed.

#[global] Instance decimales_comp d : Proper (Qeq ==> iff) (decimales d).
Proof.
  intros x y E. unfold decimales. split; intros [n Hn]; exists n.
  - rewrite <- E. exact Hn.
  - rewrite E. exact Hn.
Qed.

End NumFacts.

(** ** Properties of the grouped sums *)

Lemma groupby_sum_lookup (kv : list (Z * Q)) (k : Z) :
  default 0 (groupby_sum kv !! k)
  == suma (map snd (List.filter (fun p => (p.1 =? k)%Z) kv)).
Proof.
  induction kv as [|[k' v] kv IH]; simpl.
  - rewrite lookup_empty. reflexivity.
  - destruct (Z.eqb_spec k' k) as [->|Hne]; simpl.
    + rewrite lookup_insert_eq. simpl. rewrite IH. reflexivity.
    + rewrite lookup_insert_ne by exact Hne. exact IH.
Qed.


Lemma abonos_por_cargo_lookup (df : DataFrame Q) (k : Z) :
  default 0 (abonos_por_cargo df !! k)
  == suma (map _MONTO (List.filter (fun p => es_abono p && acr_es k p) (rows df))).
Proof.
  unfold abonos_por_cargo. rewrite groupby_sum_lookup.
  induction (rows df) as [|f l IH]; simpl; [reflexivity|].
  unfold acr_es at 1.
  destruct (es_abono f); simpl; [|exact IH].
  destruct (DOCTO_CC_ACR_ID f) as [a|]; simpl; [|exact IH].
  destruct (a =? k)%Z; simpl; [|exact IH].
  rewrite IH. reflexivity.
Qed.

Lemma map_fillna0_vinculados (df : DataFrame Q) (c : fila Q) :
  col_DOCTO_CC_ACR_ID (columns df) && col_DOCTO_CC_ID (columns df) = true ->
  map_fillna0 (abonos_por_cargo df) (DOCTO_CC_ID c)
  == suma (map _MONTO (abonos_vinculados df c)).
Proof.
  intros Hc. unfold map_fillna0, abonos_vinculados, referencia. rewrite Hc.
  destruct (DOCTO_CC_ID c) as [i|].
  - rewrite abonos_por_cargo_lookup.
    induction (rows df) as [|f l IH]; simpl; [reflexivity|].
    unfold acr_es at 1.
    destruct (es_abono f); simpl; [|exact IH].
    destruct (DOCTO_CC_ACR_ID f) as [a|]; simpl; [|exact IH].
    destruct (a =? i)%Z; simpl; [|exact IH].
    rewrite IH. reflexivity.
  - induction (rows df) as [|f l IH]; simpl; [reflexivity|].
    destruct (es_abono f); simpl; [|exact IH].
    destruct (DOCTO_CC_ACR_ID f); simpl; exact IH.
Qed.

Lemma sin_columnas_sin_vinculados (df : DataFrame Q) (c : fila Q) :
  col_DOCTO_CC_ACR_ID (columns df) && col_DOCTO_CC_ID (columns df) = false ->
  abonos_vinculados df c = [].
Proof.
  intros Hc. unfold abonos_vinculados, referencia. rewrite Hc.
  induction (rows df) as [|f l IH]; simpl; [reflexivity|].
  rewrite andb_false_r. exact IH.
Qed.


Lemma saldo_factura_fila (df : DataFrame Q) :
  Forall (fun r =>
            es_cargo (mov r) = true ->
            exists s, SALDO_FACTURA r = Some s /\ s == saldo_esperado df (mov r))
         (r_rows (_calcular_saldo_factura df).1).
Proof.
  unfold _calcular_saldo_factura, saldo_esperado.
  destruct (col_DOCTO_CC_ACR_ID (columns df) && col_DOCTO_CC_ID (columns df)) eqn:Hc;
    simpl; apply Forall_map, Forall_forall; intros f _ Hf; simpl in *; rewrite Hf;
    eexists; split; try reflexivity.
  - rewrite (map_fillna0_vinculados df f Hc). reflexivity.
  - rewrite (sin_columnas_sin_vinculados df f Hc). simpl.
    apply round_comp. ring.
Qed.

Lemma saldo_factura_filas (df : DataFrame Q) :
  map mov (r_rows (_calcular_saldo_factura df).1) = rows df.
Proof.
  unfold _calcular_saldo_factura.
  destruct (_ && _); simpl; rewrite map_map; simpl; apply map_id.
Qed.

Lemma saldos_por_factura_fila (df : DataFrame Q) :
  Forall (fun s => SALDO s == saldo_esperado df (cargo s) /\ es_cargo (cargo s) = true)
         (_saldos_por_factura df).
Proof.
  unfold _saldos_por_factura, saldo_esperado.
  apply Forall_map, Forall_forall. intros f Hf; simpl.
  apply list_elem_of_In, filter_In in Hf as [_ Hf]. split; [|exact Hf].
  destruct (col_DOCTO_CC_ACR_ID (columns df) && col_DOCTO_CC_ID (columns df)) eqn:Hc.
  - rewrite (map_fillna0_vinculados df f Hc). reflexivity.
  - rewrite (sin_columnas_sin_vinculados df f Hc). reflexivity.
Qed.


(** ** Comparisons on rationals *)

#[global] Instance Qlt_bool_comp : Proper (Qeq ==> Qeq ==> eq) Qlt_bool.
Proof. intros x x' Ex y y' Ey. unfold Qlt_bool. rewrite Ex, Ey. reflexivity. Qed.

Lemma Qlt_bool_iff x y : Qlt_bool x y = true <-> x < y.
Proof.
  unfold Qlt_bool. rewrite negb_true_iff, <- not_true_iff_false, Qle_bool_iff.
  split; [apply Qnot_le_lt | apply Qlt_not_le].
Qed.

(** ** CEI *)

Lemma cei_cobrable (df : DataFrame Q) (hoy inicio : Z) :
  let k := _calcular_cei df hoy inicio in
  cobrable k == saldo_actual k + cobros_periodo k.
Proof. simpl. ring. Qed.


#[global] Instance cei_de_comp : Proper (Qeq ==> Qeq ==> Qeq) cei_de.
Proof.
  intros s s' Es c c' Ec. unfold cei_de. rewrite Es, Ec.
  destruct (Qlt_bool 0 (s' + c')); [|reflexivity].
  rewrite Es, Ec. reflexivity.
Qed.

Lemma cei_por_cobros (df : DataFrame Q) (hoy inicio : Z) :
  let k := _calcular_cei df hoy inicio in
  cei k == cei_de (saldo_actual k) (cobros_periodo k).
Proof.
  intros k. pose proof (cei_cobrable df hoy inicio) as Hc.
  cbv zeta in Hc. fold k in Hc. unfold cei_de.
  change (cei k) with (if Qlt_bool 0 (cobrable k)
                       then cobros_periodo k / cobrable k * 100 else 100).
  rewrite (Qlt_bool_comp 0 0 (Qeq_refl 0) _ _ Hc).
  destruct (Qlt_bool 0 (saldo_actual k + cobros_periodo k)); [|reflexivity].
  rewrite Hc. reflexivity.
Qed.


(** ** The comparisons on [std] and [zscore] *)

Section ZScoreFacts.

Lemma Q2R_cero : Q2R 0 = 0%R.
Proof. unfold Q2R. simpl. Lra.lra. Qed.

Lemma std_positiva_spec xs : std_positiva xs = true <-> (0 < std xs)%R.
Proof.
  unfold std_positiva, std. rewrite Qlt_bool_iff. split.
  - intros H. apply sqrt_lt_R0. rewrite <- Q2R_cero. apply Qlt_Rlt, H.
  - intros H. apply Rlt_Qlt. rewrite Q2R_cero.
    destruct (Rlt_le_dec 0 (Q2R (var 1 xs))) as [L|L]; [exact L|].
    rewrite (sqrt_neg_0 _ L) in H. Lra.lra.
Qed.

Lemma std_cero_spec xs : std_cero xs = true <-> std xs = 0%R.
Proof.
  unfold std_cero, std. rewrite Qle_bool_iff. split.
  - intros H. apply sqrt_neg_0. rewrite <- Q2R_cero. apply Qle_Rle, H.
  - intros H. apply Rle_Qle. rewrite Q2R_cero.
    destruct (Rlt_le_dec 0 (Q2R (var 1 xs))) as [L|L]; [|exact L].
    apply sqrt_lt_R0 in L. Lra.lra.
Qed.

Lemma std_cero_no_positiva xs : std_cero xs = negb (std_positiva xs).
Proof. unfold std_cero, std_positiva, Qlt_bool. rewrite negb_involutive. reflexivity. Qed.

Lemma zscore_cociente xs v :
  (0 < std xs)%R ->
  zscore xs v = (Rabs (Q2R v - Q2R (mean xs)) / std xs)%R.
Proof.
  intros H. unfold zscore, Rdiv.
  rewrite Rabs_mult, Rabs_inv, (Rabs_pos_eq (std xs)) by Lra.lra. reflexivity.
Qed.

(** Comparing [|d| / sqrt V] with a threshold, on squares. *)
Lemma supera_raiz (V umbral d : Q) :
  0 < V ->
  Qlt_bool umbral 0 || Qle_bool (umbral * umbral * V) (d * d) = true
  <-> (Q2R umbral <= Rabs (Q2R d) / sqrt (Q2R V))%R.
Proof.
  intros Hv.
  assert (Hs : (0 < sqrt (Q2R V))%R).
  { apply sqrt_lt_R0. rewrite <- Q2R_cero. apply Qlt_Rlt, Hv. }
  assert (Hss : (sqrt (Q2R V) * sqrt (Q2R V) = Q2R V)%R).
  { apply sqrt_sqrt. rewrite <- Q2R_cero. apply Qle_Rle. lra. }
  assert (HD : Q2R (d * d) = (Rabs (Q2R d) * Rabs (Q2R d))%R).
  { rewrite Q2R_mult, <- Rabs_mult. symmetry. apply Rabs_pos_eq, Rle_0_sqr. }
  pose proof (Rabs_pos (Q2R d)) as HA.
  set (A := Rabs (Q2R d)) in *. set (s := sqrt (Q2R V)) in *.
  assert (Hq : (A / s * s = A)%R) by (field; Lra.lra).
  assert (Hq0 : (0 <= A / s)%R).
  { apply Rmult_le_pos; [exact HA|]. apply Rlt_le, Rinv_0_lt_compat, Hs. }
  rewrite orb_true_iff, Qlt_bool_iff, Qle_bool_iff. split.
  - intros [Hneg|Hsq].
    + apply Qlt_Rlt in Hneg. rewrite Q2R_cero in Hneg. Lra.lra.
    + apply Qle_Rle in Hsq. rewrite HD, !Q2R_mult, <- Hss in Hsq.
      destruct (Rlt_le_dec (Q2R umbral) 0) as [L|L]; [Lra.lra|].
      apply Rmult_le_reg_r with s; [exact Hs|]. rewrite Hq.
      apply Rsqr_incr_0_var; [|exact HA]. unfold Rsqr. Lra.lra.
  - intros H.
    destruct (Qlt_le_dec umbral 0) as [L|L]; [left; exact L|right].
    apply Qle_Rle in L. rewrite Q2R_cero in L.
    apply Rle_Qle. rewrite HD, !Q2R_mult, <- Hss.
    assert (Hus : (Q2R umbral * s <= A)%R).
    { rewrite <- Hq. apply Rmult_le_compat_r; Lra.lra. }
    assert (H0 : (0 <= Q2R umbral * s)%R) by (apply Rmult_le_pos; Lra.lra).
    pose proof (Rsqr_incr_1 _ _ Hus H0 HA) as Hsq. unfold Rsqr in Hsq. Lra.lra.
Qed.

(** [zscore_supera] decides the comparison [zscore >= umbral] that the
    code makes whenever the standard deviation is positive. *)
Lemma zscore_supera_spec xs umbral v :
  (0 < std xs)%R ->
  zscore_supera xs umbral v = true <-> (Q2R umbral <= zscore xs v)%R.
Proof.
  intros Hs. rewrite (zscore_cociente xs v Hs).
  pose proof (proj2 (std_positiva_spec xs) Hs) as Hv.
  unfold std_positiva in Hv. rewrite Qlt_bool_iff in Hv.
  unfold zscore_supera, std. rewrite (supera_raiz _ umbral (v - mean xs) Hv).
  rewrite Q2R_minus. reflexivity.
Qed.

End ZScoreFacts.

(** ** Outlier detector: series that cannot be evaluated *)

Lemma no_evaluable (xs : list Q) :
  (length xs < 3)%nat \/ std xs = 0%R ->
  (length xs <? 3)%nat || std_cero xs = true.
Proof.
  intros [H|H]; apply orb_true_iff.
  - left. apply Nat.ltb_lt, H.
  - right. apply std_cero_spec, H.
Qed.

Lemma no_evaluable_reporte (xs : list Q) :
  (length xs < 3)%nat \/ std xs = 0%R ->
  (3 <=? length xs)%nat && std_positiva xs = false.
Proof.
  intros H. apply no_evaluable in H. rewrite std_cero_no_positiva in H.
  rewrite Nat.ltb_antisym, <- negb_andb, negb_true_iff in H. exact H.
Qed.


(** ** Outlier detector: the z-score that is compared with the threshold *)

Lemma zscore_es_muestral xs v :
  (0 < std xs)%R -> zscore xs v = zscore_muestral xs v.
Proof. intros H. rewrite (zscore_cociente xs v H). reflexivity. Qed.

Lemma supera_muestral xs umbral v :
  (0 < std xs)%R ->
  zscore_supera xs umbral v = true <-> (Q2R umbral <= zscore_muestral xs v)%R.
Proof.
  intros H. rewrite <- (zscore_es_muestral xs v H). apply zscore_supera_spec, H.
Qed.

Lemma evaluable_auditor xs :
  (3 <= length xs)%nat -> (0 < std xs)%R ->
  (length xs <? 3)%nat || std_cero xs = false.
Proof.
  intros Hn Hs. apply orb_false_iff. split.
  - apply Nat.ltb_ge, Hn.
  - rewrite std_cero_no_positiva, (proj2 (std_positiva_spec xs) Hs). reflexivity.
Qed.

Lemma evaluable_reporte xs :
  (3 <= length xs)%nat -> (0 < std xs)%R ->
  (3 <=? length xs)%nat && std_positiva xs = true.
Proof.
  intros Hn Hs. apply andb_true_iff. split.
  - apply Nat.leb_le, Hn.
  - apply std_positiva_spec, Hs.
Qed.

(** C3 (as the code has it). Whenever a series is evaluated (at least 3
    non-missing values, positive deviation), the z-score of a value is
    |value - mean| divided by the SAMPLE standard deviation of the
    non-missing values (squared deviations over n - 1, the pandas default),
    and a row is flagged exactly when that quotient reaches the threshold.
    This holds for the auditor's detectors over charge IMPORTE and over a
    delta column, and for the three flags of [_agregar_zscores]. *)
Theorem C3_zscore_muestral (cfg : config) (umbral : Q)
        (df : DataFrame (option Q)) (rep : list fila_banda)
        (columna : fila_rep -> option Z) :
  (forall xs v, (0 < std xs)%R -> zscore xs v = zscore_muestral xs v)
  /\ (let xs := serie_importes_auditor df in
      (3 <= length xs)%nat -> (0 < std xs)%R ->
      forall f, In f (_detectar_importes_atipicos cfg df) <->
                In f (List.filter es_cargo (rows df))
                /\ exists v, IMPORTE f = Some v
                             /\ (Q2R (umbral_de (importe_zscore_umbral cfg))
                                 <= zscore_muestral xs v)%R)
  /\ (let xs := serie_delta_auditor columna rep in
      (3 <= length xs)%nat -> (0 < std xs)%R ->
      forall r, In r (_detectar_atipicos_delta umbral columna rep) <->
                In r (List.filter (fun r => es_cargo (mov r)) (map base rep))
                /\ exists d, columna r = Some d
                             /\ (Q2R umbral <= zscore_muestral xs (de_entero d))%R)
  /\ (let xs := serie_importes_reporte rep in
      (3 <= length xs)%nat -> (0 < std xs)%R ->
      Forall (fun t =>
                es_cargo (mov (base (fila_b t))) = true ->
                exists b, ATIPICO_IMPORTE t = Some b
                          /\ (b = true <->
                              (Q2R umbral
                               <= zscore_muestral xs (IMPORTE (mov (base (fila_b t)))))%R))
             (_agregar_zscores umbral rep))
  /\ (let xs := serie_delta_reporte DELTA_RECAUDO rep in
      (3 <= length xs)%nat -> (0 < std xs)%R ->
      Forall (fun t =>
                forall d, DELTA_RECAUDO (base (fila_b t)) = Some d ->
                exists b, ATIPICO_DELTA_RECAUDO t = Some b
                          /\ (b = true <->
                              (Q2R umbral <= zscore_muestral xs (de_entero d))%R))
             (_agregar_zscores umbral rep))
  /\ (let xs := serie_delta_reporte DELTA_MORA rep in
      (3 <= length xs)%nat -> (0 < std xs)%R ->
      Forall (fun t =>
                forall d, DELTA_MORA (base (fila_b t)) = Some d ->
                exists b, ATIPICO_DELTA_MORA t = Some b
                          /\ (b = true <->
                              (Q2R umbral <= zscore_muestral xs (de_entero d))%R))
             (_agregar_zscores umbral rep)).
Proof.
  split; [exact zscore_es_muestral|].
  split; [|split; [|split; [|split]]]; intros xs Hn Hs.
  - intros f. unfold _detectar_importes_atipicos.
    fold (serie_importes_auditor df). fold xs.
    destruct (List.filter es_cargo (rows df)) as [|f0 l0] eqn:E.
    { unfold xs, serie_importes_auditor in Hn. rewrite E in Hn. simpl in Hn. lia. }
    unfold xs, serie_importes_auditor in *. rewrite E in *.
    rewrite (evaluable_auditor _ Hn Hs), filter_In.
    split; intros [Hin Hf]; (split; [exact Hin|]).
    + destruct (IMPORTE f) as [v|]; [|discriminate].
      exists v. split; [reflexivity|]. apply supera_muestral; assumption.
    + destruct Hf as (v & -> & Hv). apply supera_muestral; assumption.
  - intros r. unfold _detectar_atipicos_delta.
    fold (serie_delta_auditor columna rep). fold xs.
    rewrite (evaluable_auditor _ Hn Hs), filter_In.
    split; intros [Hin Hf]; (split; [exact Hin|]).
    + destruct (columna r) as [d|]; [|discriminate].
      exists d. split; [reflexivity|]. apply supera_muestral; assumption.
    + destruct Hf as (d & -> & Hd). apply supera_muestral; assumption.
  - unfold _agregar_zscores. fold (serie_importes_reporte rep). fold xs.
    rewrite (evaluable_reporte _ Hn Hs). apply Forall_map, Forall_forall.
    intros b _ Hc. simpl in *. rewrite Hc. simpl. eexists. split; [reflexivity|].
    apply supera_muestral, Hs.
  - unfold _agregar_zscores. fold (serie_delta_reporte DELTA_RECAUDO rep). fold xs.
    rewrite (evaluable_reporte _ Hn Hs). apply Forall_map, Forall_forall.
    intros b _ d Hd. simpl in *. rewrite Hd. simpl. eexists. split; [reflexivity|].
    apply supera_muestral, Hs.
  - unfold _agregar_zscores. fold (serie_delta_reporte DELTA_MORA rep). fold xs.
    rewrite (evaluable_reporte _ Hn Hs). apply Forall_map, Forall_forall.
    intros b _ d Hd. simpl in *. rewrite Hd. simpl. eexists. split; [reflexivity|].
    apply supera_muestral, Hs.
Qed.

(** ** Concentration table *)

Section Concentracion.

Lemma map_snd_combine {A B} (l1 : list A) (l2 : list B) :
  length l1 = length l2 -> map snd (combine l1 l2) = l2.
Proof.
  revert l2. induction l1 as [|a l1 IH]; intros [|b l2] H; simpl in *; try lia; auto.
  f_equal. apply IH. lia.
Qed.

Lemma map_fst_combine {A B} (l1 : list A) (l2 : list B) :
  length l1 = length l2 -> map fst (combine l1 l2) = l1.
Proof.
  revert l2. induction l1 as [|a l1 IH]; intros [|b l2] H; simpl in *; try lia; auto.
  f_equal. apply IH. lia.
Qed.

Lemma length_cumsum a l : length (cumsum a l) = length l.
Proof. revert a. induction l as [|x l IH]; intros a; simpl; auto. Qed.

Lemma cumsum_sorted a l :
  Forall (fun x => 0 <= x) l -> Sorted Qle (cumsum a l).
Proof.
  intros H. revert a. induction H as [|x l Hx Hl IH]; intros a; simpl.
  - constructor.
  - constructor; [apply IH|].
    destruct Hl as [|y l' Hy _]; simpl; constructor. lra.
Qed.

Lemma map_round_sorted d l : Sorted Qle l -> Sorted Qle (map (round d) l).
Proof.
  induction 1 as [|x l Hl IH Hx]; simpl; constructor; [exact IH|].
  destruct Hx as [|y l' Hxy]; simpl; constructor. apply round_mono, Hxy.
Qed.

Lemma last_cumsum a x l : List.last (cumsum a (x :: l)) 0 == a + suma (x :: l).
Proof.
  revert a x. induction l as [|y l IH]; intros a x.
  - simpl. ring.
  - change (cumsum a (x :: y :: l)) with ((a + x) :: cumsum (a + x) (y :: l)).
    change (List.last ((a + x) :: cumsum (a + x) (y :: l)) 0)
      with (List.last (cumsum (a + x) (y :: l)) 0).
    rewrite IH. simpl. ring.
Qed.

Lemma last_cumsum_no_vacia a l : l <> [] -> List.last (cumsum a l) 0 == a + suma l.
Proof. destruct l as [|x l]; [congruence|]. intros _. apply last_cumsum. Qed.

Lemma last_map {A B} (f : A -> B) (l : list A) (a : A) (b : B) :
  l <> [] -> List.last (map f l) b = f (List.last l a).
Proof.
  induction l as [|x l IH]; [congruence|]. intros _.
  destruct l as [|y l]; [reflexivity|].
  change (List.last (map f (x :: y :: l)) b) with (List.last (map f (y :: l)) b).
  change (List.last (x :: y :: l) a) with (List.last (y :: l) a).
  apply IH. discriminate.
Qed.

Lemma suma_escala (k : Q) (l : list Q) :
  suma (map (fun x => x * k) l) == suma l * k.
Proof. induction l as [|x l IH]; simpl; [ring|]. rewrite IH. ring. Qed.

(** Rounding each term moves a sum by at most half a unit per term. *)
Lemma suma_round_error d (l : list Q) :
  suma l - inject_Z (Z.of_nat (length l)) * ((1 # 2) / diez d)
    <= suma (map (round d) l)
  /\ suma (map (round d) l)
     <= suma l + inject_Z (Z.of_nat (length l)) * ((1 # 2) / diez d).
Proof.
  induction l as [|x l [IH1 IH2]].
  - change (suma (map (round d) [])) with 0. change (suma []) with 0.
    change (inject_Z (Z.of_nat (length (@nil Q)))) with 0.
    set (e := (1 # 2) / diez d). split; lra.
  - change (length (x :: l)) with (S (length l)).
    rewrite Nat2Z.inj_succ. unfold Z.succ. rewrite inject_Z_plus.
    change (inject_Z 1) with 1.
    change (suma (x :: l)) with (x + suma l).
    change (suma (map (round d) (x :: l))) with (round d x + suma (map (round d) l)).
    destruct (round_error d x) as [E1 E2].
    set (e := (1 # 2) / diez d) in *.
    set (n := inject_Z (Z.of_nat (length l))) in *.
    set (p := n * e) in *.
    assert (Ep : (n + 1) * e == p + e) by (unfold p; ring).
    rewrite Ep. split; lra.
Qed.

Lemma suma_porcentajes (l : list (string * Q)) (t : Q) :
  ~ t == 0 ->
  suma (map (fun p => p.2 / t * 100) l) == suma (map snd l) / t * 100.
Proof.
  intros Ht. induction l as [|p l IH]; simpl.
  - field. exact Ht.
  - rewrite IH. field. exact Ht.
Qed.

Variable saldos : list fila_saldo.

Let por_cliente : list (string * Q) :=
  sort_values (fun a b => Qle_bool b.2 a.2) (saldo_por_cliente saldos).
Let total : Q := suma (map snd por_cliente).
Let exacto : list Q := map (fun p => p.2 / total * 100) por_cliente.
Let pct : list Q := map (fun p => round 2 (p.2 / total * 100)) por_cliente.

Lemma concentracion_vacia :
  Qle_bool total 0 = true -> _calcular_concentracion saldos = [].
Proof.
  intros H. unfold _calcular_concentracion. fold por_cliente. fold total.
  rewrite H. reflexivity.
Qed.

Lemma concentracion_filas :
  Qle_bool total 0 = false ->
  map SALDO_CLIENTE_TOTAL (_calcular_concentracion saldos) = map snd por_cliente
  /\ map PCT_DEL_TOTAL (_calcular_concentracion saldos) = pct
  /\ map PCT_ACUMULADO (_calcular_concentracion saldos) = map (round 2) (cumsum 0 pct).
Proof.
  intros H. unfold _calcular_concentracion. fold por_cliente. fold total.
  rewrite H. fold pct.
  assert (L1 : length por_cliente = length pct) by (unfold pct; rewrite length_map; reflexivity).
  assert (L2 : length (combine por_cliente pct) = length (map (round 2) (cumsum 0 pct))).
  { rewrite length_combine, length_map, length_cumsum. lia. }
  rewrite !map_map. simpl. repeat split.
  - rewrite <- (map_map (fun t => t.1.1) snd), <- (map_map fst fst).
    rewrite (map_fst_combine _ _ L2), (map_fst_combine _ _ L1). reflexivity.
  - rewrite <- (map_map fst snd).
    rewrite (map_fst_combine _ _ L2), (map_snd_combine _ _ L1). reflexivity.
  - apply (map_snd_combine _ _ L2).
Qed.

Lemma total_positivo : Qle_bool total 0 = false -> 0 < total.
Proof.
  intros H. apply Qnot_le_lt. intros L. apply Qle_bool_iff in L. congruence.
Qed.

Lemma pct_es_round : pct = map (round 2) exacto.
Proof. unfold pct, exacto. rewrite map_map. reflexivity. Qed.

Lemma exacto_suma : 0 < total -> suma exacto == 100.
Proof.
  intros H. unfold exacto. rewrite suma_porcentajes by lra.
  fold total. field. lra.
Qed.

Lemma pct_decimales : Forall (decimales 2) pct.
Proof. unfold pct. apply Forall_map, Forall_forall. intros p _. apply round_decimales. Qed.


End Concentracion.

(** ** Sorting and running balance *)

Section SaldoCliente.

Lemma insertar_perm {A} (le : A -> A -> bool) x l :
  Permutation (insertar le x l) (x :: l).
Proof.
  induction l as [|y l IH]; simpl; [reflexivity|].
  destruct (le x y); [reflexivity|].
  rewrite IH. apply perm_swap.
Qed.

Lemma sort_values_perm {A} (le : A -> A -> bool) l :
  Permutation (sort_values le l) l.
Proof.
  induction l as [|x l IH]; simpl; [reflexivity|].
  rewrite insertar_perm. constructor. exact IH.
Qed.

Lemma suma_perm l1 l2 : Permutation l1 l2 -> suma l1 == suma l2.
Proof.
  induction 1; simpl; try reflexivity.
  - rewrite IHPermutation. reflexivity.
  - ring.
  - etransitivity; eassumption.
Qed.

Lemma filter_perm {A} (f : A -> bool) l1 l2 :
  Permutation l1 l2 -> Permutation (List.filter f l1) (List.filter f l2).
Proof.
  induction 1; simpl; try reflexivity.
  - destruct (f x); [constructor|]; assumption.
  - destruct (f x), (f y); try reflexivity. apply perm_swap.
  - etransitivity; eassumption.
Qed.


Lemma cumsum_por_cliente_clave acum l :
  map clave (cumsum_por_cliente acum l) = map clave l.
Proof.
  revert acum. induction l as [|r l IH]; intros acum; simpl; [reflexivity|].
  destruct (NOMBRE_CLIENTE (mov r)); simpl; rewrite IH; reflexivity.
Qed.

Lemma filas_de_clave c l :
  map clave (filas_de c l) = List.filter (fun k => es_de c k.1) (map clave l).
Proof.
  unfold filas_de. induction l as [|r l IH]; simpl; [reflexivity|].
  destruct (es_de c (mov r)); simpl; rewrite IH; reflexivity.
Qed.

Lemma filas_de_cumsum_vacia c acum l :
  filas_de c (cumsum_por_cliente acum l) = [] -> filas_de c l = [].
Proof.
  intros H. apply (f_equal (map clave)) in H.
  rewrite filas_de_clave, cumsum_por_cliente_clave, <- filas_de_clave in H.
  destruct (filas_de c l); [reflexivity|discriminate].
Qed.

Lemma filas_de_cons c x l :
  filas_de c (x :: l) = if es_de c (mov x) then x :: filas_de c l else filas_de c l.
Proof. reflexivity. Qed.

(** The running balance on the last row of a client is the rounded total
    of the client's signed movements (plus what the accumulator held). *)
Lemma cumsum_por_cliente_ultimo c l : forall acum r,
  last (filas_de c (cumsum_por_cliente acum l)) = Some r ->
  exists s, SALDO_CLIENTE r = Some s
            /\ s == round 2 (default 0 (acum !! c)
                             + suma (map (fun x => movimiento (mov x)) (filas_de c l))).
Proof.
  induction l as [|x l IH]; intros acum r; [discriminate|].
  cbn [cumsum_por_cliente].
  destruct (NOMBRE_CLIENTE (mov x)) as [c'|] eqn:En.
  - destruct (decide (c' = c)) as [->|Hne].
    + assert (Hx : es_de c (mov x) = true).
      { unfold es_de. rewrite En. apply bool_decide_eq_true_2. reflexivity. }
      rewrite !filas_de_cons. cbn [mov con_saldo_cliente]. rewrite Hx.
      set (acum' := <[c:=default 0 (acum !! c) + movimiento (mov x)]> acum).
      destruct (filas_de c (cumsum_por_cliente acum' l)) as [|y ys] eqn:Ef.
      * intros [= <-]. apply filas_de_cumsum_vacia in Ef. rewrite Ef.
        eexists. split; [reflexivity|]. apply round_comp. simpl. ring.
      * rewrite last_cons_cons, <- Ef. intros Hl.
        destruct (IH _ _ Hl) as (s & Hs & Es). exists s. split; [exact Hs|].
        rewrite Es. unfold acum'. rewrite lookup_insert_eq.
        apply round_comp. simpl. ring.
    + assert (Hx : es_de c (mov x) = false).
      { unfold es_de. rewrite En. apply bool_decide_eq_false_2. congruence. }
      rewrite !filas_de_cons. cbn [mov con_saldo_cliente]. rewrite Hx.
      intros Hl. destruct (IH _ _ Hl) as (s & Hs & Es). exists s. split; [exact Hs|].
      rewrite Es, lookup_insert_ne by exact Hne. reflexivity.
  - assert (Hx : es_de c (mov x) = false).
    { unfold es_de. rewrite En. apply bool_decide_eq_false_2. congruence. }
    rewrite !filas_de_cons. cbn [mov con_saldo_cliente]. rewrite Hx.
    apply IH.
Qed.

Lemma suma_cons x l : suma (x :: l) = x + suma l.
Proof. reflexivity. Qed.

Lemma suma_map_filter {A} (f : A -> Q) (h : A -> bool) l :
  suma (map f (List.filter h l)) == suma (map (fun x => if h x then f x else 0) l).
Proof.
  induction l as [|x l IH]; [reflexivity|].
  cbn [List.filter map]. destruct (h x); cbn [map]; rewrite !suma_cons, IH; ring.
Qed.

Lemma suma_map_plus {A} (f g : A -> Q) l :
  suma (map (fun x => f x + g x) l) == suma (map f l) + suma (map g l).
Proof.
  induction l as [|x l IH]; [simpl; ring|].
  cbn [map]. rewrite !suma_cons, IH. ring.
Qed.

Lemma suma_map_minus {A} (f g : A -> Q) l :
  suma (map (fun x => f x - g x) l) == suma (map f l) - suma (map g l).
Proof.
  induction l as [|x l IH]; [simpl; ring|].
  cbn [map]. rewrite !suma_cons, IH. ring.
Qed.

Lemma suma_map_cero {A} (l : list A) : suma (map (fun _ => 0) l) == 0.
Proof. induction l as [|x l IH]; [reflexivity|]. cbn [map]. rewrite suma_cons, IH. ring. Qed.

Lemma suma_map_ext_in {A} (f g : A -> Q) l :
  (forall x, In x l -> f x == g x) -> suma (map f l) == suma (map g l).
Proof.
  induction l as [|x l IH]; intros H; [reflexivity|].
  cbn [map]. rewrite !suma_cons, (H x) by (left; reflexivity).
  rewrite IH; [reflexivity|]. intros y Hy. apply H. right. exact Hy.
Qed.

Lemma suma_intercambio {A B} (F : B -> A -> Q) (L : list A) (P : list B) :
  suma (map (fun c => suma (map (fun p => F p c) P)) L)
  == suma (map (fun p => suma (map (F p) L)) P).
Proof.
  induction L as [|c L IH].
  - simpl. rewrite suma_map_cero. reflexivity.
  - cbn [map]. rewrite suma_cons, IH.
    rewrite <- suma_map_plus. apply suma_map_ext_in. intros p _.
    rewrite suma_cons. reflexivity.
Qed.

Lemma peso_por_cuenta {A} (h : A -> bool) (k : Q) (L : list A) :
  suma (map (fun c => if h c then k else 0) L)
  == k * inject_Z (Z.of_nat (length (List.filter h L))).
Proof.
  induction L as [|c L IH]; [simpl; ring|].
  cbn [map List.filter]. rewrite suma_cons, IH.
  destruct (h c); [|ring].
  cbn [length]. rewrite Nat2Z.inj_succ. unfold Z.succ. rewrite inject_Z_plus.
  change (inject_Z 1) with 1. ring.
Qed.

(** Double counting: summing, for each [c] of [L], the weights of the
    [p] of [P] related to it, is summing each weight as many times as
    [p] has relatives in [L]. *)
Lemma suma_doble {A B} (w : B -> Q) (g : B -> A -> bool) (L : list A) (P : list B) :
  suma (map (fun c => suma (map w (List.filter (fun p => g p c) P))) L)
  == suma (map (fun p => w p * inject_Z (Z.of_nat (length (List.filter (g p) L)))) P).
Proof.
  transitivity (suma (map (fun c => suma (map (fun p => if g p c then w p else 0) P)) L)).
  { apply suma_map_ext_in. intros c _. apply suma_map_filter. }
  rewrite suma_intercambio. apply suma_map_ext_in. intros p _.
  apply peso_por_cuenta.
Qed.

Lemma filter_filter {A} (f g : A -> bool) l :
  List.filter g (List.filter f l) = List.filter (fun x => f x && g x) l.
Proof.
  induction l as [|x l IH]; simpl; [reflexivity|].
  destruct (f x); simpl; [destruct (g x)|]; rewrite IH; reflexivity.
Qed.

Lemma cargo_no_abono {N} (f : fila N) : es_cargo f = true -> es_abono f = false.
Proof.
  unfold es_cargo, es_abono. intros H. apply String.eqb_eq in H. rewrite H. reflexivity.
Qed.

Lemma filter_length_ext {A} (f g : A -> bool) l :
  (forall x, f x = g x) -> length (List.filter f l) = length (List.filter g l).
Proof. intros H. rewrite (filter_ext f g H). reflexivity. Qed.

Lemma filter_nada {A} (f : A -> bool) l :
  (forall x, f x = false) -> List.filter f l = [].
Proof.
  intros H. induction l as [|x l IH]; [reflexivity|].
  simpl. rewrite H. exact IH.
Qed.

Lemma movimiento_decimales d f : decimales d (_MONTO f) -> decimales d (movimiento f).
Proof.
  intros H. unfold movimiento.
  destruct (es_cargo f); [exact H|].
  destruct (es_abono f); [apply decimales_opp, H|apply decimales_0].
Qed.

Section Conciliacion.

Variable df : DataFrame Q.
Variable c : string.
Hypothesis Hbien : bien_vinculado df c.

Let cargos_c : list (fila Q) :=
  List.filter (fun f => es_de c f && es_cargo f) (rows df).

Lemma abono_vinculado_es_del_cliente ch p :
  In ch cargos_c -> In p (abonos_vinculados df ch) -> es_de c p = true.
Proof.
  intros Hch Hp. destruct Hbien as [_ H2].
  apply filter_In in Hch as [Hch1 Hch2]. apply andb_true_iff in Hch2 as [Hc1 Hc2].
  apply filter_In in Hp as [Hp1 Hp2]. apply andb_true_iff in Hp2 as [Ha Hr].
  pose proof (H2 p Hp1 Ha) as Hn.
  destruct (es_de c p); [reflexivity|]. exfalso.
  assert (Hin : In ch (List.filter
            (fun ch => es_cargo ch && es_de c ch && referencia (columns df) p ch)
            (rows df))).
  { apply filter_In. split; [exact Hch1|]. rewrite Hc1, Hc2, Hr. reflexivity. }
  apply length_zero_iff_nil in Hn. rewrite Hn in Hin. exact Hin.
Qed.

Lemma saldo_esperado_exacto ch :
  In ch cargos_c ->
  saldo_esperado df ch == _MONTO ch - suma (map _MONTO (abonos_vinculados df ch)).
Proof.
  intros Hch. unfold saldo_esperado. apply round_id.
  destruct Hbien as [H1 _].
  pose proof Hch as Hch'. apply filter_In in Hch' as [Hin Hc].
  apply andb_true_iff in Hc as [Hc _].
  apply decimales_minus; [apply H1; assumption|].
  apply decimales_suma, Forall_map, Forall_forall. intros p Hp.
  apply list_elem_of_In in Hp.
  apply H1.
  - apply filter_In in Hp as [Hp _]. exact Hp.
  - apply (abono_vinculado_es_del_cliente ch p Hch Hp).
Qed.

Lemma cuenta_vinculos p :
  In p (rows df) ->
  length (List.filter (fun ch => es_abono p && referencia (columns df) p ch) cargos_c)
  = if es_abono p && es_de c p then 1%nat else 0%nat.
Proof.
  intros Hp. unfold cargos_c. rewrite filter_filter.
  destruct (es_abono p) eqn:Ea.
  - destruct Hbien as [_ H2]. cbn [andb]. rewrite <- (H2 p Hp Ea).
    apply filter_length_ext. intros ch. simpl.
    destruct (es_de c ch), (es_cargo ch); reflexivity.
  - rewrite filter_nada; [reflexivity|]. intros ch. simpl.
    apply andb_false_r.
Qed.

Lemma abonos_de_los_cargos :
  suma (map (fun ch => suma (map _MONTO (abonos_vinculados df ch))) cargos_c)
  == suma (map _MONTO (List.filter (fun p => es_abono p && es_de c p) (rows df))).
Proof.
  unfold abonos_vinculados.
  rewrite (suma_doble _MONTO (fun p ch => es_abono p && referencia (columns df) p ch)).
  rewrite suma_map_filter. apply suma_map_ext_in. intros p Hp.
  rewrite (cuenta_vinculos p Hp).
  destruct (es_abono p && es_de c p); simpl.
  - change (inject_Z 1) with 1. ring.
  - change (inject_Z 0) with 0. ring.
Qed.

Lemma movimientos_del_cliente :
  suma (map movimiento (List.filter (es_de c) (rows df)))
  == suma (map _MONTO cargos_c)
     - suma (map _MONTO (List.filter (fun p => es_abono p && es_de c p) (rows df))).
Proof.
  unfold cargos_c. rewrite !suma_map_filter, <- suma_map_minus.
  apply suma_map_ext_in. intros f _. unfold movimiento.
  destruct (es_de c f); simpl.
  - destruct (es_cargo f) eqn:Ec.
    + rewrite (cargo_no_abono f Ec). simpl. ring.
    + destruct (es_abono f); simpl; ring.
  - rewrite andb_false_r. ring.
Qed.

(** Under the linkage hypothesis, the invoice balances of the client add
    up to the total of its signed movements, and that total has two
    decimals. *)
Lemma conciliacion_algebra :
  suma (map (saldo_esperado df) cargos_c)
  == suma (map movimiento (List.filter (es_de c) (rows df)))
  /\ decimales 2 (suma (map movimiento (List.filter (es_de c) (rows df)))).
Proof.
  split.
  - rewrite movimientos_del_cliente, <- abonos_de_los_cargos, <- suma_map_minus.
    apply suma_map_ext_in. intros ch Hch. apply saldo_esperado_exacto, Hch.
  - destruct Hbien as [H1 _].
    apply decimales_suma, Forall_map, Forall_forall. intros f Hf.
    apply list_elem_of_In, filter_In in Hf as [Hin Hc].
    apply movimiento_decimales, H1; assumption.
Qed.

End Conciliacion.


Lemma suma_saldos_factura_clave c l :
  suma_saldos_factura c l = saldos_en c (map clave l).
Proof.
  unfold suma_saldos_factura, saldos_en, suma_validos. rewrite <- filas_de_clave.
  f_equal. induction (filas_de c l) as [|r k IH]; [reflexivity|].
  cbn [map omap list_omap clave snd]. destruct (SALDO_FACTURA r); rewrite IH; reflexivity.
Qed.

Lemma movimientos_clave c l :
  suma (map (fun x => movimiento (mov x)) (filas_de c l)) = movimientos_en c (map clave l).
Proof.
  unfold movimientos_en. rewrite <- filas_de_clave, map_map. reflexivity.
Qed.

Lemma saldos_en_perm c K K' : Permutation K K' -> saldos_en c K == saldos_en c K'.
Proof.
  intros H. unfold saldos_en. apply suma_perm.
  apply omap_Permutation, filter_perm, H.
Qed.

Lemma movimientos_en_perm c K K' :
  Permutation K K' -> movimientos_en c K == movimientos_en c K'.
Proof.
  intros H. unfold movimientos_en. apply suma_perm.
  apply Permutation_map, filter_perm, H.
Qed.

Lemma metricas_ciclo_clave hoy rep :
  map clave (r_rows (_calcular_metricas_ciclo hoy rep)) = map clave (r_rows rep).
Proof.
  unfold _calcular_metricas_ciclo. cbn [r_rows].
  set (l1 := if _ && _ && _ then _ else r_rows rep).
  assert (E1 : map clave l1 = map clave (r_rows rep)).
  { unfold l1. destruct (_ && _ && _); [|reflexivity].
    rewrite map_map. apply map_ext. intros r. destruct (pagada r); reflexivity. }
  rewrite <- E1. destruct (existsb abierta l1); [|reflexivity].
  rewrite map_map. apply map_ext. intros r. destruct (abierta r); reflexivity.
Qed.

Lemma saldo_cliente_filas rep :
  r_rows (_calcular_saldo_cliente rep)
  = cumsum_por_cliente ∅
      (sort_values
         (fun a b => no_mayor (cmp_saldo_cliente (r_columns rep) (mov a) (mov b)))
         (r_rows rep)).
Proof. reflexivity. Qed.

Lemma saldo_cliente_clave rep :
  Permutation (map clave (r_rows (_calcular_saldo_cliente rep))) (map clave (r_rows rep)).
Proof.
  rewrite saldo_cliente_filas, cumsum_por_cliente_clave.
  apply Permutation_map, sort_values_perm.
Qed.

Lemma saldo_factura_clave (df : DataFrame Q) :
  exists g : fila Q -> option Q,
    map clave (r_rows (_calcular_saldo_factura df).1) = map (fun f => (f, g f)) (rows df)
    /\ forall f, if es_cargo f
                 then exists s, g f = Some s /\ s == saldo_esperado df f
                 else g f = None.
Proof.
  unfold _calcular_saldo_factura, saldo_esperado.
  destruct (col_DOCTO_CC_ACR_ID (columns df) && col_DOCTO_CC_ID (columns df)) eqn:Hc;
    cbn [fst r_rows]; eexists; (split; [rewrite map_map; reflexivity|]);
    intros f; cbn beta; destruct (es_cargo f); try reflexivity;
    eexists; split; try reflexivity.
  - rewrite (map_fillna0_vinculados df f Hc). reflexivity.
  - rewrite (sin_columnas_sin_vinculados df f Hc). apply round_comp. simpl. ring.
Qed.

Lemma saldos_en_inicial (df : DataFrame Q) (c : string) (g : fila Q -> option Q) l :
  (forall f, if es_cargo f
             then exists s, g f = Some s /\ s == saldo_esperado df f
             else g f = None) ->
  saldos_en c (map (fun f => (f, g f)) l)
  == suma (map (saldo_esperado df) (List.filter (fun f => es_de c f && es_cargo f) l)).
Proof.
  intros Hg. unfold saldos_en. induction l as [|f l IH]; [reflexivity|].
  cbn [map List.filter fst]. specialize (Hg f).
  destruct (es_de c f); cbn [andb]; [|exact IH].
  destruct (es_cargo f).
  - destruct Hg as (s & Hs & Es). cbn [omap list_omap snd map]. rewrite Hs.
    rewrite !suma_cons, IH, Es. reflexivity.
  - cbn [omap list_omap snd]. rewrite Hg. exact IH.
Qed.

Lemma movimientos_en_inicial (c : string) (g : fila Q -> option Q) l :
  movimientos_en c (map (fun f => (f, g f)) l)
  = suma (map movimiento (List.filter (es_de c) l)).
Proof.
  unfold movimientos_en. f_equal.
  induction l as [|f l IH]; [reflexivity|].
  cbn [map List.filter fst]. destruct (es_de c f); cbn [map fst]; rewrite IH; reflexivity.
Qed.

(** C2 (as the code has it). After the deterministic sort of
    [_calcular_saldo_cliente], the running balance on the last row of a
    client equals the sum of that client's invoice balances, provided the
    client's ledger is closed under linkage ([bien_vinculado]): amounts
    with two decimals, each payment of the client linked to exactly one of
    its charges, no payment of another client linked to them. *)
Theorem C2_conciliacion (hoy : Z) (df : DataFrame Q) (c : string) :
  let activos := _filtrar_movimientos df in
  let rep := r_rows (df_filtrado hoy df) in
  bien_vinculado activos c ->
  forall r, last (filas_de c rep) = Some r ->
  exists s, SALDO_CLIENTE r = Some s /\ s == suma_saldos_factura c rep.
Proof.
  intros activos rep Hbien r Hr.
  destruct (saldo_factura_clave activos) as (g & Eg & Hg).
  set (R1 := (_calcular_saldo_factura activos).1) in *.
  set (R2 := _calcular_metricas_ciclo hoy R1).
  assert (Erep : rep = r_rows (_calcular_saldo_cliente R2)) by reflexivity.
  assert (EK : Permutation (map clave rep) (map (fun f => (f, g f)) (rows activos))).
  { rewrite Erep, saldo_cliente_clave. unfold R2.
    rewrite metricas_ciclo_clave, Eg. reflexivity. }
  destruct (conciliacion_algebra activos c Hbien) as [Halg Hdec].
  assert (Hsal : suma_saldos_factura c rep
                 == suma (map movimiento (List.filter (es_de c) (rows activos)))).
  { rewrite suma_saldos_factura_clave, (saldos_en_perm c _ _ EK).
    rewrite (saldos_en_inicial activos c g _ Hg). exact Halg. }
  rewrite Erep, saldo_cliente_filas in Hr.
  destruct (cumsum_por_cliente_ultimo c _ _ _ Hr) as (s & Hs & Es).
  exists s. split; [exact Hs|].
  rewrite Es, Hsal, lookup_empty. cbn [default].
  rewrite movimientos_clave.
  assert (EK2 : Permutation
                  (map clave (sort_values
                     (fun a b => no_mayor (cmp_saldo_cliente (r_columns R2) (mov a) (mov b)))
                     (r_rows R2)))
                  (map (fun f => (f, g f)) (rows activos))).
  { rewrite (Permutation_map clave (sort_values_perm _ (r_rows R2))).
    unfold R2. rewrite metricas_ciclo_clave, Eg. reflexivity. }
  rewrite (movimientos_en_perm c _ _ EK2), movimientos_en_inicial, Qplus_0_l.
  apply round_id, Hdec.
Qed.

Lemma bien_vinculado_b_ok df c : bien_vinculado_b df c = true -> bien_vinculado df c.
Proof.
  unfold bien_vinculado_b. rewrite andb_true_iff, !forallb_forall. intros [H1 H2]. split.
  - intros f Hin Hc. specialize (H1 f Hin). rewrite Hc in H1. simpl in H1.
    apply Qeq_bool_iff in H1. rewrite <- H1. apply round_decimales.
  - intros p Hin Ha. specialize (H2 p Hin). rewrite Ha in H2. simpl in H2.
    apply Nat.eqb_eq in H2. exact H2.
Qed.

End SaldoCliente.

(** ** Views *)

Section Vistas.

Lemma bandas_base cols previo cuenta l : map base (bandas cols previo cuenta l) = l.
Proof.
  revert previo cuenta. induction l as [|r l IH]; intros previo cuenta; [reflexivity|].
  cbn [bandas map base]. rewrite IH. reflexivity.
Qed.

Lemma agregar_bandas_perm cols l :
  Permutation (map base (agregar_bandas_grupo cols l)) l.
Proof.
  unfold agregar_bandas_grupo. destruct (negb (col_DOCTO_CC_ID cols)).
  - rewrite map_map. cbn [base]. rewrite map_id. reflexivity.
  - rewrite bandas_base. apply sort_values_perm.
Qed.

Lemma agregar_zscores_base umbral l :
  map (fun t => base (fila_b t)) (_agregar_zscores umbral l) = map base l.
Proof. unfold _agregar_zscores. rewrite map_map. reflexivity. Qed.

Lemma en_abiertas rep r :
  In r (map base (_extraer_facturas_abiertas rep)) ->
  abierta r = true \/ es_abono (mov r) = true.
Proof.
  unfold _extraer_facturas_abiertas.
  destruct (List.filter abierta (r_rows rep)) as [|x xs] eqn:E; [intros []|].
  rewrite <- E. intros H.
  apply (Permutation_in _ (agregar_bandas_perm _ _)) in H.
  apply in_app_or in H as [H|H].
  - left. apply filter_In in H as [_ H]. exact H.
  - right. unfold abonos_de in H. destruct (_ && _); [|destruct H].
    apply filter_In in H as [_ H]. apply andb_true_iff in H as [H _]. exact H.
Qed.

Lemma en_cerradas rep r :
  In r (map base (_extraer_facturas_cerradas rep)) ->
  pagada r = true \/ es_abono (mov r) = true.
Proof.
  unfold _extraer_facturas_cerradas.
  destruct (List.filter pagada (r_rows rep)) as [|x xs] eqn:E; [intros []|].
  rewrite <- E. intros H.
  apply (Permutation_in _ (agregar_bandas_perm _ _)) in H.
  apply in_app_or in H as [H|H].
  - left. apply filter_In in H as [_ H]. exact H.
  - right. unfold abonos_de in H. destruct (_ && _); [|destruct H].
    apply filter_In in H as [_ H]. apply andb_true_iff in H as [H _]. exact H.
Qed.


Lemma saldo_factura_sin_ciclo df :
  Forall sin_ciclo (r_rows (_calcular_saldo_factura df).1).
Proof.
  unfold _calcular_saldo_factura. destruct (_ && _); cbn [fst r_rows];
    apply Forall_map, Forall_forall; intros f _; repeat split.
Qed.

Lemma pagada_con_mora r d : pagada (con_mora r d) = pagada r.
Proof. reflexivity. Qed.

Lemma abierta_con_recaudo r d : abierta (con_recaudo r d) = abierta r.
Proof. reflexivity. Qed.

(** [_calcular_metricas_ciclo] only writes on paid and on open charges. *)
Lemma metricas_ciclo_sin_ciclo hoy rep :
  Forall sin_ciclo (r_rows rep) ->
  Forall (fun r => pagada r = false -> abierta r = false -> sin_ciclo r)
         (r_rows (_calcular_metricas_ciclo hoy rep)).
Proof.
  intros H. unfold _calcular_metricas_ciclo. cbn [r_rows].
  set (l1 := if _ && _ && _ then _ else r_rows rep).
  assert (H1 : Forall (fun r => pagada r = false -> sin_ciclo r) l1).
  { unfold l1. destruct (_ && _ && _).
    - apply Forall_map. eapply List.Forall_impl; [|exact H]. intros r Hr.
      destruct (pagada r) eqn:Ep; [intros Hp; cbn in Hp|intros _; exact Hr].
      unfold pagada in Ep, Hp. cbn [mov SALDO_FACTURA con_recaudo] in Hp. congruence.
    - eapply List.Forall_impl; [|exact H]. intros r Hr _. exact Hr. }
  destruct (existsb abierta l1).
  - apply Forall_map. eapply List.Forall_impl; [|exact H1]. intros r Hr.
    destruct (abierta r) eqn:Ea.
    + intros _ Ha. unfold abierta in Ea, Ha. cbn [mov SALDO_FACTURA con_mora] in Ha.
      congruence.
    + intros Hp _. apply Hr, Hp.
  - eapply List.Forall_impl; [|exact H1]. intros r Hr Hp _. apply Hr, Hp.
Qed.

Lemma cumsum_por_cliente_conserva (P : fila_rep -> Prop) acum l :
  (forall r s, P r -> P (con_saldo_cliente r s)) ->
  Forall P l -> Forall P (cumsum_por_cliente acum l).
Proof.
  intros HP H. revert acum. induction H as [|r l Hr _ IH]; intros acum; [constructor|].
  cbn [cumsum_por_cliente]. destruct (NOMBRE_CLIENTE (mov r)); constructor; auto.
Qed.

Lemma Forall_perm {A} (P : A -> Prop) l l' :
  Permutation l l' -> Forall P l -> Forall P l'.
Proof.
  intros Hp H. apply List.Forall_forall. intros x Hx.
  apply Permutation_sym in Hp. apply (Permutation_in _ Hp) in Hx.
  revert x Hx. apply List.Forall_forall. exact H.
Qed.

Lemma df_filtrado_sin_ciclo hoy df :
  Forall (fun r => pagada r = false -> abierta r = false -> sin_ciclo r)
         (r_rows (df_filtrado hoy df)).
Proof.
  unfold df_filtrado. rewrite saldo_cliente_filas.
  apply cumsum_por_cliente_conserva; [intros r s H; exact H|].
  eapply Forall_perm; [apply Permutation_sym, sort_values_perm|].
  apply metricas_ciclo_sin_ciclo, saldo_factura_sin_ciclo.
Qed.

Lemma negativo_ni_pagada_ni_abierta r s :
  SALDO_FACTURA r = Some s -> s < 0 -> pagada r = false /\ abierta r = false.
Proof.
  intros Hs Hneg. unfold pagada, abierta. rewrite Hs. split; apply andb_false_iff; right.
  - apply not_true_iff_false. intros H. apply Qeq_bool_iff in H. lra.
  - apply not_true_iff_false. intros H. apply Qlt_bool_iff in H. lra.
Qed.

(** C8 (as the code has it). A charge whose computed balance is negative
    keeps that negative balance, unclamped, in the full views
    ([reporte_cxc], [movimientos_totales_cxc]); it is in neither the open
    view (balance > 0) nor the closed view (balance == 0), and its cycle
    columns (deltas and categories) stay empty. *)
Theorem C8_saldo_negativo (hoy : Z) (df_crudo : DataFrame (option Q))
        (r : fila_rep) (s : Q) :
  let v := generar_reporte_cxc hoy df_crudo in
  In r (r_rows (df_filtrado hoy (_preparar df_crudo))) ->
  es_cargo (mov r) = true ->
  SALDO_FACTURA r = Some s ->
  s < 0 ->
  In r (map base (reporte_cxc v))
  /\ In r (map (fun t => base (fila_b t)) (movimientos_totales_cxc v))
  /\ ~ In r (map base (movimientos_abiertos_cxc v))
  /\ ~ In r (map base (movimientos_cerrados_cxc v))
  /\ DELTA_RECAUDO r = None /\ CATEGORIA_RECAUDO r = ""
  /\ DELTA_MORA r = None /\ CATEGORIA_MORA r = "".
Proof.
  intros v Hin Hc Hs Hneg.
  destruct (negativo_ni_pagada_ni_abierta r s Hs Hneg) as [Hp Ha].
  assert (Hrep : In r (map base (reporte_cxc v))).
  { cbn [v generar_reporte_cxc reporte_cxc].
    eapply Permutation_in; [apply Permutation_sym, agregar_bandas_perm|]. exact Hin. }
  split; [exact Hrep|]. split; [|split; [|split]].
  - cbn [v generar_reporte_cxc movimientos_totales_cxc].
    rewrite agregar_zscores_base. exact Hrep.
  - intros H. apply en_abiertas in H as [H|H]; [congruence|].
    rewrite (cargo_no_abono _ Hc) in H. discriminate.
  - intros H. apply en_cerradas in H as [H|H]; [congruence|].
    rewrite (cargo_no_abono _ Hc) in H. discriminate.
  - pose proof (df_filtrado_sin_ciclo hoy (_preparar df_crudo)) as HF.
    rewrite List.Forall_forall in HF. exact (HF r Hin Hp Ha).
Qed.

End Vistas.

(** ** Cancelled rows *)

Section Cancelados.

Lemma filter_map_comm {A B} (f : A -> B) (h : B -> bool) l :
  List.filter h (map f l) = map f (List.filter (fun x => h (f x)) l).
Proof.
  induction l as [|x l IH]; [reflexivity|].
  cbn [map List.filter]. destruct (h (f x)); cbn [map]; rewrite IH; reflexivity.
Qed.

Lemma filter_todo {A} (f : A -> bool) l :
  (forall x, f x = true) -> List.filter f l = l.
Proof.
  intros H. induction l as [|x l IH]; [reflexivity|].
  cbn [List.filter]. rewrite H, IH. reflexivity.
Qed.

Lemma preparar_sin_cancelados df :
  _preparar (sin_cancelados df) = sin_cancelados (_preparar df).
Proof.
  unfold _preparar, sin_cancelados, loc, marcada_cancelada. cbn [columns rows].
  f_equal. rewrite filter_map_comm. reflexivity.
Qed.

Lemma preparar_datos_sin_cancelados df :
  _preparar_datos (sin_cancelados df) = sin_cancelados (_preparar_datos df).
Proof.
  unfold _preparar_datos, sin_cancelados, loc, marcada_cancelada. cbn [columns rows].
  f_equal. rewrite filter_map_comm. reflexivity.
Qed.

Lemma filtrar_sin_cancelados {N} (df : DataFrame N) :
  _filtrar_movimientos (sin_cancelados df) = _filtrar_movimientos df.
Proof.
  unfold _filtrar_movimientos, sin_cancelados, loc, marcada_cancelada.
  cbn [columns rows]. destruct (col_CANCELADO (columns df)); cbn [columns rows andb].
  - rewrite (filter_filter _ _ (rows df)).
    f_equal. f_equal. apply filter_ext. intros f. apply andb_diag.
  - rewrite (filter_todo (fun _ => negb false)); reflexivity.
Qed.

Lemma por_acreditar_sin_cancelados (df : DataFrame Q) :
  _obtener_por_acreditar (sin_cancelados df) = _obtener_por_acreditar df.
Proof.
  unfold _obtener_por_acreditar, sin_cancelados, loc, marcada_cancelada.
  cbn [columns rows]. destruct (col_CANCELADO (columns df)); cbn [columns rows andb].
  - rewrite !filter_filter. apply filter_ext. intros f.
    destruct (negb (_CANCELADO_VALUES (CANCELADO f))), (String.eqb (TIPO_IMPTE f) "A");
      reflexivity.
  - rewrite (filter_todo (fun _ => negb false)); reflexivity.
Qed.

Lemma reporte_sin_cancelados hoy df :
  generar_reporte_cxc hoy (sin_cancelados df) = generar_reporte_cxc hoy df.
Proof.
  unfold generar_reporte_cxc, df_filtrado.
  rewrite preparar_sin_cancelados, filtrar_sin_cancelados, por_acreditar_sin_cancelados.
  reflexivity.
Qed.

Lemma kpis_sin_cancelados hoy df dias :
  generar_kpis hoy (sin_cancelados df) dias = generar_kpis hoy df dias.
Proof.
  unfold generar_kpis. rewrite preparar_sin_cancelados.
  change (@_filtrar_activos Q) with (@_filtrar_movimientos Q).
  rewrite filtrar_sin_cancelados. reflexivity.
Qed.


End Cancelados.

(** ** Missing linkage column *)

Lemma run_audit_sin_columna_acr cfg ahora df rep :
  run_audit cfg ahora (sin_columna_acr df) rep = run_audit cfg ahora df rep.
Proof. reflexivity. Qed.


(** ** Which amount each computation reads *)

Section Montos.

Lemma mismo_monto_campos (f f' : fila Q) :
  mismo_monto f f' ->
  es_cargo f = es_cargo f' /\ es_abono f = es_abono f'
  /\ NOMBRE_CLIENTE f = NOMBRE_CLIENTE f'
  /\ DOCTO_CC_ID f = DOCTO_CC_ID f' /\ DOCTO_CC_ACR_ID f = DOCTO_CC_ACR_ID f'
  /\ FECHA_EMISION f = FECHA_EMISION f' /\ FECHA_VENCIMIENTO f = FECHA_VENCIMIENTO f'.
Proof.
  intros [H _]. unfold es_cargo, es_abono.
  injection H as -> -> -> -> _ _ -> -> _ _. repeat split.
Qed.

Lemma mismo_monto_movimiento f f' : mismo_monto f f' -> movimiento f == movimiento f'.
Proof.
  intros H. destruct (mismo_monto_campos f f' H) as (Ec & Ea & _). destruct H as [_ Hm].
  unfold movimiento. rewrite Ec, Ea.
  destruct (es_cargo f'); [exact Hm|]. destruct (es_abono f'); [|reflexivity].
  rewrite Hm. reflexivity.
Qed.

Lemma filter_Forall2 {A} (R : A -> A -> Prop) (h h' : A -> bool) l l' :
  (forall x x', R x x' -> h x = h' x') ->
  Forall2 R l l' -> Forall2 R (List.filter h l) (List.filter h' l').
Proof.
  intros Hh H. induction H as [|x x' l l' Hx _ IH]; [constructor|].
  cbn [List.filter]. rewrite (Hh x x' Hx). destruct (h' x'); [constructor|]; assumption.
Qed.

Lemma suma_montos (l l' : list (fila Q)) :
  Forall2 mismo_monto l l' -> suma (map _MONTO l) == suma (map _MONTO l').
Proof.
  induction 1 as [|x x' l l' [_ Hx] _ IH]; [reflexivity|].
  cbn [map]. rewrite !suma_cons, Hx, IH. reflexivity.
Qed.

Lemma suma_montos_filter (h h' : fila Q -> bool) l l' :
  (forall x x', mismo_monto x x' -> h x = h' x') ->
  Forall2 mismo_monto l l' ->
  suma (map _MONTO (List.filter h l)) == suma (map _MONTO (List.filter h' l')).
Proof. intros Hh H. apply suma_montos, (filter_Forall2 _ h h'); assumption. Qed.

Lemma mismo_monto_referencia cols p p' ch ch' :
  mismo_monto p p' -> mismo_monto ch ch' ->
  es_abono p && referencia cols p ch = es_abono p' && referencia cols p' ch'.
Proof.
  intros Hp Hc.
  destruct (mismo_monto_campos p p' Hp) as (_ & Ea & _ & _ & Er & _).
  destruct (mismo_monto_campos ch ch' Hc) as (_ & _ & _ & Ei & _).
  unfold referencia. rewrite Ea, Er, Ei. reflexivity.
Qed.

Lemma saldo_esperado_monto df df' f f' :
  misma_tabla df df' -> mismo_monto f f' ->
  saldo_esperado df f == saldo_esperado df' f'.
Proof.
  intros [Hc Hr] Hf. unfold saldo_esperado, abonos_vinculados. apply round_comp.
  rewrite (proj2 Hf), <- Hc.
  rewrite (suma_montos_filter
             (fun p => es_abono p && referencia (columns df) p f)
             (fun p => es_abono p && referencia (columns df) p f') _ _
             (fun p p' Hp => mismo_monto_referencia _ p p' f f' Hp Hf) Hr).
  reflexivity.
Qed.

(** Invoice balances only read IMPORTE + IMPUESTO. *)
Lemma saldo_factura_monto df df' :
  misma_tabla df df' ->
  Forall2 opt_Qeq
    (map SALDO_FACTURA (r_rows (_calcular_saldo_factura df).1))
    (map SALDO_FACTURA (r_rows (_calcular_saldo_factura df').1)).
Proof.
  intros Ht.
  destruct (saldo_factura_clave df) as (g & Eg & Hg).
  destruct (saldo_factura_clave df') as (g' & Eg' & Hg').
  assert (E : forall l, map SALDO_FACTURA l = map snd (map clave l)).
  { intros l. rewrite map_map. reflexivity. }
  rewrite !E, Eg, Eg', !map_map. cbn [snd]. clear E Eg Eg'.
  destruct Ht as [Hc Hr]. pose proof (conj Hc Hr : misma_tabla df df') as Ht.
  induction Hr as [|f f' l l' Hf _ IH]; [constructor|].
  cbn [map]. constructor; [|exact IH].
  pose proof (saldo_esperado_monto df df' f f' Ht Hf) as Hs.
  destruct (mismo_monto_campos f f' Hf) as (Ec & _).
  specialize (Hg f). specialize (Hg' f'). rewrite Ec in Hg.
  destruct (es_cargo f').
  - destruct Hg as (s & -> & Es). destruct Hg' as (s' & -> & Es').
    cbn [opt_Qeq]. rewrite Es, Es'. exact Hs.
  - rewrite Hg, Hg'. exact I.
Qed.

Lemma insertar_Forall2 {A} (R : A -> A -> Prop) (le le' : A -> A -> bool) x x' l l' :
  (forall a a' b b', R a a' -> R b b' -> le a b = le' a' b') ->
  R x x' -> Forall2 R l l' -> Forall2 R (insertar le x l) (insertar le' x' l').
Proof.
  intros Hle Hx H. induction H as [|y y' l l' Hy Hl IH]; cbn [insertar].
  - repeat constructor. exact Hx.
  - rewrite (Hle x x' y y' Hx Hy). destruct (le' x' y'); repeat constructor; assumption.
Qed.

Lemma sort_values_Forall2 {A} (R : A -> A -> Prop) (le le' : A -> A -> bool) l l' :
  (forall a a' b b', R a a' -> R b b' -> le a b = le' a' b') ->
  Forall2 R l l' -> Forall2 R (sort_values le l) (sort_values le' l').
Proof.
  intros Hle H. induction H as [|x x' l l' Hx _ IH]; [constructor|].
  cbn [sort_values foldr]. apply insertar_Forall2; assumption.
Qed.

Lemma cumsum_por_cliente_monto l l' : forall acum acum',
  (forall c, default 0 (acum !! c) == default 0 (acum' !! c)) ->
  Forall2 (fun r r' => mismo_monto (mov r) (mov r')) l l' ->
  Forall2 opt_Qeq (map SALDO_CLIENTE (cumsum_por_cliente acum l))
                  (map SALDO_CLIENTE (cumsum_por_cliente acum' l')).
Proof.
  intros acum acum' Ha H. revert acum acum' Ha.
  induction H as [|r r' l l' Hr _ IH]; intros acum acum' Ha; [constructor|].
  cbn [cumsum_por_cliente].
  destruct (mismo_monto_campos _ _ Hr) as (_ & _ & En & _). rewrite En.
  pose proof (mismo_monto_movimiento _ _ Hr) as Hm.
  destruct (NOMBRE_CLIENTE (mov r')) as [c|]; cbn [map SALDO_CLIENTE con_saldo_cliente].
  - constructor.
    + cbn [opt_Qeq]. rewrite (Ha c), Hm. reflexivity.
    + apply IH. intros c0. destruct (decide (c = c0)) as [->|Hne].
      * rewrite !lookup_insert_eq. cbn [default]. rewrite (Ha c0), Hm. reflexivity.
      * rewrite !lookup_insert_ne by exact Hne. apply Ha.
  - constructor; [exact I|]. apply IH, Ha.
Qed.

(** Running balances only read IMPORTE + IMPUESTO. *)
Lemma saldo_cliente_monto rep rep' :
  mismo_reporte rep rep' ->
  Forall2 opt_Qeq
    (map SALDO_CLIENTE (r_rows (_calcular_saldo_cliente rep)))
    (map SALDO_CLIENTE (r_rows (_calcular_saldo_cliente rep'))).
Proof.
  intros [Hc Hr]. rewrite !saldo_cliente_filas.
  apply cumsum_por_cliente_monto; [reflexivity|].
  apply sort_values_Forall2; [|exact Hr].
  intros a a' b b' Ha Hb. rewrite <- Hc.
  destruct (mismo_monto_campos _ _ Ha) as (_ & _ & An & Ai & Ar & Ae & _).
  destruct (mismo_monto_campos _ _ Hb) as (_ & _ & Bn & Bi & Br & Be & _).
  unfold cmp_saldo_cliente. rewrite An, Ai, Ar, Ae, Bn, Bi, Br, Be. reflexivity.
Qed.

Lemma saldo_fila_esperado df f :
  round 2 (_MONTO f
           - (if col_DOCTO_CC_ACR_ID (columns df) && col_DOCTO_CC_ID (columns df)
              then map_fillna0 (abonos_por_cargo df) (DOCTO_CC_ID f)
              else 0))
  == saldo_esperado df f.
Proof.
  unfold saldo_esperado.
  destruct (col_DOCTO_CC_ACR_ID (columns df) && col_DOCTO_CC_ID (columns df)) eqn:Hc.
  - rewrite (map_fillna0_vinculados df f Hc). reflexivity.
  - rewrite (sin_columnas_sin_vinculados df f Hc). reflexivity.
Qed.

(** The per-invoice balances of the KPI module only read IMPORTE + IMPUESTO. *)
Lemma saldos_por_factura_monto df df' :
  misma_tabla df df' ->
  Forall2 (fun a b => SALDO a == SALDO b /\ mismo_monto (cargo a) (cargo b))
          (_saldos_por_factura df) (_saldos_por_factura df').
Proof.
  intros Ht. pose proof Ht as [Hc Hr]. unfold _saldos_por_factura.
  assert (Hf : Forall2 mismo_monto (List.filter es_cargo (rows df))
                       (List.filter es_cargo (rows df'))).
  { apply (filter_Forall2 _ es_cargo es_cargo); [|exact Hr].
    intros x x' Hx. apply (mismo_monto_campos x x' Hx). }
  induction Hf as [|f f' l l' Hff _ IH]; [constructor|].
  cbn [map]. constructor; [|exact IH]. cbn [SALDO cargo]. split; [|exact Hff].
  rewrite !saldo_fila_esperado. apply saldo_esperado_monto; assumption.
Qed.

Lemma suma_saldos_monto (s s' : list fila_saldo) :
  Forall2 (fun a b => SALDO a == SALDO b /\ mismo_monto (cargo a) (cargo b)) s s' ->
  suma (map SALDO s) == suma (map SALDO s').
Proof.
  induction 1 as [|a b l l' [Hab _] _ IH]; [reflexivity|].
  cbn [map]. rewrite !suma_cons, Hab, IH. reflexivity.
Qed.

Lemma en_periodo_monto ini hoy f f' :
  mismo_monto f f' -> en_periodo ini hoy f = en_periodo ini hoy f'.
Proof.
  intros H. destruct (mismo_monto_campos f f' H) as (_ & _ & _ & _ & _ & Ee & _).
  unfold en_periodo. rewrite Ee. reflexivity.
Qed.

Lemma dso_monto df df' s s' hoy ini dias :
  misma_tabla df df' ->
  Forall2 (fun a b => SALDO a == SALDO b /\ mismo_monto (cargo a) (cargo b)) s s' ->
  DSO_VALOR (_calcular_dso df s hoy ini dias)
  == DSO_VALOR (_calcular_dso df' s' hoy ini dias).
Proof.
  intros [_ Hr] Hs. unfold _calcular_dso. cbn [DSO_VALOR]. apply round_comp.
  assert (Ev : suma (map _MONTO (List.filter (fun f => es_cargo f && en_periodo ini hoy f) (rows df)))
               == suma (map _MONTO (List.filter (fun f => es_cargo f && en_periodo ini hoy f) (rows df')))).
  { apply suma_montos_filter; [|exact Hr]. intros x x' Hx.
    rewrite (en_periodo_monto ini hoy x x' Hx).
    rewrite (proj1 (mismo_monto_campos x x' Hx)). reflexivity. }
  rewrite (Qlt_bool_comp 0 0 (Qeq_refl 0) _ _ Ev).
  destruct (Qlt_bool 0 _); [|reflexivity].
  rewrite Ev, (suma_saldos_monto s s' Hs). reflexivity.
Qed.

Lemma cei_monto df df' hoy ini :
  misma_tabla df df' ->
  CEI_VALOR (_calcular_cei df hoy ini) == CEI_VALOR (_calcular_cei df' hoy ini).
Proof.
  intros [_ Hr].
  change (round 1 (cei (_calcular_cei df hoy ini))
          == round 1 (cei (_calcular_cei df' hoy ini))).
  apply round_comp. rewrite !cei_por_cobros. apply cei_de_comp.
  - cbn [saldo_actual _calcular_cei].
    rewrite (suma_montos_filter es_cargo es_cargo (rows df) (rows df')
               (fun x x' Hx => proj1 (mismo_monto_campos x x' Hx)) Hr).
    rewrite (suma_montos_filter es_abono es_abono (rows df) (rows df')
               (fun x x' Hx => proj1 (proj2 (mismo_monto_campos x x' Hx))) Hr).
    reflexivity.
  - cbn [cobros_periodo _calcular_cei].
    apply suma_montos_filter; [|exact Hr]. intros x x' Hx.
    rewrite (en_periodo_monto ini hoy x x' Hx).
    rewrite (proj1 (proj2 (mismo_monto_campos x x' Hx))). reflexivity.
Qed.

Lemma morosidad_monto s s' hoy :
  Forall2 (fun a b => SALDO a == SALDO b /\ mismo_monto (cargo a) (cargo b)) s s' ->
  MOROSIDAD_VALOR (_calcular_morosidad s hoy) == MOROSIDAD_VALOR (_calcular_morosidad s' hoy).
Proof.
  intros Hs. unfold _calcular_morosidad. cbn [MOROSIDAD_VALOR]. apply round_comp.
  pose proof (suma_saldos_monto s s' Hs) as Et.
  rewrite (Qlt_bool_comp 0 0 (Qeq_refl 0) _ _ Et).
  destruct (Qlt_bool 0 _); [|reflexivity].
  rewrite Et.
  set (h := fun x : fila_saldo => match FECHA_VENCIMIENTO (cargo x) with
                                   | Some v => (v <? hoy)%Z
                                   | None => false
                                   end).
  assert (Hv : Forall2 (fun a b => SALDO a == SALDO b /\ mismo_monto (cargo a) (cargo b))
                       (List.filter h s) (List.filter h s')).
  { apply (filter_Forall2 _ h h); [|exact Hs]. intros a b [_ Hab]. unfold h.
    destruct (mismo_monto_campos _ _ Hab) as (_ & _ & _ & _ & _ & _ & Ev).
    rewrite Ev. reflexivity. }
  rewrite (suma_saldos_monto _ _ Hv). reflexivity.
Qed.

(** The auditor's amount outliers only read IMPORTE. *)
Lemma omap_IMPORTE_sin_impuesto (l : list (fila (option Q))) :
  omap IMPORTE (map sin_impuesto l) = omap IMPORTE l.
Proof.
  induction l as [|f l IH]; [reflexivity|].
  cbn [map omap list_omap]. change (IMPORTE (sin_impuesto f)) with (IMPORTE f).
  fold (omap IMPORTE (map sin_impuesto l)). fold (omap IMPORTE l).
  rewrite IH. reflexivity.
Qed.

Lemma detectar_importes_conmuta cfg df cols :
  map sin_impuesto (_detectar_importes_atipicos cfg df)
  = _detectar_importes_atipicos cfg (Df cols (map sin_impuesto (rows df))).
Proof.
  unfold _detectar_importes_atipicos. cbn [rows].
  rewrite (filter_map_comm sin_impuesto es_cargo).
  change (fun x => es_cargo (sin_impuesto x)) with (@es_cargo (option Q)).
  destruct (List.filter es_cargo (rows df)) as [|v vs]; [reflexivity|].
  cbn [map]. change (sin_impuesto v :: map sin_impuesto vs) with (map sin_impuesto (v :: vs)).
  rewrite omap_IMPORTE_sin_impuesto.
  destruct (_ || _); [reflexivity|].
  rewrite (filter_map_comm sin_impuesto). reflexivity.
Qed.

Lemma detectar_importes_solo_importe cfg df df' :
  map sin_impuesto (rows df) = map sin_impuesto (rows df') ->
  map sin_impuesto (_detectar_importes_atipicos cfg df)
  = map sin_impuesto (_detectar_importes_atipicos cfg df').
Proof.
  intros H.
  rewrite (detectar_importes_conmuta cfg df (columns df)).
  rewrite (detectar_importes_conmuta cfg df' (columns df)).
  rewrite H. reflexivity.
Qed.

(** The IMPORTE flag of the report only reads the kind and IMPORTE. *)
Lemma agregar_zscores_solo_importe umbral l l' :
  map clave_importe l = map clave_importe l' ->
  map ATIPICO_IMPORTE (_agregar_zscores umbral l)
  = map ATIPICO_IMPORTE (_agregar_zscores umbral l').
Proof.
  intros H. unfold _agregar_zscores. rewrite !map_map. cbn [ATIPICO_IMPORTE].
  assert (Es : forall k, map (fun r => IMPORTE (mov r))
                             (List.filter (fun r => es_cargo (mov r)) (map base k))
                         = map snd (List.filter fst (map clave_importe k))).
  { intros k. induction k as [|b k IH]; [reflexivity|].
    cbn [map List.filter clave_importe fst].
    destruct (es_cargo (mov (base b))); cbn [map snd]; rewrite IH; reflexivity. }
  rewrite !Es, <- H.
  set (xs := map snd (List.filter fst (map clave_importe l))).
  set (F := fun k : bool * Q =>
              if (3 <=? length xs)%nat && std_positiva xs && k.1
              then Some (zscore_supera xs umbral k.2) else None).
  change (map (fun b => F (clave_importe b)) l = map (fun b => F (clave_importe b)) l').
  rewrite <- !(map_map clave_importe F), H. reflexivity.
Qed.

(** C4 (as the code has it). Invoice balances, running balances and the
    KPI aggregates (per-invoice balances, DSO, CEI, delinquency) are
    computed from IMPORTE + IMPUESTO: two ledgers that agree on every
    other cell and on that sum row by row give the same values.  The
    outlier statistics over charge amounts are computed from IMPORTE
    alone: two ledgers that agree on every cell but IMPUESTO give the same
    flagged sales and the same ATIPICO_IMPORTE column. *)
Theorem C4_montos (cfg : config) (umbral : Q) (hoy inicio dias : Z)
        (df df' : DataFrame Q) (rep rep' : Reporte)
        (dfa dfa' : DataFrame (option Q)) (l l' : list fila_banda) :
  (misma_tabla df df' ->
   Forall2 opt_Qeq
     (map SALDO_FACTURA (r_rows (_calcular_saldo_factura df).1))
     (map SALDO_FACTURA (r_rows (_calcular_saldo_factura df').1))
   /\ Forall2 (fun a b => SALDO a == SALDO b)
              (_saldos_por_factura df) (_saldos_por_factura df')
   /\ DSO_VALOR (_calcular_dso df (_saldos_por_factura df) hoy inicio dias)
      == DSO_VALOR (_calcular_dso df' (_saldos_por_factura df') hoy inicio dias)
   /\ CEI_VALOR (_calcular_cei df hoy inicio) == CEI_VALOR (_calcular_cei df' hoy inicio)
   /\ MOROSIDAD_VALOR (_calcular_morosidad (_saldos_por_factura df) hoy)
      == MOROSIDAD_VALOR (_calcular_morosidad (_saldos_por_factura df') hoy))
  /\ (mismo_reporte rep rep' ->
      Forall2 opt_Qeq
        (map SALDO_CLIENTE (r_rows (_calcular_saldo_cliente rep)))
        (map SALDO_CLIENTE (r_rows (_calcular_saldo_cliente rep'))))
  /\ (map sin_impuesto (rows dfa) = map sin_impuesto (rows dfa') ->
      map sin_impuesto (_detectar_importes_atipicos cfg dfa)
      = map sin_impuesto (_detectar_importes_atipicos cfg dfa'))
  /\ (map clave_importe l = map clave_importe l' ->
      map ATIPICO_IMPORTE (_agregar_zscores umbral l)
      = map ATIPICO_IMPORTE (_agregar_zscores umbral l')).
Proof.
  split; [|split; [apply saldo_cliente_monto|
                   split; [apply detectar_importes_solo_importe
                          |apply agregar_zscores_solo_importe]]].
  intros Ht. pose proof (saldos_por_factura_monto df df' Ht) as Hs.
  split; [apply saldo_factura_monto, Ht|].
  split; [eapply Forall2_impl; [exact Hs|]; intros a b [H _]; exact H|].
  split; [apply dso_monto; assumption|].
  split; [apply cei_monto, Ht|apply morosidad_monto, Hs].
Qed.

End Montos.

(** ** The normalizer and the population filters *)

Section Normalizador.

Lemma mayuscula_idem c : mayuscula (mayuscula c) = mayuscula c.
Proof. destruct c as [[] [] [] [] [] [] [] []]; reflexivity. Qed.

Lemma es_blanco_mayuscula c : es_blanco (mayuscula c) = es_blanco c.
Proof. destruct c as [[] [] [] [] [] [] [] []]; reflexivity. Qed.

Lemma upper_idem s : upper (upper s) = upper s.
Proof.
  induction s as [|c s IH]; [reflexivity|].
  cbn [upper]. now rewrite mayuscula_idem, IH.
Qed.

Lemma upper_lstrip s : upper (lstrip s) = lstrip (upper s).
Proof.
  induction s as [|c s IH]; [reflexivity|].
  cbn [upper lstrip]. rewrite es_blanco_mayuscula.
  destruct (es_blanco c); [exact IH|reflexivity].
Qed.

Lemma upper_rstrip s : upper (rstrip s) = rstrip (upper s).
Proof.
  induction s as [|c s IH]; [reflexivity|].
  cbn [upper rstrip]. rewrite es_blanco_mayuscula, <- IH.
  destruct (rstrip s) as [|d t]; cbn [upper].
  - destruct (es_blanco c); reflexivity.
  - reflexivity.
Qed.

Lemma upper_strip s : upper (strip s) = strip (upper s).
Proof. unfold strip. now rewrite upper_rstrip, upper_lstrip. Qed.

Lemma rstrip_idem s : rstrip (rstrip s) = rstrip s.
Proof.
  induction s as [|c s IH]; [reflexivity|].
  cbn [rstrip]. destruct (rstrip s) as [|d t] eqn:E.
  - destruct (es_blanco c) eqn:Eb; [reflexivity|].
    cbn [rstrip]. now rewrite Eb.
  - change (rstrip (String c (String d t))) with
      (match rstrip (String d t) with
       | EmptyString => if es_blanco c then EmptyString else String c EmptyString
       | t' => String c t'
       end).
    now rewrite IH.
Qed.

(** A text that does not start with white space. *)
Lemma lstrip_fijo s :
  match s with String c _ => es_blanco c = false | EmptyString => True end ->
  lstrip s = s.
Proof. destruct s as [|c s]; [reflexivity|]. cbn [lstrip]. now intros ->. Qed.

Lemma lstrip_inicio s :
  match lstrip s with String c _ => es_blanco c = false | EmptyString => True end.
Proof.
  induction s as [|c s IH]; [exact I|].
  cbn [lstrip]. destruct (es_blanco c) eqn:E; [exact IH|exact E].
Qed.

Lemma rstrip_inicio s :
  match s with String c _ => es_blanco c = false | EmptyString => True end ->
  match rstrip s with String c _ => es_blanco c = false | EmptyString => True end.
Proof.
  destruct s as [|c s]; [trivial|].
  intros E. cbn [rstrip]. destruct (rstrip s); [now rewrite E|exact E].
Qed.

Lemma strip_idem s : strip (strip s) = strip s.
Proof.
  unfold strip.
  rewrite (lstrip_fijo (rstrip (lstrip s))).
  - apply rstrip_idem.
  - apply rstrip_inicio, lstrip_inicio.
Qed.

Lemma normalizar_idem s : upper (strip (upper (strip s))) = upper (strip s).
Proof. now rewrite <- (upper_strip (strip s)), strip_idem, upper_idem. Qed.

(** X1. Normalising twice is the same as normalising once: the auditor's
    [_preparar_datos] and the report's [_preparar] leave an already
    normalised table unchanged (TIPO_IMPTE is stripped and upper-cased,
    amounts keep the value they were given). *)
Theorem X1_preparar_idempotente (df : DataFrame (option Q)) :
  _preparar_datos (_preparar_datos df) = _preparar_datos df
  /\ _preparar (_preparar_datos df) = _preparar df
  /\ _preparar (Df (columns df)
                   (map (fun f =>
                           Fila (DOCTO_CC_ID f) (DOCTO_CC_ACR_ID f) (TIPO_IMPTE f)
                                (NOMBRE_CLIENTE f) (TIPO_CLIENTE f) (VENDEDOR f)
                                (FECHA_EMISION f) (FECHA_VENCIMIENTO f)
                                (Some (IMPORTE f)) (Some (IMPUESTO f))
                                (Some (LIMITE_CREDITO f)) (CANCELADO f))
                        (rows (_preparar df))))
     = _preparar df.
Proof.
  unfold _preparar_datos, _preparar. cbn [columns rows].
  split; [|split]; f_equal; rewrite !List.map_map; apply List.map_ext; intros f;
    cbn -[strip upper]; now rewrite normalizar_idem.
Qed.

End Normalizador.

Section Poblaciones.

Lemma filter_particion {A} (f : A -> bool) (l : list A) :
  (length (List.filter f l) + length (List.filter (fun x => negb (f x)) l))%nat = length l.
Proof.
  induction l as [|x l IH]; [reflexivity|].
  cbn [List.filter]. destruct (f x); cbn [negb length]; lia.
Qed.

Lemma filter_ext_eq {A} (f g : A -> bool) l :
  (forall x, f x = g x) -> List.filter f l = List.filter g l.
Proof. intros H. apply List.filter_ext. exact H. Qed.



(** X4. Filtering is idempotent and leaves neither advances nor
    cancelled documents behind: the advances view and the auditor's
    cancelled list of an already filtered table are empty. *)
Theorem X4_filtrar_movimientos (df : DataFrame Q) :
  _filtrar_movimientos (_filtrar_movimientos df) = _filtrar_movimientos df
  /\ _obtener_por_acreditar (_filtrar_movimientos df) = []
  /\ _analizar_cancelados (_filtrar_movimientos df) = []
  /\ forall f, In f (rows (_filtrar_movimientos df)) <->
               In f (rows df) /\ TIPO_IMPTE f <> "A" /\ marcada_cancelada df f = false.
Proof.
  assert (Hc : columns (_filtrar_movimientos df) = columns df).
  { unfold _filtrar_movimientos, loc. now destruct (col_CANCELADO (columns df)). }
  assert (Hin : forall f, In f (rows (_filtrar_movimientos df)) <->
               In f (rows df) /\ TIPO_IMPTE f <> "A" /\ marcada_cancelada df f = false).
  { intros f. unfold _filtrar_movimientos, loc, marcada_cancelada.
    destruct (col_CANCELADO (columns df)); cbn [rows columns andb].
    - rewrite filter_In, filter_In, !negb_true_iff, String.eqb_neq. tauto.
    - rewrite filter_In, negb_true_iff, String.eqb_neq. tauto. }
  clear Hc. destruct df as [cols l].
  unfold _filtrar_movimientos, _obtener_por_acreditar, _analizar_cancelados, loc in *.
  cbn [columns rows] in *.
  destruct (col_CANCELADO cols) eqn:E; cbn [columns rows] in *; rewrite ?E;
    cbn [columns rows]; rewrite ?filter_filter in *.
  - split; [|split; [|split]]; [| | |exact Hin].
    + f_equal. apply filter_ext_eq. intros x.
      now destruct (_CANCELADO_VALUES (CANCELADO x)), (String.eqb (TIPO_IMPTE x) "A").
    + apply filter_nada. intros x.
      now destruct (_CANCELADO_VALUES (CANCELADO x)), (String.eqb (TIPO_IMPTE x) "A").
    + apply filter_nada. intros x.
      now destruct (_CANCELADO_VALUES (CANCELADO x)), (String.eqb (TIPO_IMPTE x) "A").
  - split; [|split; [|split]]; [| | |exact Hin].
    + f_equal. apply filter_ext_eq. intros x.
      now destruct (String.eqb (TIPO_IMPTE x) "A").
    + apply filter_nada. intros x.
      now destruct (String.eqb (TIPO_IMPTE x) "A").
    + reflexivity.
Qed.

End Poblaciones.

(** ** Sorting *)

Section Orden.

Lemma buen_orden_Z : buen_orden Z.compare.
Proof.
  split.
  - intros a b. apply Z.compare_antisym.
  - intros a b c H. apply Z.compare_eq in H. now subst.
  - intros a b c. rewrite !Z.compare_lt_iff. lia.
Qed.

Lemma ascii_compare_lt a b c :
  Ascii.compare a b = Lt -> Ascii.compare b c = Lt -> Ascii.compare a c = Lt.
Proof. unfold Ascii.compare. rewrite !N.compare_lt_iff. lia. Qed.

Lemma buen_orden_string : buen_orden String.compare.
Proof.
  split.
  - intros a b. apply String.compare_antisym.
  - intros a b c H. apply String.compare_eq_iff in H. now subst.
  - intros a. induction a as [|x a IH]; intros [|y b] [|z c]; cbn; try congruence.
    destruct (Ascii.compare x y) eqn:Exy; try discriminate;
      destruct (Ascii.compare y z) eqn:Eyz; try discriminate.
    + apply Ascii.compare_eq_iff in Exy, Eyz. subst.
      rewrite (proj2 (N.compare_eq_iff _ _) eq_refl : Ascii.compare z z = Eq).
      apply IH.
    + apply Ascii.compare_eq_iff in Exy. subst. now rewrite Eyz.
    + apply Ascii.compare_eq_iff in Eyz. subst. now rewrite Exy.
    + now rewrite (ascii_compare_lt _ _ _ Exy Eyz).
Qed.

Lemma buen_orden_na {A} (cmp : A -> A -> comparison) :
  buen_orden cmp -> buen_orden (cmp_na_first cmp).
Proof.
  intros [Ha He Hl]. split.
  - intros [a|] [b|]; cbn; auto.
  - intros [a|] [b|] [c|]; cbn; try congruence. apply He.
  - intros [a|] [b|] [c|]; cbn; try congruence. apply Hl.
Qed.

Lemma buen_orden_lex {A} (cmp1 cmp2 : A -> A -> comparison) :
  buen_orden cmp1 -> buen_orden cmp2 ->
  buen_orden (fun a b => lex (cmp1 a b) (cmp2 a b)).
Proof.
  intros [Ha1 He1 Hl1] [Ha2 He2 Hl2]. split.
  - intros a b. rewrite Ha1, Ha2. now destruct (cmp1 a b).
  - intros a b c. unfold lex.
    destruct (cmp1 a b) eqn:E1; try discriminate.
    intros E2. now rewrite (He1 a b c E1), (He2 a b c E2).
  - intros a b c. unfold lex.
    destruct (cmp1 a b) eqn:E1; try discriminate;
      destruct (cmp1 b c) eqn:E2; try discriminate; intros H1 H2.
    + rewrite (He1 a b c E1), E2. eauto.
    + now rewrite (He1 a b c E1), E2.
    + assert (E3 : cmp1 c b = Eq) by now rewrite Ha1, E2.
      assert (E4 : cmp1 c a = Gt) by now rewrite (He1 c b a E3), Ha1, E1.
      rewrite Ha1, E4. reflexivity.
    + now rewrite (Hl1 a b c E1 E2).
Qed.

Lemma buen_orden_proy {A B} (f : A -> B) (cmp : B -> B -> comparison) :
  buen_orden cmp -> buen_orden (fun a b => cmp (f a) (f b)).
Proof. intros [Ha He Hl]. split; eauto. Qed.

Lemma buen_orden_igual {A} : buen_orden (fun _ _ : A => Eq).
Proof. split; auto; discriminate. Qed.

Lemma en_orden_total {A} (cmp : A -> A -> comparison) a b :
  buen_orden cmp -> no_mayor (cmp a b) = false -> en_orden cmp b a.
Proof.
  intros [Ha _ _]. unfold en_orden. rewrite (Ha a b).
  now destruct (cmp a b).
Qed.

Lemma en_orden_trans {A} (cmp : A -> A -> comparison) a b c :
  buen_orden cmp -> en_orden cmp a b -> en_orden cmp b c -> en_orden cmp a c.
Proof.
  intros [Ha He Hl]. unfold en_orden.
  destruct (cmp a b) eqn:E1; try discriminate; intros _;
    destruct (cmp b c) eqn:E2; try discriminate; intros _.
  - now rewrite (He a b c E1), E2.
  - now rewrite (He a b c E1), E2.
  - assert (E3 : cmp c b = Eq) by now rewrite Ha, E2.
    assert (E4 : cmp c a = Gt) by now rewrite (He c b a E3), Ha, E1.
    now rewrite Ha, E4.
  - now rewrite (Hl a b c E1 E2).
Qed.

Lemma StronglySorted_impl {A} (R R' : A -> A -> Prop) l :
  (forall a b, R a b -> R' a b) -> StronglySorted R l -> StronglySorted R' l.
Proof.
  intros H. induction 1 as [|x l Hs IH Hx]; constructor; [exact IH|].
  eapply List.Forall_impl; [|exact Hx]. intros b. apply H.
Qed.

Lemma insertar_ordenada {A} (le : A -> A -> bool) x l :
  (forall a b, le a b = false -> le b a = true) ->
  (forall a b c, le a b = true -> le b c = true -> le a c = true) ->
  StronglySorted (fun a b => le a b = true) l ->
  StronglySorted (fun a b => le a b = true) (insertar le x l).
Proof.
  intros Htot Htrans. induction 1 as [|y l Hs IH Hy]; cbn [insertar].
  - constructor; constructor.
  - destruct (le x y) eqn:E.
    + constructor; [now constructor|].
      constructor; [exact E|].
      eapply List.Forall_impl; [|exact Hy].
      intros z Hz. eapply Htrans; eauto.
    + constructor; [exact IH|].
      eapply Forall_perm; [symmetry; apply insertar_perm|].
      constructor; [now apply Htot|exact Hy].
Qed.

Lemma sort_values_ordenada {A} (le : A -> A -> bool) l :
  (forall a b, le a b = false -> le b a = true) ->
  (forall a b c, le a b = true -> le b c = true -> le a c = true) ->
  StronglySorted (fun a b => le a b = true) (sort_values le l).
Proof.
  intros Htot Htrans. induction l as [|x l IH]; cbn [sort_values foldr].
  - constructor.
  - now apply insertar_ordenada.
Qed.

Lemma sort_values_en_orden {A} (cmp : A -> A -> comparison) l :
  buen_orden cmp ->
  StronglySorted (en_orden cmp) (sort_values (fun a b => no_mayor (cmp a b)) l).
Proof.
  intros Hc. apply (sort_values_ordenada (fun a b => no_mayor (cmp a b))).
  - intros a b. now apply en_orden_total.
  - intros a b c. now apply en_orden_trans.
Qed.

(** Descending order on a rational column. *)
Lemma sort_values_descendente {A} (f : A -> Q) l :
  StronglySorted (fun a b => f b <= f a)
                 (sort_values (fun a b => Qle_bool (f b) (f a)) l).
Proof.
  eapply StronglySorted_impl;
    [|apply (sort_values_ordenada (fun a b => Qle_bool (f b) (f a)))].
  - intros a b H. now apply Qle_bool_iff.
  - intros a b H. apply Qle_bool_iff.
    destruct (Qlt_le_dec (f b) (f a)) as [Hlt|Hle]; [|exact Hle].
    exfalso. apply not_true_iff_false in H. apply H, Qle_bool_iff. lra.
  - intros a b c. rewrite !Qle_bool_iff. lra.
Qed.

Lemma StronglySorted_map {A B} (f : A -> B) (R : B -> B -> Prop) l :
  StronglySorted (fun a b => R (f a) (f b)) l <-> StronglySorted R (map f l).
Proof.
  induction l as [|x l IH]; cbn [map].
  - split; constructor.
  - split; intros H; inversion H as [|? ? Hs Hf]; subst; constructor.
    + now apply IH.
    + apply (proj2 (List.Forall_map f (R (f x)) l)). exact Hf.
    + now apply IH.
    + apply (proj1 (List.Forall_map f (R (f x)) l)). exact Hf.
Qed.

Lemma buen_orden_saldo_cliente cols : buen_orden (cmp_saldo_cliente cols).
Proof.
  unfold cmp_saldo_cliente.
  apply (buen_orden_lex
           (fun a b => cmp_na_first String.compare (NOMBRE_CLIENTE a) (NOMBRE_CLIENTE b))).
  { apply (buen_orden_proy NOMBRE_CLIENTE), buen_orden_na, buen_orden_string. }
  apply (buen_orden_lex
           (fun a b => if col_DOCTO_CC_ACR_ID cols
                       then cmp_na_first Z.compare (DOCTO_CC_ACR_ID a) (DOCTO_CC_ACR_ID b)
                       else Eq)).
  { destruct (col_DOCTO_CC_ACR_ID cols); [|apply buen_orden_igual].
    apply (buen_orden_proy DOCTO_CC_ACR_ID), buen_orden_na, buen_orden_Z. }
  apply (buen_orden_lex
           (fun a b => if col_DOCTO_CC_ID cols
                       then cmp_na_first Z.compare (DOCTO_CC_ID a) (DOCTO_CC_ID b)
                       else Eq)).
  { destruct (col_DOCTO_CC_ID cols); [|apply buen_orden_igual].
    apply (buen_orden_proy DOCTO_CC_ID), buen_orden_na, buen_orden_Z. }
  apply (buen_orden_proy FECHA_EMISION), buen_orden_na, buen_orden_Z.
Qed.

Lemma buen_orden_bandas cols : buen_orden (cmp_bandas cols).
Proof.
  unfold cmp_bandas.
  apply (buen_orden_lex
           (fun a b => cmp_na_first String.compare (NOMBRE_CLIENTE a) (NOMBRE_CLIENTE b))).
  { apply (buen_orden_proy NOMBRE_CLIENTE), buen_orden_na, buen_orden_string. }
  apply (buen_orden_lex
           (fun a b => cmp_na_first Z.compare (_GRUPO_CARGO cols a) (_GRUPO_CARGO cols b))).
  { apply (buen_orden_proy (_GRUPO_CARGO cols)), buen_orden_na, buen_orden_Z. }
  apply (buen_orden_lex (fun a b => String.compare (TIPO_IMPTE a) (TIPO_IMPTE b))).
  { apply (buen_orden_proy TIPO_IMPTE), buen_orden_string. }
  apply (buen_orden_proy FECHA_EMISION), buen_orden_na, buen_orden_Z.
Qed.

Lemma cumsum_por_cliente_mov acum l : map mov (cumsum_por_cliente acum l) = map mov l.
Proof.
  change (map mov (cumsum_por_cliente acum l))
    with (map (fun r => (clave r).1) (cumsum_por_cliente acum l)).
  rewrite <- (List.map_map clave fst (cumsum_por_cliente acum l)).
  rewrite cumsum_por_cliente_clave, List.map_map. reflexivity.
Qed.


End Orden.

(** ** Running balance, row by row *)

Section SaldoAcumulado.

Lemma cumsum_por_cliente_fila l : forall acum i r,
  cumsum_por_cliente acum l !! i = Some r ->
  match NOMBRE_CLIENTE (mov r) with
  | None => SALDO_CLIENTE r = None
  | Some c =>
      exists s, SALDO_CLIENTE r = Some s
                /\ s == round 2 (default 0 (acum !! c)
                                 + suma (map (fun x => movimiento (mov x))
                                             (filas_de c (take (S i) (cumsum_por_cliente acum l)))))
  end.
Proof.
  induction l as [|x l IH]; intros acum i r Hr; [discriminate|].
  cbn [cumsum_por_cliente] in *.
  destruct i as [|j].
  - destruct (NOMBRE_CLIENTE (mov x)) as [c|] eqn:Ec; cbn in Hr;
      injection Hr as <-; cbn [mov con_saldo_cliente SALDO_CLIENTE]; rewrite Ec.
    + eexists; split; [reflexivity|].
      apply round_comp. rewrite firstn_cons, firstn_O, filas_de_cons.
      cbn [mov con_saldo_cliente]. unfold es_de. rewrite Ec.
      rewrite bool_decide_eq_true_2 by reflexivity.
      unfold filas_de. cbn [map mov con_saldo_cliente List.filter]. rewrite suma_cons.
      change (suma []) with 0. ring.
    + reflexivity.
  - destruct (NOMBRE_CLIENTE (mov x)) as [c'|] eqn:Ec; cbn in Hr.
    + specialize (IH _ _ _ Hr).
      destruct (NOMBRE_CLIENTE (mov r)) as [c|]; [|exact IH].
      destruct IH as (s & Hs & Hv). exists s. split; [exact Hs|].
      rewrite Hv. apply round_comp.
      rewrite (firstn_cons (S j)).
      rewrite filas_de_cons. cbn [mov con_saldo_cliente]. unfold es_de. rewrite Ec.
      destruct (decide (c' = c)) as [->|Hne].
      * rewrite bool_decide_eq_true_2 by reflexivity.
        rewrite lookup_insert_eq. cbn [default map mov con_saldo_cliente].
        rewrite suma_cons. unfold Datatypes.id. ring.
      * rewrite bool_decide_eq_false_2 by congruence.
        rewrite lookup_insert_ne by exact Hne. reflexivity.
    + specialize (IH _ _ _ Hr).
      destruct (NOMBRE_CLIENTE (mov r)) as [c|]; [|exact IH].
      destruct IH as (s & Hs & Hv). exists s. split; [exact Hs|].
      rewrite Hv. apply round_comp.
      rewrite (firstn_cons (S j)).
      rewrite filas_de_cons. cbn [mov con_saldo_cliente]. unfold es_de. rewrite Ec.
      rewrite bool_decide_eq_false_2 by congruence. reflexivity.
Qed.

(** X6. SALDO_CLIENTE is a running balance: at every row of a named
    client it is, rounded to 2 decimals, the sum of the movements
    (charges add, payments subtract, anything else counts 0) of that
    client's rows up to and including the row, in the order of the
    output; a row without client name has no running balance. *)
Theorem X6_saldo_cliente_acumulado (rep : Reporte) (i : nat) (r : fila_rep) :
  let salida := r_rows (_calcular_saldo_cliente rep) in
  salida !! i = Some r ->
  match NOMBRE_CLIENTE (mov r) with
  | None => SALDO_CLIENTE r = None
  | Some c =>
      exists s, SALDO_CLIENTE r = Some s
                /\ s == round 2 (suma (map (fun x => movimiento (mov x))
                                           (filas_de c (take (S i) salida))))
  end.
Proof.
  cbv zeta. rewrite saldo_cliente_filas. intros Hr.
  pose proof (cumsum_por_cliente_fila _ _ _ _ Hr) as H.
  destruct (NOMBRE_CLIENTE (mov r)) as [c|]; [|exact H].
  destruct H as (s & Hs & Hv). exists s. split; [exact Hs|].
  rewrite Hv. apply round_comp. rewrite lookup_empty. cbn [default]. ring.
Qed.

End SaldoAcumulado.

(** ** Group bands *)

Section Bandas.

Lemma paridad_cambia (c : Z) : ((c + 1) mod 2)%Z <> (c mod 2)%Z.
Proof. Z.to_euclidean_division_equations. lia. Qed.

Lemma bandas_binarias cols l : forall previo cuenta,
  Forall (fun b => _BAND_GROUP b = 0%Z \/ _BAND_GROUP b = 1%Z)
         (bandas cols previo cuenta l).
Proof.
  induction l as [|r l IH]; intros previo cuenta; cbn [bandas]; constructor.
  - cbn [_BAND_GROUP].
    match goal with |- (?a mod 2 = 0 \/ _)%Z => pose proof (Z.mod_pos_bound a 2) end.
    lia.
  - apply IH.
Qed.

Lemma bandas_adyacentes cols l : forall previo cuenta i a b,
  bandas cols previo cuenta l !! i = Some a ->
  bandas cols previo cuenta l !! S i = Some b ->
  (_BAND_GROUP a = _BAND_GROUP b
   <-> exists g, _GRUPO_CARGO cols (mov (base a)) = Some g
                 /\ _GRUPO_CARGO cols (mov (base b)) = Some g).
Proof.
  induction l as [|r l IH]; intros previo cuenta i a b Ha Hb; [discriminate|].
  cbn [bandas] in Ha, Hb. destruct i as [|j].
  - cbn in Ha. injection Ha as <-.
    destruct l as [|r2 l]; [discriminate|].
    cbn in Hb. injection Hb as <-. cbn [_BAND_GROUP base].
    set (c := if match _GRUPO_CARGO cols (mov r) with
                 | Some a => match previo with Some b => negb (a =? b)%Z | None => true end
                 | None => true
                 end then (cuenta + 1)%Z else cuenta).
    destruct (_GRUPO_CARGO cols (mov r2)) as [g2|], (_GRUPO_CARGO cols (mov r)) as [g1|].
    + destruct (Z.eqb_spec g2 g1) as [->|Hne]; cbn [negb].
      * split; [intros _; now exists g1|reflexivity].
      * split; [intros H; symmetry in H; now apply paridad_cambia in H|].
        intros (g & Hg & Hg'). congruence.
    + split; [intros H; symmetry in H; now apply paridad_cambia in H|].
      intros (g & Hg & _). discriminate.
    + split; [intros H; symmetry in H; now apply paridad_cambia in H|].
      intros (g & _ & Hg). discriminate.
    + split; [intros H; symmetry in H; now apply paridad_cambia in H|].
      intros (g & Hg & _). discriminate.
  - exact (IH _ _ _ _ _ Ha Hb).
Qed.

(** X7. The group bands: the output holds the input rows, every band is
    0 or 1, and without a DOCTO_CC_ID column the rows keep their order
    and all get band 0.  With the column the rows are sorted by client,
    invoice group, type and issue date, the first row has band 1, and
    two consecutive rows share a band exactly when they belong to the
    same invoice group (a row whose group key is missing never shares a
    band with its neighbour). *)
Theorem X7_bandas_alternas (cols : columnas) (l : list fila_rep) :
  let salida := agregar_bandas_grupo cols l in
  Permutation (map base salida) l
  /\ Forall (fun b => _BAND_GROUP b = 0%Z \/ _BAND_GROUP b = 1%Z) salida
  /\ (col_DOCTO_CC_ID cols = false ->
      map base salida = l /\ Forall (fun b => _BAND_GROUP b = 0%Z) salida)
  /\ (col_DOCTO_CC_ID cols = true ->
      StronglySorted
        (fun a b => en_orden (cmp_bandas cols) (mov (base a)) (mov (base b))) salida
      /\ (forall b, head salida = Some b -> _BAND_GROUP b = 1%Z)
      /\ forall i a b,
           salida !! i = Some a -> salida !! S i = Some b ->
           (_BAND_GROUP a = _BAND_GROUP b
            <-> exists g, _GRUPO_CARGO cols (mov (base a)) = Some g
                          /\ _GRUPO_CARGO cols (mov (base b)) = Some g)).
Proof.
  cbv zeta. split; [apply agregar_bandas_perm|].
  unfold agregar_bandas_grupo.
  destruct (col_DOCTO_CC_ID cols); cbn [negb].
  - split; [apply bandas_binarias|]. split; [discriminate|]. intros _.
    split; [|split].
    + apply (proj2 (StronglySorted_map base
                      (fun a b => en_orden (cmp_bandas cols) (mov a) (mov b)) _)).
      rewrite bandas_base.
      apply (sort_values_en_orden (fun a b => cmp_bandas cols (mov a) (mov b))).
      apply (buen_orden_proy mov), buen_orden_bandas.
    + intros b.
      destruct (sort_values _ l) as [|r l']; [discriminate|].
      cbn. intros [= <-]. cbn [_BAND_GROUP].
      now destruct (_GRUPO_CARGO cols (mov r)).
    + intros i a b. apply bandas_adyacentes.
  - split; [|split; [|discriminate]].
    + apply List.Forall_forall. intros b Hb.
      apply in_map_iff in Hb as (r & <- & _). now left.
    + intros _. split.
      * rewrite List.map_map. cbn. apply List.map_id.
      * apply List.Forall_forall. intros b Hb.
        apply in_map_iff in Hb as (r & <- & _). reflexivity.
Qed.

End Bandas.

(** ** Collection-cycle metrics *)

Section Ciclo.

Lemma existsb_falso {A} (f : A -> bool) l x :
  existsb f l = false -> In x l -> f x = false.
Proof.
  intros H Hx. destruct (f x) eqn:E; [|reflexivity].
  rewrite <- H. symmetry. apply existsb_exists. eauto.
Qed.

Lemma map_fijo {A} (f : A -> A) l : (forall x, In x l -> f x = x) -> map f l = l.
Proof.
  intros H. rewrite <- (List.map_id l) at 2. apply List.map_ext_in. exact H.
Qed.

Lemma metricas_ciclo_map hoy rep :
  r_rows (_calcular_metricas_ciclo hoy rep)
  = map (paso_mora hoy) (map (paso_recaudo rep) (r_rows rep)).
Proof.
  unfold _calcular_metricas_ciclo. cbn [r_rows].
  assert (H1 : (if existsb pagada (r_rows rep) && col_DOCTO_CC_ACR_ID (r_columns rep)
                   && col_DOCTO_CC_ID (r_columns rep)
                then map (fun r =>
                            if pagada r
                            then con_recaudo r
                                   (resta_fechas
                                      match DOCTO_CC_ID (mov r) with
                                      | Some i => default None (ultimo_abono (r_rows rep) !! i)
                                      | None => None
                                      end (FECHA_VENCIMIENTO (mov r)))
                            else r) (r_rows rep)
                else r_rows rep)
               = map (paso_recaudo rep) (r_rows rep)).
  { unfold paso_recaudo, fecha_ultimo_abono.
    destruct (existsb pagada (r_rows rep)) eqn:E; cbn [andb].
    - destruct (col_DOCTO_CC_ACR_ID (r_columns rep)), (col_DOCTO_CC_ID (r_columns rep));
        cbn [andb].
      + apply List.map_ext. intros r. now rewrite andb_true_r.
      + symmetry. apply map_fijo. intros r _. now rewrite andb_false_r.
      + symmetry. apply map_fijo. intros r _. now rewrite andb_false_r.
      + symmetry. apply map_fijo. intros r _. now rewrite andb_false_r.
    - symmetry. apply map_fijo. intros r Hr. now rewrite (existsb_falso _ _ _ E Hr). }
  rewrite H1. set (l1 := map (paso_recaudo rep) (r_rows rep)).
  destruct (existsb abierta l1) eqn:E; [reflexivity|].
  symmetry. apply map_fijo. intros r Hr. unfold paso_mora.
  now rewrite (existsb_falso _ _ _ E Hr).
Qed.

Lemma pagada_no_abierta r : pagada r = true -> abierta r = false.
Proof.
  unfold pagada, abierta. destruct (es_cargo (mov r)); [|discriminate].
  destruct (SALDO_FACTURA r) as [s|]; [|discriminate]. cbn [andb].
  intros H. apply Qeq_bool_iff in H. unfold Qlt_bool.
  apply negb_false_iff, Qle_bool_iff. rewrite H. apply Qle_refl.
Qed.

Lemma pagada_es_cargo r : pagada r = true -> es_cargo (mov r) = true.
Proof. unfold pagada. now destruct (es_cargo (mov r)). Qed.

Lemma abierta_es_cargo r : abierta r = true -> es_cargo (mov r) = true.
Proof. unfold abierta. now destruct (es_cargo (mov r)). Qed.

Lemma metricas_ciclo_fila hoy rep r :
  Forall sin_ciclo (r_rows rep) ->
  In r (r_rows (_calcular_metricas_ciclo hoy rep)) ->
  exists r0,
    In r0 (r_rows rep) /\ clave r = clave r0 /\ SALDO_CLIENTE r = SALDO_CLIENTE r0
    /\ DELTA_RECAUDO r
       = (if pagada r0
             && (col_DOCTO_CC_ACR_ID (r_columns rep) && col_DOCTO_CC_ID (r_columns rep))
          then resta_fechas (fecha_ultimo_abono (r_rows rep) r0) (FECHA_VENCIMIENTO (mov r0))
          else None)
    /\ CATEGORIA_RECAUDO r = categoria_recaudo (DELTA_RECAUDO r)
    /\ DELTA_MORA r
       = (if abierta r0
          then resta_fechas (Some hoy) (FECHA_VENCIMIENTO (mov r0))
          else None)
    /\ CATEGORIA_MORA r = categoria_mora (DELTA_MORA r).
Proof.
  intros Hs. rewrite metricas_ciclo_map, List.map_map. intros Hr.
  apply in_map_iff in Hr as (r0 & <- & Hr0). exists r0. split; [exact Hr0|].
  pose proof (proj1 (List.Forall_forall _ _) Hs r0 Hr0) as (Sr & Scr & Sm & Scm).
  unfold paso_mora, paso_recaudo.
  destruct (pagada r0 && _) eqn:Ep.
  - rewrite abierta_con_recaudo.
    apply andb_true_iff in Ep as [Ep _]. rewrite (pagada_no_abierta _ Ep).
    cbn [clave mov SALDO_FACTURA SALDO_CLIENTE DELTA_RECAUDO CATEGORIA_RECAUDO
         DELTA_MORA CATEGORIA_MORA con_recaudo].
    rewrite Sm, Scm. repeat (split; [reflexivity|]). reflexivity.
  - destruct (abierta r0) eqn:Ea.
    + cbn [clave mov SALDO_FACTURA SALDO_CLIENTE DELTA_RECAUDO CATEGORIA_RECAUDO
           DELTA_MORA CATEGORIA_MORA con_mora].
      rewrite Sr, Scr. repeat (split; [reflexivity|]). reflexivity.
    + rewrite Sr, Scr, Sm, Scm. repeat (split; [reflexivity|]). reflexivity.
Qed.

Lemma pagada_clave r r0 : clave r = clave r0 -> pagada r = pagada r0.
Proof. unfold clave, pagada. now intros [= -> ->]. Qed.

Lemma abierta_clave r r0 : clave r = clave r0 -> abierta r = abierta r0.
Proof. unfold clave, abierta. now intros [= -> ->]. Qed.

Lemma categoria_recaudo_vacia d : categoria_recaudo d = "" <-> d = None.
Proof.
  split; [|now intros ->]. destruct d as [d|]; [|reflexivity].
  unfold categoria_recaudo, np_select. cbn [List.find fst snd].
  destruct (d <? 0)%Z eqn:E1; [discriminate|].
  destruct (d =? 0)%Z eqn:E2; [discriminate|].
  destruct ((1 <=? d)%Z && (d <=? 15)%Z) eqn:E3; [discriminate|].
  destruct ((16 <=? d)%Z && (d <=? 30)%Z) eqn:E4; [discriminate|].
  destruct ((31 <=? d)%Z && (d <=? 60)%Z) eqn:E5; [discriminate|].
  destruct (60 <? d)%Z eqn:E6; [discriminate|].
  exfalso. apply andb_false_iff in E3, E4, E5. lia.
Qed.

Lemma categoria_mora_vacia d : categoria_mora d = "" <-> d = None.
Proof.
  split; [|now intros ->]. destruct d as [d|]; [|reflexivity].
  unfold categoria_mora, np_select. cbn [List.find fst snd].
  destruct (d <=? 0)%Z eqn:E1; [discriminate|].
  destruct ((1 <=? d)%Z && (d <=? 30)%Z) eqn:E3; [discriminate|].
  destruct ((31 <=? d)%Z && (d <=? 60)%Z) eqn:E4; [discriminate|].
  destruct ((61 <=? d)%Z && (d <=? 90)%Z) eqn:E5; [discriminate|].
  destruct (90 <? d)%Z eqn:E6; [discriminate|].
  exfalso. apply andb_false_iff in E3, E4, E5. lia.
Qed.

Lemma metricas_ciclo_no_cargo hoy df :
  Forall (fun r => es_cargo (mov r) = false ->
                   DELTA_RECAUDO r = None /\ DELTA_MORA r = None)
         (r_rows (_calcular_metricas_ciclo hoy (_calcular_saldo_factura df).1)).
Proof.
  apply List.Forall_forall. intros r Hr Hc.
  apply metricas_ciclo_fila in Hr; [|apply saldo_factura_sin_ciclo].
  destruct Hr as (r0 & _ & Hk & _ & Hdr & _ & Hdm & _).
  assert (Hm : mov r0 = mov r) by (unfold clave in Hk; congruence).
  unfold pagada in Hdr. unfold abierta in Hdm. rewrite Hm, Hc in Hdr, Hdm.
  now split.
Qed.

(** X8. In the table of cycle metrics every row keeps its data and
    invoice balance, and: DELTA_MORA is today minus the due date exactly
    on the open charges (balance above 0) and is empty elsewhere;
    DELTA_RECAUDO is only present on paid charges (balance 0); so no
    row carries both, and a row that is not a charge carries neither.
    Each category is the label of its delta and is empty exactly when
    the delta is: the ranges leave no gap. *)
Theorem X8_metricas_ciclo (hoy : Z) (df : DataFrame Q) :
  let salida := r_rows (_calcular_metricas_ciclo hoy (_calcular_saldo_factura df).1) in
  map clave salida = map clave (r_rows (_calcular_saldo_factura df).1)
  /\ Forall (fun r =>
               DELTA_MORA r
               = (if abierta r
                  then resta_fechas (Some hoy) (FECHA_VENCIMIENTO (mov r))
                  else None)
               /\ (DELTA_RECAUDO r <> None -> pagada r = true)
               /\ (DELTA_RECAUDO r = None \/ DELTA_MORA r = None)
               /\ (es_cargo (mov r) = false ->
                   DELTA_RECAUDO r = None /\ DELTA_MORA r = None)
               /\ CATEGORIA_RECAUDO r = categoria_recaudo (DELTA_RECAUDO r)
               /\ CATEGORIA_MORA r = categoria_mora (DELTA_MORA r)
               /\ (CATEGORIA_RECAUDO r = "" <-> DELTA_RECAUDO r = None)
               /\ (CATEGORIA_MORA r = "" <-> DELTA_MORA r = None))
            salida.
Proof.
  cbv zeta. split; [apply metricas_ciclo_clave|].
  apply List.Forall_forall. intros r Hr.
  apply metricas_ciclo_fila in Hr; [|apply saldo_factura_sin_ciclo].
  destruct Hr as (r0 & _ & Hk & _ & Hdr & Hcr & Hdm & Hcm).
  rewrite <- (pagada_clave _ _ Hk) in Hdr. rewrite <- (abierta_clave _ _ Hk) in Hdm.
  assert (Hm : mov r = mov r0) by (unfold clave in Hk; congruence).
  rewrite <- Hm in Hdm.
  assert (Hp : DELTA_RECAUDO r <> None -> pagada r = true).
  { rewrite Hdr. destruct (pagada r); [reflexivity|]. cbn [andb]. congruence. }
  split; [exact Hdm|]. split; [exact Hp|]. split; [|split].
  - destruct (DELTA_RECAUDO r) eqn:E; [right|now left].
    rewrite Hdm, (pagada_no_abierta r); [reflexivity|]. apply Hp. discriminate.
  - intros Hc. split.
    + destruct (DELTA_RECAUDO r) eqn:E; [|reflexivity].
      assert (pagada r = true) as H by (apply Hp; discriminate).
      apply pagada_es_cargo in H. congruence.
    + rewrite Hdm. destruct (abierta r) eqn:E; [|reflexivity].
      apply abierta_es_cargo in E. congruence.
  - split; [exact Hcr|]. split; [exact Hcm|].
    rewrite Hcr, Hcm. split; [apply categoria_recaudo_vacia|apply categoria_mora_vacia].
Qed.

Lemma groupby_max_lookup (kv : list (Z * option Z)) (k : Z) :
  default None (groupby_max kv !! k)
  = foldr max_fecha None (map snd (List.filter (fun p => (p.1 =? k)%Z) kv)).
Proof.
  induction kv as [|p kv IH]; [reflexivity|].
  cbn [groupby_max foldr List.filter].
  destruct (Z.eqb_spec p.1 k) as [<-|Hne].
  - rewrite lookup_insert_eq. cbn [map foldr default from_option].
    unfold Datatypes.id. f_equal. exact IH.
  - rewrite lookup_insert_ne by exact Hne. exact IH.
Qed.

Lemma ultimo_abono_lookup l i :
  default None (ultimo_abono l !! i)
  = foldr max_fecha None
      (map (fun r => FECHA_EMISION (mov r))
           (List.filter (fun r => es_abono (mov r) && acr_es i (mov r)) l)).
Proof.
  unfold ultimo_abono. rewrite groupby_max_lookup.
  induction l as [|r l IH]; simpl; [reflexivity|].
  unfold acr_es at 1.
  destruct (es_abono (mov r)); simpl; [|exact IH].
  destruct (DOCTO_CC_ACR_ID (mov r)) as [a|]; simpl; [|exact IH].
  destruct (a =? i)%Z; simpl; [|exact IH].
  f_equal. exact IH.
Qed.

Lemma foldr_max_fecha l m :
  foldr max_fecha None l = Some m ->
  In (Some m) l /\ forall e, In (Some e) l -> (e <= m)%Z.
Proof.
  revert m. induction l as [|x l IH]; intros m; [discriminate|].
  cbn [foldr]. destruct x as [x|]; cbn [max_fecha].
  - destruct (foldr max_fecha None l) as [y|] eqn:E.
    + intros [= <-]. destruct (IH y eq_refl) as [Hin Hmax]. split.
      * destruct (Z.max_spec x y) as [[_ ->]|[_ ->]]; [right; exact Hin|now left].
      * intros e [[= ->]|He]; [lia|]. specialize (Hmax e He). lia.
    + intros [= <-]. split; [now left|].
      intros e [[= ->]|He]; [lia|].
      exfalso. clear IH. induction l as [|z l IHl]; [destruct He|].
      cbn [foldr] in E. destruct He as [->|He].
      * cbn [max_fecha] in E. now destruct (foldr max_fecha None l).
      * destruct z as [z|]; cbn [max_fecha] in E.
        -- now destruct (foldr max_fecha None l).
        -- now apply IHl.
  - intros H. destruct (IH m H) as [Hin Hmax]. split; [now right|].
    intros e [He|He]; [discriminate|now apply Hmax].
Qed.

(** X9. DELTA_RECAUDO is measured from the last payment: when a row
    carries a DELTA_RECAUDO of [d] days, the row is a paid charge with an
    id and a due date, some payment that references it was issued
    exactly [d] days after the due date, and no dated payment that
    references it was issued later. *)
Theorem X9_delta_recaudo_ultimo_abono (hoy : Z) (df : DataFrame Q) (r : fila_rep) (d : Z) :
  In r (r_rows (_calcular_metricas_ciclo hoy (_calcular_saldo_factura df).1)) ->
  DELTA_RECAUDO r = Some d ->
  exists i v,
    pagada r = true
    /\ DOCTO_CC_ID (mov r) = Some i
    /\ FECHA_VENCIMIENTO (mov r) = Some v
    /\ (exists p, In p (rows df) /\ es_abono p = true
                  /\ DOCTO_CC_ACR_ID p = Some i /\ FECHA_EMISION p = Some (v + d)%Z)
    /\ (forall p e, In p (rows df) -> es_abono p = true ->
                    DOCTO_CC_ACR_ID p = Some i -> FECHA_EMISION p = Some e ->
                    (e <= v + d)%Z).
Proof.
  intros Hr Hd.
  apply metricas_ciclo_fila in Hr; [|apply saldo_factura_sin_ciclo].
  destruct Hr as (r0 & _ & Hk & _ & Hdr & _).
  rewrite <- (pagada_clave _ _ Hk) in Hdr.
  assert (Hm : mov r0 = mov r) by (unfold clave in Hk; congruence).
  unfold fecha_ultimo_abono in Hdr. rewrite Hm, Hd in Hdr.
  destruct (pagada r); [|discriminate]. 
  destruct (_ && _); [|discriminate]. cbn [andb] in Hdr.
  destruct (DOCTO_CC_ID (mov r)) as [i|]; [|discriminate].
  rewrite ultimo_abono_lookup in Hdr.
  set (l := r_rows (_calcular_saldo_factura df).1) in *.
  destruct (foldr max_fecha None _) as [m|] eqn:E; [|discriminate].
  destruct (FECHA_VENCIMIENTO (mov r)) as [v|]; [|discriminate].
  cbn [resta_fechas] in Hdr. injection Hdr as Hdr.
  assert (Hmv : m = (v + d)%Z) by lia. subst m.
  apply foldr_max_fecha in E as [Hin Hmax].
  exists i, v. repeat (split; [reflexivity|]). split.
  - apply in_map_iff in Hin as (r' & He & Hr').
    apply filter_In in Hr' as [Hr' Hf]. apply andb_true_iff in Hf as [Ha Hi].
    exists (mov r'). split; [|split; [exact Ha|split; [|exact He]]].
    + rewrite <- (saldo_factura_filas df). apply in_map. exact Hr'.
    + unfold acr_es in Hi. destruct (DOCTO_CC_ACR_ID (mov r')) as [a|]; [|discriminate].
      apply Z.eqb_eq in Hi. now subst.
  - intros p e Hp Ha Hi He. apply Hmax.
    rewrite <- (saldo_factura_filas df) in Hp.
    apply in_map_iff in Hp as (r' & <- & Hr').
    apply in_map_iff. exists r'. split; [exact He|].
    apply filter_In. split; [exact Hr'|].
    rewrite Ha. unfold acr_es. rewrite Hi. cbn [andb]. apply Z.eqb_refl.
Qed.

End Ciclo.

(** ** Open and closed invoices *)

Section VistasFacturas.

Lemma en_ids_de cols cargos a :
  a ∈ ids_de cols cargos
  <-> col_DOCTO_CC_ID cols = true
      /\ exists c, In c cargos /\ DOCTO_CC_ID (mov c) = Some a.
Proof.
  unfold ids_de. destruct (col_DOCTO_CC_ID cols).
  - rewrite elem_of_list_to_set, list_elem_of_omap. split.
    + intros (c & Hc & E). split; [reflexivity|]. exists c.
      split; [now apply list_elem_of_In|exact E].
    + intros (_ & c & Hc & E). exists c. split; [now apply list_elem_of_In|exact E].
  - split; [intros H; now apply not_elem_of_empty in H|intros [H _]; discriminate].
Qed.

Lemma abonos_de_spec cols cargos l r :
  In r (abonos_de cols (ids_de cols cargos) l)
  <-> In r l /\ es_abono (mov r) = true
      /\ exists c, In c cargos /\ referencia cols (mov r) (mov c) = true.
Proof.
  assert (Href : (exists c, In c cargos /\ referencia cols (mov r) (mov c) = true)
                 <-> col_DOCTO_CC_ACR_ID cols = true
                     /\ exists a, DOCTO_CC_ACR_ID (mov r) = Some a
                                  /\ a ∈ ids_de cols cargos).
  { split.
    - intros (c & Hc & H). unfold referencia in H.
      apply andb_true_iff in H as [H1 H2]. apply andb_true_iff in H1 as [Ha Hi].
      split; [exact Ha|].
      destruct (DOCTO_CC_ACR_ID (mov r)) as [a|]; [|discriminate].
      destruct (DOCTO_CC_ID (mov c)) as [i|] eqn:Ei; [|discriminate].
      apply Z.eqb_eq in H2. subst i. exists a. split; [reflexivity|].
      apply en_ids_de. split; [exact Hi|]. now exists c.
    - intros (Ha & a & Er & Hin). apply en_ids_de in Hin as (Hi & c & Hc & Ec).
      exists c. split; [exact Hc|]. unfold referencia.
      rewrite Ha, Hi, Er, Ec. cbn [andb]. apply Z.eqb_refl. }
  rewrite Href. unfold abonos_de.
  destruct (bool_decide (ids_de cols cargos = ∅)) eqn:Ev; cbn [negb andb].
  - apply bool_decide_eq_true in Ev. split; [intros []|].
    intros (_ & _ & _ & a & _ & Hin). rewrite Ev in Hin.
    now apply not_elem_of_empty in Hin.
  - destruct (col_DOCTO_CC_ACR_ID cols).
    + rewrite filter_In, andb_true_iff. split.
      * intros (Hr & Ha & H). split; [exact Hr|]. split; [exact Ha|].
        split; [reflexivity|].
        destruct (DOCTO_CC_ACR_ID (mov r)) as [a|]; [|discriminate].
        exists a. split; [reflexivity|]. now apply bool_decide_eq_true in H.
      * intros (Hr & Ha & _ & a & Er & Hin). split; [exact Hr|]. split; [exact Ha|].
        rewrite Er. now apply bool_decide_eq_true.
    + split; [intros []|]. intros (_ & _ & H & _). discriminate.
Qed.

Lemma vista_spec (sel : fila_rep -> bool) cols l r :
  In r (match List.filter sel l with
        | [] => []
        | _ => map base
                 (agregar_bandas_grupo cols
                    (List.filter sel l
                     ++ abonos_de cols (ids_de cols (List.filter sel l)) l))
        end)
  <-> In r l
      /\ (sel r = true
          \/ es_abono (mov r) = true
             /\ exists c, In c l /\ sel c = true /\ referencia cols (mov r) (mov c) = true).
Proof.
  assert (H : In r (List.filter sel l
                    ++ abonos_de cols (ids_de cols (List.filter sel l)) l)
              <-> In r l
                  /\ (sel r = true
                      \/ es_abono (mov r) = true
                         /\ exists c, In c l /\ sel c = true
                                      /\ referencia cols (mov r) (mov c) = true)).
  { rewrite in_app_iff, filter_In, abonos_de_spec. split.
    - intros [[Hr Hs]|(Hr & Ha & c & Hc & Href)].
      + split; [exact Hr|now left].
      + apply filter_In in Hc as [Hc Hs]. split; [exact Hr|]. right.
        split; [exact Ha|]. now exists c.
    - intros (Hr & [Hs|(Ha & c & Hc & Hs & Href)]).
      + now left.
      + right. split; [exact Hr|]. split; [exact Ha|]. exists c.
        split; [|exact Href]. apply filter_In. now split. }
  destruct (List.filter sel l) as [|x xs] eqn:E.
  - split; [intros []|]. intros (Hr & [Hs|(_ & c & Hc & Hs & _)]).
    + assert (Hin : In r (List.filter sel l)) by (apply filter_In; now split).
      now rewrite E in Hin.
    + assert (Hin : In c (List.filter sel l)) by (apply filter_In; now split).
      now rewrite E in Hin.
  - rewrite <- H. split;
      apply Permutation_in;
      [apply agregar_bandas_perm|symmetry; apply agregar_bandas_perm].
Qed.

(** X10. The two invoice views.  The open view holds exactly the open
    charges of the report (balance above 0) and the payments that
    reference one of them; the closed view holds exactly the paid
    charges (balance 0) and the payments that reference one of them.
    No charge is in both views. *)
Theorem X10_vistas_abiertas_cerradas (rep : Reporte) (r : fila_rep) :
  (In r (map base (_extraer_facturas_abiertas rep))
   <-> In r (r_rows rep)
       /\ (abierta r = true
           \/ es_abono (mov r) = true
              /\ exists c, In c (r_rows rep) /\ abierta c = true
                           /\ referencia (r_columns rep) (mov r) (mov c) = true))
  /\ (In r (map base (_extraer_facturas_cerradas rep))
      <-> In r (r_rows rep)
          /\ (pagada r = true
              \/ es_abono (mov r) = true
                 /\ exists c, In c (r_rows rep) /\ pagada c = true
                              /\ referencia (r_columns rep) (mov r) (mov c) = true))
  /\ (es_cargo (mov r) = true ->
      In r (map base (_extraer_facturas_abiertas rep)) ->
      ~ In r (map base (_extraer_facturas_cerradas rep))).
Proof.
  assert (Ha : In r (map base (_extraer_facturas_abiertas rep))
               <-> In r (r_rows rep)
                   /\ (abierta r = true
                       \/ es_abono (mov r) = true
                          /\ exists c, In c (r_rows rep) /\ abierta c = true
                                       /\ referencia (r_columns rep) (mov r) (mov c) = true)).
  { rewrite <- vista_spec. unfold _extraer_facturas_abiertas.
    now destruct (List.filter abierta (r_rows rep)). }
  assert (Hc : In r (map base (_extraer_facturas_cerradas rep))
               <-> In r (r_rows rep)
                   /\ (pagada r = true
                       \/ es_abono (mov r) = true
                          /\ exists c, In c (r_rows rep) /\ pagada c = true
                                       /\ referencia (r_columns rep) (mov r) (mov c) = true)).
  { rewrite <- vista_spec. unfold _extraer_facturas_cerradas.
    now destruct (List.filter pagada (r_rows rep)). }
  split; [exact Ha|]. split; [exact Hc|].
  intros Hcargo H1 H2. apply Ha in H1 as [_ H1]. apply Hc in H2 as [_ H2].
  pose proof (cargo_no_abono _ Hcargo) as Hno.
  destruct H1 as [H1|[H1 _]]; [|congruence].
  destruct H2 as [H2|[H2 _]]; [|congruence].
  apply pagada_no_abierta in H2. congruence.
Qed.

End VistasFacturas.

(** ** The report as a whole *)

Section ReporteCompleto.

Lemma df_filtrado_mov hoy df :
  Permutation (map mov (r_rows (df_filtrado hoy df))) (rows (_filtrar_movimientos df)).
Proof.
  unfold df_filtrado.
  rewrite <- (saldo_factura_filas (_filtrar_movimientos df)).
  set (rep := (_calcular_saldo_factura (_filtrar_movimientos df)).1).
  assert (H : forall l : list fila_rep, map mov l = map fst (map clave l)).
  { intros l. rewrite List.map_map. reflexivity. }
  rewrite (H (r_rows rep)), H, <- (metricas_ciclo_clave hoy rep).
  apply Permutation_map, saldo_cliente_clave.
Qed.

Lemma df_filtrado_no_cargo hoy df :
  Forall (fun r => es_cargo (mov r) = false ->
                   DELTA_RECAUDO r = None /\ DELTA_MORA r = None)
         (r_rows (df_filtrado hoy df)).
Proof.
  unfold df_filtrado. rewrite saldo_cliente_filas.
  apply cumsum_por_cliente_conserva; [intros r s H; exact H|].
  eapply Forall_perm; [apply Permutation_sym, sort_values_perm|].
  apply metricas_ciclo_no_cargo.
Qed.

(** X11. The report neither drops nor invents movements: [reporte_cxc]
    holds exactly the rows that survive the cancellation and advance
    filter, each once; the totals sheet holds the same rows in the same
    order with the same bands; and every row of the open and closed
    views is a row of [reporte_cxc]. *)
Theorem X11_reporte_conserva (hoy : Z) (df_crudo : DataFrame (option Q)) :
  let v := generar_reporte_cxc hoy df_crudo in
  Permutation (map (fun b => mov (base b)) (reporte_cxc v))
              (rows (_filtrar_movimientos (_preparar df_crudo)))
  /\ map fila_b (movimientos_totales_cxc v) = reporte_cxc v
  /\ (forall r, In r (map base (movimientos_abiertos_cxc v)) ->
                In r (map base (reporte_cxc v)))
  /\ (forall r, In r (map base (movimientos_cerrados_cxc v)) ->
                In r (map base (reporte_cxc v))).
Proof.
  cbv zeta. unfold generar_reporte_cxc.
  cbn [reporte_cxc movimientos_totales_cxc movimientos_abiertos_cxc
       movimientos_cerrados_cxc].
  set (filtrado := df_filtrado hoy (_preparar df_crudo)).
  pose proof (agregar_bandas_perm (r_columns filtrado) (r_rows filtrado)) as Hp.
  split; [|split; [|split]].
  - rewrite <- (List.map_map base mov).
    etransitivity; [apply Permutation_map, Hp|]. apply df_filtrado_mov.
  - unfold _agregar_zscores. rewrite List.map_map. cbn [fila_b]. apply List.map_id.
  - intros r Hr. apply (Permutation_in _ (Permutation_sym Hp)).
    unfold _extraer_facturas_abiertas in Hr.
    destruct (List.filter abierta (r_rows filtrado)) as [|x xs] eqn:E; [destruct Hr|].
    rewrite <- E in Hr. apply (Permutation_in _ (agregar_bandas_perm _ _)) in Hr.
    apply in_app_iff in Hr as [Hr|Hr]; [now apply filter_In in Hr|].
    now apply abonos_de_spec in Hr.
  - intros r Hr. apply (Permutation_in _ (Permutation_sym Hp)).
    unfold _extraer_facturas_cerradas in Hr.
    destruct (List.filter pagada (r_rows filtrado)) as [|x xs] eqn:E; [destruct Hr|].
    rewrite <- E in Hr. apply (Permutation_in _ (agregar_bandas_perm _ _)) in Hr.
    apply in_app_iff in Hr as [Hr|Hr]; [now apply filter_In in Hr|].
    now apply abonos_de_spec in Hr.
Qed.

End ReporteCompleto.

(** ** Outlier flags *)

Section Atipicos.

Lemma cuadrado_no_negativo (q : Q) : 0 <= q * q.
Proof. destruct q as [n d]. unfold Qle. cbn. nia. Qed.

Lemma cuadrado_mono (a b : Q) : 0 <= a -> a <= b -> a * a <= b * b.
Proof.
  intros Ha Hab. apply Qmult_le_compat_nonneg; split; assumption.
Qed.

Lemma suma_cuadrados_no_negativa (m : Q) xs :
  0 <= suma (map (fun x => (x - m) * (x - m)) xs).
Proof.
  induction xs as [|x xs IH]; [apply Qle_refl|].
  cbn [map]. rewrite suma_cons.
  pose proof (cuadrado_no_negativo (x - m)). lra.
Qed.

Lemma var_no_negativa xs : 0 <= var 1 xs.
Proof.
  destruct xs as [|x xs]; [vm_compute; discriminate|].
  unfold var. apply Qmult_le_0_compat; [apply suma_cuadrados_no_negativa|].
  apply Qinv_le_0_compat.
  change 0 with (inject_Z 0). rewrite <- Zle_Qle. cbn [length]. lia.
Qed.

Lemma zscore_supera_mono xs u u' v :
  u' <= u -> zscore_supera xs u v = true -> zscore_supera xs u' v = true.
Proof.
  intros Hu. unfold zscore_supera. rewrite !orb_true_iff, !Qlt_bool_iff, !Qle_bool_iff.
  pose proof (var_no_negativa xs) as Hv. set (V := var 1 xs) in *.
  set (d := (v - mean xs) * (v - mean xs)).
  intros [H|H]; [left; lra|].
  destruct (Qlt_le_dec u' 0) as [Hn|Hn]; [now left|right].
  assert (u' * u' <= u * u) by now apply cuadrado_mono.
  assert (u' * u' * V <= u * u * V) by (apply Qmult_le_compat_r; assumption).
  lra.
Qed.

Lemma omap_filter_cargo (col : fila_rep -> option Z) l :
  Forall (fun r => es_cargo (mov r) = false -> col r = None) l ->
  omap col (List.filter (fun r => es_cargo (mov r)) l) = omap col l.
Proof.
  induction 1 as [|r l Hr _ IH]; [reflexivity|].
  cbn [List.filter]. destruct (es_cargo (mov r)) eqn:E.
  - simpl. destruct (col r); [f_equal|]; exact IH.
  - simpl. rewrite (Hr eq_refl). exact IH.
Qed.

Lemma marcadas_delta u (col : fila_rep -> option Z) rep :
  Forall (fun r => es_cargo (mov r) = false -> col r = None) (map base rep) ->
  _detectar_atipicos_delta u col rep
  = map base
      (List.filter
         (fun b =>
            marcado
              (if (3 <=? length (dias_validos col (map base rep)))%nat
                  && std_positiva (dias_validos col (map base rep))
               then (fun x => zscore_supera (dias_validos col (map base rep)) u (de_entero x))
                      <$> col (base b)
               else None))
         rep).
Proof.
  intros HP. unfold _detectar_atipicos_delta.
  unfold dias_validos at 1 2 3. rewrite (omap_filter_cargo col _ HP).
  fold (dias_validos col (map base rep)). set (vals := dias_validos col (map base rep)).
  rewrite std_cero_no_positiva, Nat.ltb_antisym, <- negb_andb.
  destruct ((3 <=? length vals)%nat && std_positiva vals); cbn [negb].
  - rewrite <- (filter_map_comm base
                  (fun r => marcado ((fun x => zscore_supera vals u (de_entero x)) <$> col r))).
    rewrite filter_filter. apply List.filter_ext_in. intros r Hr.
    destruct (es_cargo (mov r)) eqn:E; cbn [andb].
    + destruct (col r) as [d|]; cbn; [|reflexivity].
      now destruct (zscore_supera vals u (de_entero d)).
    + rewrite (proj1 (List.Forall_forall _ _) HP r Hr E). reflexivity.
  - rewrite filter_nada; reflexivity.
Qed.

(** X12. Raising a z-score threshold can only shrink the set of flagged
    rows: whatever the auditor flags at a threshold is also flagged at
    any lower threshold, for sale amounts and for either delta. *)
Theorem X12_umbral_monotono (u u' : Q) (a b : option Q)
        (df : DataFrame (option Q)) (columna : fila_rep -> option Z)
        (rep : list fila_banda) :
  u' <= u ->
  (forall f, In f (_detectar_importes_atipicos (Config (Some u) a b) df) ->
             In f (_detectar_importes_atipicos (Config (Some u') a b) df))
  /\ (forall r, In r (_detectar_atipicos_delta u columna rep) ->
                In r (_detectar_atipicos_delta u' columna rep)).
Proof.
  intros Hu. split.
  - intros f. unfold _detectar_importes_atipicos.
    cbn [importe_zscore_umbral umbral_de default from_option]. unfold Datatypes.id.
    destruct (List.filter es_cargo (rows df)) as [|x xs]; [intros []|].
    destruct (_ || _); [intros []|].
    rewrite !filter_In. intros [Hf H]. split; [exact Hf|].
    destruct (IMPORTE f) as [v|]; [|discriminate].
    eapply zscore_supera_mono; eauto.
  - intros r. unfold _detectar_atipicos_delta.
    destruct (_ || _); [intros []|].
    rewrite !filter_In. intros [Hf H]. split; [exact Hf|].
    destruct (columna r) as [d|]; [|discriminate].
    eapply zscore_supera_mono; eauto.
Qed.

(** X13. The auditor and the report agree on the delta outliers: for a
    report produced by [generar_reporte_cxc] and one threshold, the rows
    the auditor lists as atypical DELTA_RECAUDO (DELTA_MORA) are, in the
    same order, the rows the report's z-score step flags with
    ATIPICO_DELTA_RECAUDO (ATIPICO_DELTA_MORA) = True. *)
Theorem X13_auditor_reporte_coinciden (hoy : Z) (df_crudo : DataFrame (option Q)) (u : Q) :
  let rep := reporte_cxc (generar_reporte_cxc hoy df_crudo) in
  _detectar_atipicos_delta u DELTA_RECAUDO rep
  = map (fun t => base (fila_b t))
        (List.filter (fun t => marcado (ATIPICO_DELTA_RECAUDO t)) (_agregar_zscores u rep))
  /\ _detectar_atipicos_delta u DELTA_MORA rep
     = map (fun t => base (fila_b t))
           (List.filter (fun t => marcado (ATIPICO_DELTA_MORA t)) (_agregar_zscores u rep)).
Proof.
  cbv zeta. set (rep := reporte_cxc (generar_reporte_cxc hoy df_crudo)).
  assert (HP : Forall (fun r => es_cargo (mov r) = false ->
                                DELTA_RECAUDO r = None /\ DELTA_MORA r = None)
                      (map base rep)).
  { unfold rep, generar_reporte_cxc. cbn [reporte_cxc].
    eapply Forall_perm; [apply Permutation_sym, agregar_bandas_perm|].
    apply df_filtrado_no_cargo. }
  split.
  - rewrite marcadas_delta.
    + unfold _agregar_zscores. rewrite filter_map_comm, List.map_map. reflexivity.
    + eapply List.Forall_impl; [|exact HP]. intros r H Hc. now apply H.
  - rewrite marcadas_delta.
    + unfold _agregar_zscores. rewrite filter_map_comm, List.map_map. reflexivity.
    + eapply List.Forall_impl; [|exact HP]. intros r H Hc. now apply H.
Qed.

End Atipicos.

(** ** Ranges of the summary indices *)

Section Indices.

Lemma suma_no_negativa l : Forall (fun x => 0 <= x) l -> 0 <= suma l.
Proof.
  induction 1 as [|x l Hx _ IH]; [apply Qle_refl|]. rewrite suma_cons. lra.
Qed.

Lemma suma_map_no_negativa {A} (f : A -> Q) l :
  Forall (fun x => 0 <= f x) l -> 0 <= suma (map f l).
Proof. intros H. apply suma_no_negativa, List.Forall_map. exact H. Qed.

Lemma suma_filter_le {A} (f : A -> Q) (h : A -> bool) l :
  Forall (fun x => 0 <= f x) l ->
  0 <= suma (map f (List.filter h l))
  /\ suma (map f (List.filter h l)) <= suma (map f l).
Proof.
  induction 1 as [|x l Hx _ [IH0 IH]]; [split; apply Qle_refl|].
  cbn [List.filter]. destruct (h x); cbn [map]; rewrite ?suma_cons; split; lra.
Qed.

Lemma porcentaje_acotado (a b : Q) :
  0 <= a -> a <= b -> 0 < b -> 0 <= a / b * 100 /\ a / b * 100 <= 100.
Proof.
  intros Ha Hab Hb.
  assert (H0 : 0 <= a / b) by (apply Qle_shift_div_l; lra).
  assert (H1 : a / b <= 1) by (apply Qle_shift_div_r; lra).
  split; lra.
Qed.

Lemma round_cien d : round d 100 == 100.
Proof.
  apply round_id. exists (100 * 10 ^ Z.of_nat d)%Z.
  unfold diez. rewrite inject_Z_mult. field.
  pose proof (diez_pos d) as H. unfold diez in H. lra.
Qed.

Lemma round_acotado d x : 0 <= x -> x <= 100 -> 0 <= round d x /\ round d x <= 100.
Proof.
  intros H0 H1. split.
  - rewrite <- (round_0 d). now apply round_mono.
  - rewrite <- (round_cien d). now apply round_mono.
Qed.

(** X14. On a ledger without negative amounts the summary indices stay
    in range: the DSO is never negative, the delinquency index lies
    between 0 and 100, and so does the CEI as long as the ledger
    balance (charges minus payments) is not negative. *)
Theorem X14_indices_acotados (df : DataFrame Q) (saldos : list fila_saldo)
        (hoy inicio dias : Z) :
  Forall (fun f => 0 <= _MONTO f) (rows df) ->
  Forall (fun s => 0 <= SALDO s) saldos ->
  (0 <= dias)%Z ->
  0 <= DSO_VALOR (_calcular_dso df saldos hoy inicio dias)
  /\ (0 <= saldo_actual (_calcular_cei df hoy inicio) ->
      0 <= CEI_VALOR (_calcular_cei df hoy inicio)
      /\ CEI_VALOR (_calcular_cei df hoy inicio) <= 100)
  /\ 0 <= MOROSIDAD_VALOR (_calcular_morosidad saldos hoy)
  /\ MOROSIDAD_VALOR (_calcular_morosidad saldos hoy) <= 100.
Proof.
  intros Hm Hs Hd. split; [|split].
  - unfold _calcular_dso. cbn [DSO_VALOR].
    apply Qle_trans with (round 1 0); [rewrite round_0; apply Qle_refl|].
    apply round_mono.
    destruct (Qlt_bool 0 _) eqn:E; [|apply Qle_refl].
    apply Qlt_bool_iff in E.
    apply Qmult_le_0_compat.
    + apply Qle_shift_div_l; [exact E|].
      rewrite Qmult_0_l. now apply suma_map_no_negativa.
    + unfold de_entero. change 0 with (inject_Z 0). now rewrite <- Zle_Qle.
  - intros Hsaldo.
    change (CEI_VALOR (_calcular_cei df hoy inicio))
      with (round 1 (cei (_calcular_cei df hoy inicio))).
    rewrite cei_por_cobros. set (k := _calcular_cei df hoy inicio) in *.
    assert (Hc : 0 <= cobros_periodo k).
    { apply (suma_filter_le _MONTO _ (rows df) Hm). }
    apply round_acotado; unfold cei_de;
      destruct (Qlt_bool 0 _) eqn:E; try lra;
      apply Qlt_bool_iff in E;
      apply (porcentaje_acotado (cobros_periodo k) (saldo_actual k + cobros_periodo k));
      lra.
  - unfold _calcular_morosidad. cbn [MOROSIDAD_VALOR].
    apply round_acotado;
      destruct (Qlt_bool 0 _) eqn:E; try lra;
      apply Qlt_bool_iff in E;
      destruct (suma_filter_le SALDO
                  (fun s => match FECHA_VENCIMIENTO (cargo s) with
                            | Some v => (v <? hoy)%Z
                            | None => false
                            end) saldos Hs) as [H0 H1];
      now apply porcentaje_acotado.
Qed.

End Indices.

(** ** Tables per client *)

Section PorCliente.

Lemma Qlt_bool_false x y : Qlt_bool x y = false <-> y <= x.
Proof. unfold Qlt_bool. rewrite negb_false_iff. apply Qle_bool_iff. Qed.

Lemma Qle_bool_false x y : Qle_bool x y = false <-> y < x.
Proof.
  split.
  - intros H. destruct (Qlt_le_dec y x) as [Hlt|Hle]; [exact Hlt|].
    apply Qle_bool_iff in Hle. congruence.
  - intros H. apply not_true_iff_false. intros Hle. apply Qle_bool_iff in Hle. lra.
Qed.

Lemma Qeq_bool_false x y : Qeq_bool x y = false <-> ~ x == y.
Proof.
  split.
  - intros H Heq. apply Qeq_bool_iff in Heq. congruence.
  - intros H. apply not_true_iff_false. intros Heq. now apply Qeq_bool_iff in Heq.
Qed.

(** The client names [groupby("NOMBRE_CLIENTE")] iterates over. *)
Lemma claves_spec (saldos : list fila_saldo) :
  let claves :=
    sort_values (fun a b => no_mayor (String.compare a b))
                (remove_dups (omap (fun s => NOMBRE_CLIENTE (cargo s)) saldos)) in
  List.NoDup claves
  /\ forall c, In c claves <-> exists s, In s saldos /\ NOMBRE_CLIENTE (cargo s) = Some c.
Proof.
  cbv zeta. split.
  - eapply Permutation_NoDup; [apply Permutation_sym, sort_values_perm|].
    apply NoDup_ListNoDup, NoDup_remove_dups.
  - intros c. split.
    + intros H. apply (Permutation_in _ (sort_values_perm _ _)) in H.
      apply list_elem_of_In, elem_of_remove_dups, list_elem_of_omap in H
        as (s & Hs & E).
      exists s. split; [now apply list_elem_of_In|exact E].
    + intros (s & Hs & E).
      apply (Permutation_in _ (Permutation_sym (sort_values_perm _ _))).
      apply list_elem_of_In, elem_of_remove_dups, list_elem_of_omap.
      exists s. split; [now apply list_elem_of_In|exact E].
Qed.

Lemma saldo_por_cliente_claves saldos :
  List.NoDup (map fst (saldo_por_cliente saldos))
  /\ forall c, In c (map fst (saldo_por_cliente saldos))
               <-> exists s, In s saldos /\ NOMBRE_CLIENTE (cargo s) = Some c.
Proof.
  unfold saldo_por_cliente. rewrite List.map_map. cbn [fst]. rewrite List.map_id.
  apply claves_spec.
Qed.

Lemma saldo_por_cliente_valor saldos p :
  In p (saldo_por_cliente saldos) ->
  p.2 = round 2 (suma (map SALDO
                   (List.filter (fun s => bool_decide (NOMBRE_CLIENTE (cargo s) = Some p.1))
                                saldos))).
Proof.
  unfold saldo_por_cliente. intros H. apply in_map_iff in H as (c & <- & _). reflexivity.
Qed.

Lemma concentracion_pares saldos :
  _calcular_concentracion saldos <> [] ->
  map (fun r => (CLIENTE r, SALDO_CLIENTE_TOTAL r)) (_calcular_concentracion saldos)
  = sort_values (fun a b => Qle_bool b.2 a.2) (saldo_por_cliente saldos).
Proof.
  unfold _calcular_concentracion.
  set (por_cliente := sort_values _ (saldo_por_cliente saldos)).
  destruct (Qle_bool _ 0); [congruence|]. intros _.
  set (pct := map _ por_cliente). set (acumulado := map (round 2) (cumsum 0 pct)).
  rewrite List.map_map. cbn [CLIENTE SALDO_CLIENTE_TOTAL].
  assert (Hp : length por_cliente = length pct) by (unfold pct; now rewrite length_map).
  assert (Ha : length (combine por_cliente pct) = length acumulado).
  { unfold acumulado. rewrite length_combine, length_map, length_cumsum, Hp.
    apply Nat.min_id. }
  rewrite <- (map_fst_combine por_cliente pct Hp) at 2.
  rewrite <- (map_fst_combine (combine por_cliente pct) acumulado Ha) at 2.
  rewrite List.map_map. apply List.map_ext. now intros [[[c s] p] a].
Qed.

Lemma concentracion_clasificacion saldos :
  Forall (fun r => CLASIFICACION r = clasificar (PCT_ACUMULADO r))
         (_calcular_concentracion saldos).
Proof.
  unfold _calcular_concentracion. destruct (Qle_bool _ 0); [constructor|].
  apply List.Forall_forall. intros r Hr. apply in_map_iff in Hr as (t & <- & _).
  reflexivity.
Qed.

(** X15. The concentration table has one row per client that has an
    invoice, each with the client's rounded total balance, ordered from
    the largest balance to the smallest, and each row's class is the
    class of its cumulative percentage.  The table is empty exactly when
    the balances of all clients add up to 0 or less. *)
Theorem X15_concentracion_tabla (saldos : list fila_saldo) :
  let t := _calcular_concentracion saldos in
  List.NoDup (map CLIENTE t)
  /\ StronglySorted (fun a b => SALDO_CLIENTE_TOTAL b <= SALDO_CLIENTE_TOTAL a) t
  /\ Forall (fun r =>
               (exists s, In s saldos /\ NOMBRE_CLIENTE (cargo s) = Some (CLIENTE r))
               /\ SALDO_CLIENTE_TOTAL r
                  = round 2 (suma (map SALDO
                              (List.filter
                                 (fun s => bool_decide
                                             (NOMBRE_CLIENTE (cargo s) = Some (CLIENTE r)))
                                 saldos)))
               /\ CLASIFICACION r = clasificar (PCT_ACUMULADO r))
            t
  /\ (t <> [] ->
      forall s c, In s saldos -> NOMBRE_CLIENTE (cargo s) = Some c -> In c (map CLIENTE t))
  /\ (t = [] <-> suma (map snd (saldo_por_cliente saldos)) <= 0).
Proof.
  cbv zeta.
  assert (Hvacia : _calcular_concentracion saldos = []
                   <-> suma (map snd (saldo_por_cliente saldos)) <= 0).
  { unfold _calcular_concentracion.
    set (por_cliente := sort_values _ (saldo_por_cliente saldos)).
    assert (Hs : suma (map snd por_cliente) == suma (map snd (saldo_por_cliente saldos))).
    { apply suma_perm, Permutation_map, sort_values_perm. }
    destruct (Qle_bool _ 0) eqn:E.
    - split; [intros _|reflexivity]. apply Qle_bool_iff in E. now rewrite <- Hs.
    - split; [|intros H; apply Qle_bool_false in E; lra].
      intros H. apply map_eq_nil in H.
      assert (Hl : length por_cliente = 0%nat).
      { apply (f_equal (@length _)) in H.
        rewrite !length_combine, !length_map, length_cumsum, length_map in H.
        cbn [length] in H. lia. }
      apply length_zero_iff_nil in Hl. rewrite Hl in E. discriminate E. }
  destruct (Nat.eq_dec (length (_calcular_concentracion saldos)) 0%nat) as [Hn|Hn];
    [apply length_zero_iff_nil in Hn
    |assert (Hn' : _calcular_concentracion saldos <> [])
       by (intros H; now rewrite H in Hn); clear Hn; rename Hn' into Hn].
  { split; [|split; [|split; [|split; [congruence|exact Hvacia]]]];
      rewrite Hn; constructor. }
  pose proof (concentracion_pares saldos Hn) as Hp.
  set (t := _calcular_concentracion saldos) in *.
  assert (Hperm : Permutation (map (fun r => (CLIENTE r, SALDO_CLIENTE_TOTAL r)) t)
                              (saldo_por_cliente saldos)).
  { rewrite Hp. apply sort_values_perm. }
  assert (Hc : Permutation (map CLIENTE t) (map fst (saldo_por_cliente saldos))).
  { change (map CLIENTE t)
      with (map (fun r => (CLIENTE r, SALDO_CLIENTE_TOTAL r).1) t).
    rewrite <- (List.map_map (fun r => (CLIENTE r, SALDO_CLIENTE_TOTAL r)) fst t).
    now apply Permutation_map. }
  destruct (saldo_por_cliente_claves saldos) as [Hnd Hin].
  split; [|split; [|split; [|split]]].
  - eapply Permutation_NoDup; [apply Permutation_sym, Hc|exact Hnd].
  - apply (proj2 (StronglySorted_map (fun r => (CLIENTE r, SALDO_CLIENTE_TOTAL r))
                    (fun a b => b.2 <= a.2) t)).
    rewrite Hp. apply (sort_values_descendente snd).
  - apply List.Forall_forall. intros r Hr. split; [|split].
    + apply Hin. apply (Permutation_in _ Hc). now apply in_map.
    + apply (saldo_por_cliente_valor saldos (CLIENTE r, SALDO_CLIENTE_TOTAL r)).
      apply (Permutation_in _ Hperm).
      now apply (in_map (fun r => (CLIENTE r, SALDO_CLIENTE_TOTAL r))).
    + revert r Hr. apply List.Forall_forall, concentracion_clasificacion.
  - intros _ s c Hs E. apply (Permutation_in _ (Permutation_sym Hc)).
    apply Hin. now exists s.
  - exact Hvacia.
Qed.

Lemma foldr_max_positivo l : forall x,
  (0 < foldr Z.max x l)%Z <-> (0 < x)%Z \/ exists y, In y l /\ (0 < y)%Z.
Proof.
  induction l as [|y l IH]; intros x; cbn [foldr].
  - split; [now left|]. intros [H|(y & [] & _)]. exact H.
  - rewrite Z.max_lt_iff, IH. split.
    + intros [H|[H|(z & Hz & H)]].
      * right. exists y. split; [now left|exact H].
      * now left.
      * right. exists z. split; [now right|exact H].
    + intros [H|(z & [->|Hz] & H)].
      * right. now left.
      * now left.
      * right. right. now exists z.
Qed.

Lemma maximo_Z_positivo l : (0 < maximo_Z l)%Z <-> exists y, In y l /\ (0 < y)%Z.
Proof.
  destruct l as [|x l]; cbn [maximo_Z].
  - split; [lia|]. intros (y & [] & _).
  - rewrite foldr_max_positivo. split.
    + intros [H|(y & Hy & H)]; [exists x|exists y]; split; auto; [now left|now right].
    + intros (y & [->|Hy] & H); [now left|right; now exists y].
Qed.

Lemma filter_no_vacio {A} (h : A -> bool) l :
  (0 < length (List.filter h l))%nat <-> exists x, In x l /\ h x = true.
Proof.
  split.
  - destruct (List.filter h l) as [|x xs] eqn:E; [cbn; lia|]. intros _.
    exists x. apply filter_In. rewrite E. now left.
  - intros (x & Hx & Hh).
    assert (Hin : In x (List.filter h l)) by (apply filter_In; now split).
    destruct (List.filter h l); [destruct Hin|cbn; lia].
Qed.

Lemma filter_length_le {A} (h : A -> bool) l :
  (length (List.filter h l) <= length l)%nat.
Proof.
  induction l as [|x l IH]; [reflexivity|].
  cbn [List.filter]. destruct (h x); cbn [length]; lia.
Qed.

Lemma saldos_por_factura_decimales (df : DataFrame Q) :
  Forall (fun s => decimales 2 (SALDO s)) (_saldos_por_factura df).
Proof.
  unfold _saldos_por_factura. apply List.Forall_forall. intros s Hs.
  apply in_map_iff in Hs as (c & <- & _). cbn [SALDO]. apply round_decimales.
Qed.

(** X16. The delinquency table has one row per client that has an
    invoice, ordered from the largest overdue balance to the smallest.
    In every row the number of invoices is at least 1 and bounds the
    number of overdue ones, and the largest number of days overdue is
    positive exactly when some invoice is overdue.  When the invoice
    balances have 2 decimals (as those of [_saldos_por_factura] do) the
    current and the overdue balance add up to the total; when no
    balance is negative the overdue percentage lies between 0 and 100. *)
Theorem X16_morosidad_por_cliente (saldos : list fila_saldo) (hoy : Z) :
  let t := _calcular_morosidad_por_cliente saldos hoy in
  List.NoDup (map MC_CLIENTE t)
  /\ (forall c, In c (map MC_CLIENTE t)
                <-> exists s, In s saldos /\ NOMBRE_CLIENTE (cargo s) = Some c)
  /\ StronglySorted (fun a b => SALDO_VENCIDO b <= SALDO_VENCIDO a) t
  /\ Forall (fun r =>
               (1 <= NUM_FACTURAS r)%nat
               /\ (NUM_VENCIDAS r <= NUM_FACTURAS r)%nat
               /\ ((0 < DIAS_VENCIDO_MAX r)%Z <-> (0 < NUM_VENCIDAS r)%nat))
            t
  /\ (Forall (fun s => decimales 2 (SALDO s)) saldos ->
      Forall (fun r => SALDO_VIGENTE r + SALDO_VENCIDO r == SALDO_TOTAL r) t)
  /\ (Forall (fun s => 0 <= SALDO s) saldos ->
      Forall (fun r => 0 <= PCT_VENCIDO r /\ PCT_VENCIDO r <= 100) t).
Proof.
  cbv zeta. unfold _calcular_morosidad_por_cliente.
  set (claves := sort_values _ (remove_dups _)).
  set (fila_de := fun c : string => FilaMorosidad c _ _ _ _ _ _ _).
  pose proof (sort_values_perm
                (fun a b => Qle_bool (SALDO_VENCIDO b) (SALDO_VENCIDO a))
                (map fila_de claves)) as Hperm.
  destruct (claves_spec saldos) as [Hnd Hin]. fold claves in Hnd, Hin.
  assert (Hc : Permutation
                 (map MC_CLIENTE
                    (sort_values (fun a b => Qle_bool (SALDO_VENCIDO b) (SALDO_VENCIDO a))
                                 (map fila_de claves)))
                 claves).
  { etransitivity; [apply Permutation_map, Hperm|].
    rewrite List.map_map. cbn [MC_CLIENTE fila_de]. now rewrite List.map_id. }
  assert (Hfilas : forall P : fila_morosidad -> Prop,
             (forall c, In c claves -> P (fila_de c)) ->
             Forall P (sort_values
                         (fun a b => Qle_bool (SALDO_VENCIDO b) (SALDO_VENCIDO a))
                         (map fila_de claves))).
  { intros P HP. eapply Forall_perm; [apply Permutation_sym, Hperm|].
    apply List.Forall_forall. intros r Hr. apply in_map_iff in Hr as (c & <- & Hc').
    now apply HP. }
  split; [|split; [|split; [|split; [|split]]]].
  - eapply Permutation_NoDup; [apply Permutation_sym, Hc|exact Hnd].
  - intros c. rewrite <- Hin. split; apply Permutation_in; [exact Hc|now symmetry].
  - apply (sort_values_descendente SALDO_VENCIDO).
  - apply Hfilas. intros c Hcl. unfold fila_de.
    cbn [NUM_FACTURAS NUM_VENCIDAS DIAS_VENCIDO_MAX].
    set (grupo := List.filter _ saldos). split; [|split].
    + apply Hin in Hcl as (s & Hs & E).
      assert (Hg : In s grupo).
      { apply filter_In. split; [exact Hs|]. now apply bool_decide_eq_true. }
      destruct grupo; [destruct Hg|cbn; lia].
    + apply filter_length_le.
    + rewrite maximo_Z_positivo, filter_no_vacio. split.
      * intros (y & Hy & H). apply in_map_iff in Hy as (s & <- & Hs).
        exists s. split; [exact Hs|]. now apply Z.ltb_lt.
      * intros (s & Hs & H). exists (DIAS_VENCIDO hoy s).
        split; [now apply in_map|]. now apply Z.ltb_lt.
  - intros Hdec. apply Hfilas. intros c _. unfold fila_de.
    cbn [SALDO_VIGENTE SALDO_VENCIDO SALDO_TOTAL].
    set (grupo := List.filter _ saldos).
    assert (Hg : Forall (fun s => decimales 2 (SALDO s)) grupo).
    { apply List.Forall_forall. intros s Hs. apply filter_In in Hs as [Hs _].
      revert s Hs. now apply List.Forall_forall. }
    rewrite !round_id.
    + rewrite <- suma_map_plus. apply suma_map_ext_in. intros s _.
      destruct (0 <? DIAS_VENCIDO hoy s)%Z; ring.
    + apply decimales_suma, List.Forall_map. exact Hg.
    + apply decimales_suma, List.Forall_map.
      eapply List.Forall_impl; [|exact Hg]. intros s Hs.
      destruct (0 <? DIAS_VENCIDO hoy s)%Z; [exact Hs|apply decimales_0].
    + apply decimales_suma, List.Forall_map.
      eapply List.Forall_impl; [|exact Hg]. intros s Hs.
      destruct (0 <? DIAS_VENCIDO hoy s)%Z; [apply decimales_0|exact Hs].
  - intros Hpos. apply Hfilas. intros c _. unfold fila_de. cbn [PCT_VENCIDO].
    set (grupo := List.filter _ saldos).
    assert (Hg : Forall (fun s => 0 <= SALDO s) grupo).
    { apply List.Forall_forall. intros s Hs. apply filter_In in Hs as [Hs _].
      revert s Hs. now apply List.Forall_forall. }
    set (venc := suma (map (fun s => if (0 <? DIAS_VENCIDO hoy s)%Z then SALDO s else 0) grupo)).
    set (tot := suma (map SALDO grupo)).
    assert (H0 : 0 <= venc).
    { apply suma_map_no_negativa. eapply List.Forall_impl; [|exact Hg].
      intros s Hs. destruct (0 <? DIAS_VENCIDO hoy s)%Z; [exact Hs|apply Qle_refl]. }
    assert (H1 : venc <= tot).
    { unfold venc, tot. clear -Hg. induction Hg as [|s l Hs _ IH]; [apply Qle_refl|].
      cbn [map]. rewrite !suma_cons.
      destruct (0 <? DIAS_VENCIDO hoy s)%Z; lra. }
    assert (R0 : 0 <= round 2 venc).
    { apply Qle_trans with (round 2 0); [rewrite round_0; apply Qle_refl|].
      now apply round_mono. }
    assert (R1 : round 2 venc <= round 2 tot) by now apply round_mono.
    destruct (Qlt_bool 0 (round 2 tot)) eqn:E; [|split; [apply Qle_refl|lra]].
    apply Qlt_bool_iff in E.
    apply round_acotado; now apply porcentaje_acotado.
Qed.

(** X17. The credit-limit table is empty when the query has no
    LIMITE_CREDITO column; otherwise it has one row per client with an
    invoice, ordered from the largest balance to the smallest.  In every
    row the alert is SIN_LIMITE exactly when the limit is 0; there is a
    utilisation exactly when the limit is positive, and then the alert
    follows the utilisation (above 100, 90 to 100, 70 to below 90,
    below 70); a negative limit yields no utilisation and the alert
    NORMAL. *)
Theorem X17_limite_credito (df : DataFrame Q) (saldos : list fila_saldo) :
  let t := _calcular_limite_credito df saldos in
  (col_LIMITE_CREDITO (columns df) = false -> t = [])
  /\ (col_LIMITE_CREDITO (columns df) = true ->
      Permutation (map (fun r => (LC_CLIENTE r, LC_SALDO r)) t) (saldo_por_cliente saldos))
  /\ StronglySorted (fun a b => LC_SALDO b <= LC_SALDO a) t
  /\ Forall (fun r =>
               (ALERTA r = "SIN_LIMITE" <-> LC_LIMITE_CREDITO r == 0)
               /\ (UTILIZACION_PCT r = None <-> LC_LIMITE_CREDITO r <= 0)
               /\ (LC_LIMITE_CREDITO r < 0 -> ALERTA r = "NORMAL")
               /\ (forall u, UTILIZACION_PCT r = Some u ->
                     u = round 1 (LC_SALDO r / LC_LIMITE_CREDITO r * 100)
                     /\ (ALERTA r = "SOBRE_LIMITE" <-> 100 < u)
                     /\ (ALERTA r = "CRITICO" <-> 90 <= u /\ u <= 100)
                     /\ (ALERTA r = "ALTO" <-> 70 <= u /\ u < 90)
                     /\ (ALERTA r = "NORMAL" <-> u < 70))
               /\ DISPONIBLE r = round 2 (LC_LIMITE_CREDITO r - LC_SALDO r))
            t.
Proof.
  cbv zeta. unfold _calcular_limite_credito.
  destruct (col_LIMITE_CREDITO (columns df)); cbn [negb].
  2:{ split; [reflexivity|]. split; [discriminate|]. split; constructor. }
  set (fila_de := fun p : string * Q => FilaLimite p.1 p.2 _ _ _ _).
  pose proof (sort_values_perm (fun a b => Qle_bool (LC_SALDO b) (LC_SALDO a))
                (map fila_de (saldo_por_cliente saldos))) as Hperm.
  split; [discriminate|]. split; [|split].
  - intros _. etransitivity; [apply Permutation_map, Hperm|].
    rewrite List.map_map. cbn [LC_CLIENTE LC_SALDO fila_de].
    rewrite <- (List.map_id (saldo_por_cliente saldos)) at 2.
    apply Permutation_refl'. apply List.map_ext. now intros [c s].
  - apply (sort_values_descendente LC_SALDO).
  - eapply Forall_perm; [apply Permutation_sym, Hperm|].
    apply List.Forall_forall. intros r Hr. apply in_map_iff in Hr as (p & <- & _).
    unfold fila_de.
    cbn [ALERTA LC_LIMITE_CREDITO UTILIZACION_PCT LC_SALDO DISPONIBLE].
    set (lim := default 0 (maximo _)).
    unfold np_select. cbn [List.find fst snd].
    destruct (Qeq_bool lim 0) eqn:E0.
    + apply Qeq_bool_iff in E0.
      assert (E1 : Qlt_bool 0 lim = false) by (apply Qlt_bool_false; lra).
      rewrite E1. split; [tauto|]. split; [split; [lra|reflexivity]|].
      split; [lra|]. split; [discriminate|reflexivity].
    + apply Qeq_bool_false in E0.
      destruct (Qlt_bool 0 lim) eqn:E1.
      * apply Qlt_bool_iff in E1.
        split; [split; [|tauto]|]. 
        { set (u := round 1 (p.2 / lim * 100)).
          destruct (Qlt_bool 100 u); [discriminate|].
          destruct (Qle_bool 90 u); [discriminate|].
          destruct (Qle_bool 70 u); discriminate. }
        split; [split; [discriminate|lra]|]. split; [lra|].
        split; [|reflexivity].
        intros u [= <-]. split; [reflexivity|].
        set (u := round 1 (p.2 / lim * 100)).
        destruct (Qlt_bool 100 u) eqn:E2.
        { apply Qlt_bool_iff in E2.
          split; [tauto|]. split; [split; [discriminate|lra]|].
          split; [split; [discriminate|lra]|]. split; [discriminate|lra]. }
        apply Qlt_bool_false in E2.
        destruct (Qle_bool 90 u) eqn:E3.
        { apply Qle_bool_iff in E3.
          split; [split; [discriminate|lra]|]. split; [tauto|].
          split; [split; [discriminate|lra]|]. split; [discriminate|lra]. }
        apply Qle_bool_false in E3.
        destruct (Qle_bool 70 u) eqn:E4.
        { apply Qle_bool_iff in E4.
          split; [split; [discriminate|lra]|]. split; [split; [discriminate|lra]|].
          split; [tauto|]. split; [discriminate|lra]. }
        apply Qle_bool_false in E4.
        split; [split; [discriminate|lra]|]. split; [split; [discriminate|lra]|].
        split; [split; [discriminate|lra]|]. tauto.
      * apply Qlt_bool_false in E1.
        split; [split; [discriminate|tauto]|]. split; [tauto|].
        split; [reflexivity|]. split; [discriminate|reflexivity].
Qed.

End PorCliente.

(** ** Data quality *)

Section CalidadDatos.

Context {V : Type} (igual : V -> V -> bool).

Lemma distintos_length (l : list V) : (length (distintos igual l) <= length l)%nat.
Proof.
  induction l as [|x l IH]; [reflexivity|].
  cbn [distintos]. destruct (existsb (igual x) l); cbn [length]; lia.
Qed.

Lemma nulos_y_validos (col : list (option V)) :
  (length (List.filter isna col) + length (omap (fun x => x) col))%nat = length col.
Proof.
  induction col as [|[x|] col IH]; [reflexivity| |]; simpl in *.
  - rewrite Nat.add_succ_r. now f_equal.
  - now f_equal.
Qed.

(** X18. The data-quality table has one row per column, in the order of
    the columns.  For a table whose columns all have [total] cells, in
    every row the nulls and the distinct values together do not exceed
    the number of records, the percentage of nulls lies between 0 and
    100, it is 0 when there is no null (or no record at all) and 100
    when every cell is null. *)
Theorem X18_calidad_datos (total : nat) (df : list (string * list (option V))) :
  Forall (fun c => length c.2 = total) df ->
  map COLUMNA (_evaluar_calidad_datos igual total df) = map fst df
  /\ Forall (fun r =>
               TOTAL_REGISTROS r = total
               /\ (NULOS r + VALORES_UNICOS r <= total)%nat
               /\ 0 <= PCT_NULOS r /\ PCT_NULOS r <= 100
               /\ (NULOS r = 0%nat -> PCT_NULOS r == 0)
               /\ (NULOS r = total -> (0 < total)%nat -> PCT_NULOS r == 100))
            (_evaluar_calidad_datos igual total df).
Proof.
  intros Hlen. unfold _evaluar_calidad_datos. split.
  - rewrite List.map_map. reflexivity.
  - apply List.Forall_forall. intros r Hr. apply in_map_iff in Hr as (c & <- & Hc).
    pose proof (proj1 (List.Forall_forall _ _) Hlen c Hc) as Hl. cbn beta in Hl.
    unfold calidad_columna.
    cbn [TOTAL_REGISTROS NULOS VALORES_UNICOS PCT_NULOS].
    pose proof (nulos_y_validos c.2) as Hn.
    pose proof (distintos_length (omap (fun x => x) c.2)) as Hd.
    set (nulos := length (List.filter isna c.2)) in *.
    split; [reflexivity|]. split; [lia|].
    destruct (Nat.ltb_spec 0 total) as [Hpos|Hcero].
    + assert (Ht : 0 < inject_Z (Z.of_nat total)).
      { change 0 with (inject_Z 0). rewrite <- Zlt_Qlt. lia. }
      assert (Hn0 : 0 <= inject_Z (Z.of_nat nulos)).
      { change 0 with (inject_Z 0). rewrite <- Zle_Qle. lia. }
      assert (Hnt : inject_Z (Z.of_nat nulos) <= inject_Z (Z.of_nat total)).
      { rewrite <- Zle_Qle. lia. }
      destruct (porcentaje_acotado _ _ Hn0 Hnt Ht) as [P0 P1].
      destruct (round_acotado 2 _ P0 P1) as [R0 R1].
      split; [exact R0|]. split; [exact R1|]. split.
      * intros E. rewrite E. cbn [Z.of_nat].
        transitivity (round 2 0); [|apply round_0].
        apply round_comp. unfold Qdiv. ring.
      * intros E _. rewrite E.
        transitivity (round 2 100); [|apply round_cien].
        apply round_comp. field. lra.
    + split; [apply Qle_refl|]. split; [discriminate|].
      split; [reflexivity|]. intros _ H. lia.
Qed.

End CalidadDatos.

(** ** Aging buckets *)

Section Antiguedad.

Lemma en_rango_cubre m (rangos : list rango) : forall desde,
  cubre desde rangos = true -> (desde <= m)%Z ->
  exists r, List.find fst (map (fun r => (en_rango m r, r.2)) rangos)
            = Some (true, r.2)
            /\ In r rangos /\ en_rango m r = true.
Proof.
  induction rangos as [|r resto IH]; intros desde Hc Hm; [discriminate|].
  cbn [cubre] in Hc. apply andb_true_iff in Hc as [Hmin Hresto].
  apply Z.leb_le in Hmin. cbn [map List.find fst].
  destruct (en_rango m r) eqn:E.
  - exists r. split; [reflexivity|]. split; [now left|exact E].
  - unfold en_rango in E. destruct r.1.2 as [max_d|].
    + apply andb_false_iff in E.
      destruct (IH (max_d + 1)%Z Hresto) as (r' & Hf & Hin & Hr'); [lia|].
      exists r'. split; [exact Hf|]. split; [now right|exact Hr'].
    + apply Z.ltb_ge in E. lia.
Qed.

(** X19. The aging bucket of an invoice: without the DELTA_MORA column
    it is "Sin datos"; a delay of 0 days or less is "Por vencer" whatever
    the configured ranges say, so a range that starts at day 0 never
    receives day 0; a missing delay is "Sin clasificar", and "Por
    vencer" once [_preparar] has filled it with 0.  When the configured
    ranges leave no gap from day 1 on, every positive delay gets the
    label of a configured range that contains it. *)
Theorem X19_bucket_mora (rangos : list rango) (m : Z) :
  (forall mora, _bucket_mora rangos false mora = "Sin datos")
  /\ ((m <= 0)%Z -> _bucket_mora rangos true (Some m) = "Por vencer")
  /\ _bucket_mora rangos true None = "Sin clasificar"
  /\ _bucket_mora rangos true (mora_preparada None) = "Por vencer"
  /\ (cubre 1 rangos = true -> (0 < m)%Z ->
      exists r, In r rangos
                /\ _bucket_mora rangos true (Some m) = r.2
                /\ (r.1.1 <= m)%Z
                /\ forall max_d, r.1.2 = Some max_d -> (m <= max_d)%Z).
Proof.
  split; [reflexivity|]. split; [|split; [reflexivity|split; [reflexivity|]]].
  - intros Hm. unfold _bucket_mora, np_select. cbn [negb List.find fst snd].
    now rewrite (proj2 (Z.leb_le m 0) Hm).
  - intros Hc Hm.
    destruct (en_rango_cubre m rangos 1 Hc) as (r & Hf & Hin & Hr); [lia|].
    exists r. split; [exact Hin|]. split.
    + unfold _bucket_mora, np_select. cbn [negb List.find fst].
      rewrite (proj2 (Z.leb_gt m 0)) by lia. now rewrite Hf.
    + unfold en_rango in Hr. destruct r.1.2 as [max_d|].
      * apply andb_true_iff in Hr as [H1 H2].
        apply Z.leb_le in H1, H2. split; [exact H1|]. now intros ? [= <-].
      * apply Z.ltb_lt in Hr. split; [lia|discriminate].
Qed.

End Antiguedad.

(** ** Selection helpers of the dashboard *)

Section Seleccion.

Lemma StronglySorted_estricto {A} (cmp : A -> A -> comparison) l :
  (forall a b, cmp a b = Eq -> a = b) ->
  List.NoDup l ->
  StronglySorted (en_orden cmp) l ->
  StronglySorted (fun a b => cmp a b = Lt) l.
Proof.
  intros Heq Hnd Hs. induction Hs as [|x l Hs IH Hx]; constructor.
  - apply IH. now inversion Hnd.
  - apply List.Forall_forall. intros y Hy.
    pose proof (proj1 (List.Forall_forall _ _) Hx y Hy) as H. unfold en_orden in H.
    destruct (cmp x y) eqn:E; [|reflexivity|discriminate].
    apply Heq in E. subst y. inversion Hnd. contradiction.
Qed.

Lemma ordenados_unicos_spec (col : list (option string)) :
  StronglySorted (fun a b => String.compare a b = Lt) (ordenados_unicos col)
  /\ forall c, In c (ordenados_unicos col) <-> In (Some c) col.
Proof.
  unfold ordenados_unicos.
  assert (Hin : forall c,
             In c (sort_values (fun a b => no_mayor (String.compare a b))
                               (remove_dups (omap (fun x => x) col)))
             <-> In (Some c) col).
  { intros c. split.
    - intros H. apply (Permutation_in _ (sort_values_perm _ _)) in H.
      apply list_elem_of_In, elem_of_remove_dups, list_elem_of_omap in H
        as (x & Hx & ->).
      now apply list_elem_of_In.
    - intros H. apply (Permutation_in _ (Permutation_sym (sort_values_perm _ _))).
      apply list_elem_of_In, elem_of_remove_dups, list_elem_of_omap.
      exists (Some c). split; [now apply list_elem_of_In|reflexivity]. }
  split; [|exact Hin].
  apply StronglySorted_estricto.
  - apply String.compare_eq_iff.
  - eapply Permutation_NoDup; [apply Permutation_sym, sort_values_perm|].
    apply NoDup_ListNoDup, NoDup_remove_dups.
  - apply sort_values_en_orden, buen_orden_string.
Qed.

(** X20. The dashboard's selection lists: [get_clientes] returns the
    client names present in the table, each once, in strictly ascending
    order, and [get_vendedores] does the same for salespeople (nothing
    without the column).  Filtering by an empty selection returns the
    whole table; filtering by a selection keeps exactly the rows whose
    client is selected, so selecting every listed client still drops
    the rows without a client name. *)
Theorem X20_seleccion_clientes {N} (df : DataFrame N) (clientes : list string) :
  StronglySorted (fun a b => String.compare a b = Lt) (get_clientes df)
  /\ (forall c, In c (get_clientes df)
                <-> exists f, In f (rows df) /\ NOMBRE_CLIENTE f = Some c)
  /\ StronglySorted (fun a b => String.compare a b = Lt) (get_vendedores df)
  /\ (forall v, In v (get_vendedores df)
                <-> col_VENDEDOR (columns df) = true
                    /\ exists f, In f (rows df) /\ VENDEDOR f = Some v)
  /\ filtrar_por_cliente df [] = df
  /\ (clientes <> [] ->
      forall f, In f (rows (filtrar_por_cliente df clientes))
                <-> In f (rows df)
                    /\ exists c, NOMBRE_CLIENTE f = Some c /\ In c clientes)
  /\ (get_clientes df <> [] ->
      rows (filtrar_por_cliente df (get_clientes df))
      = List.filter (fun f => negb (isna (NOMBRE_CLIENTE f))) (rows df)).
Proof.
  destruct (ordenados_unicos_spec (map NOMBRE_CLIENTE (rows df))) as [Hs Hin].
  assert (Hc : forall c, In c (get_clientes df)
                         <-> exists f, In f (rows df) /\ NOMBRE_CLIENTE f = Some c).
  { intros c. unfold get_clientes. rewrite Hin, in_map_iff. split.
    - intros (f & E & Hf). now exists f.
    - intros (f & Hf & E). now exists f. }
  split; [exact Hs|]. split; [exact Hc|]. split; [|split; [|split; [|split]]].
  - unfold get_vendedores. destruct (col_VENDEDOR (columns df)); cbn [negb].
    + apply ordenados_unicos_spec.
    + constructor.
  - intros v. unfold get_vendedores. destruct (col_VENDEDOR (columns df)); cbn [negb].
    + rewrite (proj2 (ordenados_unicos_spec _)), in_map_iff. split.
      * intros (f & E & Hf). split; [reflexivity|]. now exists f.
      * intros (_ & f & Hf & E). now exists f.
    + split; [intros []|intros [H _]; discriminate].
  - reflexivity.
  - intros Hne f. destruct clientes as [|c0 cs]; [congruence|].
    cbn [filtrar_por_cliente loc rows]. rewrite filter_In. split.
    + intros [Hf H]. split; [exact Hf|].
      destruct (NOMBRE_CLIENTE f) as [c|]; [|discriminate].
      exists c. split; [reflexivity|].
      apply bool_decide_eq_true in H. now apply list_elem_of_In.
    + intros (Hf & c & -> & H). split; [exact Hf|].
      apply bool_decide_eq_true. now apply list_elem_of_In.
  - intros Hne. unfold filtrar_por_cliente.
    destruct (get_clientes df) as [|c0 cs] eqn:E; [congruence|].
    cbn [loc rows]. apply List.filter_ext_in. intros f Hf.
    destruct (NOMBRE_CLIENTE f) as [c|] eqn:En; [|reflexivity].
    cbn [isna negb]. apply bool_decide_eq_true. apply list_elem_of_In, Hc.
    now exists f.
Qed.

End Seleccion.

(** ** Independence of the row order *)

Section OrdenFilas.

Lemma omap_perm {A B} (f : A -> option B) l l' :
  Permutation l l' -> Permutation (omap f l) (omap f l').
Proof.
  induction 1 as [|x l l' _ IH|x y l|l l' l'' _ IH1 _ IH2]; simpl.
  - constructor.
  - destruct (f x); [now constructor|exact IH].
  - destruct (f x), (f y); try reflexivity. apply perm_swap.
  - now transitivity (omap f l').
Qed.

Lemma mean_perm xs xs' : Permutation xs xs' -> mean xs == mean xs'.
Proof.
  intros H. unfold mean. rewrite (suma_perm _ _ H), (Permutation_length H). reflexivity.
Qed.

Lemma var_perm ddof xs xs' : Permutation xs xs' -> var ddof xs == var ddof xs'.
Proof.
  intros H. unfold var. rewrite (Permutation_length H).
  assert (E : suma (map (fun x => (x - mean xs) * (x - mean xs)) xs)
              == suma (map (fun x => (x - mean xs') * (x - mean xs')) xs')).
  { rewrite (suma_map_ext_in _ (fun x => (x - mean xs') * (x - mean xs')) xs).
    - apply suma_perm, Permutation_map, H.
    - intros x _. now rewrite (mean_perm _ _ H). }
  now rewrite E.
Qed.

Lemma zscore_supera_perm xs xs' u v :
  Permutation xs xs' -> zscore_supera xs u v = zscore_supera xs' u v.
Proof.
  intros H. unfold zscore_supera. f_equal.
  apply Qleb_comp; [now rewrite (var_perm 1 _ _ H)|now rewrite (mean_perm _ _ H)].
Qed.

Lemma std_cero_perm xs xs' : Permutation xs xs' -> std_cero xs = std_cero xs'.
Proof.
  intros H. unfold std_cero. apply Qleb_comp; [apply var_perm, H|reflexivity].
Qed.

Lemma detectar_importes_sin_caso cfg (df : DataFrame (option Q)) :
  _detectar_importes_atipicos cfg df
  = (let ventas := List.filter es_cargo (rows df) in
     let importes := omap IMPORTE ventas in
     if (length importes <? 3)%nat || std_cero importes then []
     else List.filter
            (fun f => match IMPORTE f with
                      | Some v => zscore_supera importes
                                    (umbral_de (importe_zscore_umbral cfg)) v
                      | None => false
                      end)
            ventas).
Proof.
  unfold _detectar_importes_atipicos. cbv zeta.
  now destruct (List.filter es_cargo (rows df)).
Qed.


Lemma saldo_esperado_perm (df df' : DataFrame Q) c :
  columns df = columns df' -> Permutation (rows df) (rows df') ->
  saldo_esperado df c == saldo_esperado df' c.
Proof.
  intros Hc Hp. unfold saldo_esperado, abonos_vinculados. rewrite Hc.
  apply round_comp.
  rewrite (suma_perm _ _ (Permutation_map _MONTO (filter_perm _ _ _ Hp))).
  reflexivity.
Qed.

Lemma suma_saldos_filtrados (h : fila Q -> bool) (df : DataFrame Q) :
  suma (map SALDO (List.filter (fun s => h (cargo s)) (_saldos_por_factura df)))
  == suma (map (saldo_esperado df)
               (List.filter h (List.filter es_cargo (rows df)))).
Proof.
  unfold _saldos_por_factura.
  induction (List.filter es_cargo (rows df)) as [|c l IH]; [reflexivity|].
  cbn [map List.filter cargo]. destruct (h c); cbn [map SALDO].
  - rewrite !suma_cons, IH, saldo_fila_esperado. reflexivity.
  - exact IH.
Qed.

Lemma suma_saldos_perm (h : fila Q -> bool) (df df' : DataFrame Q) :
  columns df = columns df' -> Permutation (rows df) (rows df') ->
  suma (map SALDO (List.filter (fun s => h (cargo s)) (_saldos_por_factura df)))
  == suma (map SALDO (List.filter (fun s => h (cargo s)) (_saldos_por_factura df'))).
Proof.
  intros Hc Hp. rewrite !suma_saldos_filtrados.
  rewrite (suma_map_ext_in (saldo_esperado df) (saldo_esperado df')).
  - apply suma_perm, Permutation_map, filter_perm, filter_perm, Hp.
  - intros c _. now apply saldo_esperado_perm.
Qed.

Lemma suma_saldos_todos (l : list fila_saldo) :
  List.filter (fun s => (fun _ : fila Q => true) (cargo s)) l = l.
Proof. apply filter_todo. reflexivity. Qed.


End OrdenFilas.

(** ** The report and the KPIs on the same ledger *)

Section ReporteYKpis.

Lemma suma_validos_clave (l : list fila_rep) :
  suma_validos (map SALDO_FACTURA l) = suma (omap snd (map clave l)).
Proof.
  unfold suma_validos. f_equal.
  induction l as [|r l IH]; [reflexivity|].
  simpl. destruct (SALDO_FACTURA r); [f_equal|]; exact IH.
Qed.

Lemma suma_saldos_iniciales (df : DataFrame Q) (g : fila Q -> option Q) l :
  (forall f, if es_cargo f
             then exists s, g f = Some s /\ s == saldo_esperado df f
             else g f = None) ->
  suma (omap snd (map (fun f => (f, g f)) l))
  == suma (map (saldo_esperado df) (List.filter es_cargo l)).
Proof.
  intros Hg. induction l as [|f l IH]; [reflexivity|].
  simpl. specialize (Hg f). destruct (es_cargo f).
  - destruct Hg as (s & -> & Hs). cbn [map]. rewrite !suma_cons, <- IH, Hs. reflexivity.
  - rewrite Hg. exact IH.
Qed.

(** X23. The report and the KPIs agree on the portfolio: the total
    receivable that the DSO and the delinquency index divide by is the
    sum of the invoice balances (SALDO_FACTURA) listed in the
    operational report of the same ledger. *)
Theorem X23_cartera_total (hoy : Z) (df_crudo : DataFrame (option Q)) (dias : Z) :
  let k := generar_kpis hoy df_crudo dias in
  let v := generar_reporte_cxc hoy df_crudo in
  saldo_total (kpis_dso k)
  == suma_validos (map (fun b => SALDO_FACTURA (base b)) (reporte_cxc v))
  /\ cartera_total (kpis_morosidad k)
     == suma_validos (map (fun b => SALDO_FACTURA (base b)) (reporte_cxc v)).
Proof.
  cbv zeta. unfold generar_kpis, generar_reporte_cxc.
  cbn [kpis_dso kpis_morosidad reporte_cxc].
  set (df := _preparar df_crudo).
  change (_filtrar_activos df) with (_filtrar_movimientos df).
  set (activos := _filtrar_movimientos df).
  assert (Hk : suma (map SALDO (_saldos_por_factura activos))
               == suma (map (saldo_esperado activos) (List.filter es_cargo (rows activos)))).
  { rewrite <- (suma_saldos_todos (_saldos_por_factura activos)).
    rewrite (suma_saldos_filtrados (fun _ => true) activos).
    rewrite (filter_todo (fun _ => true)); reflexivity. }
  assert (Hv : suma_validos
                 (map (fun b => SALDO_FACTURA (base b))
                      (agregar_bandas_grupo (r_columns (df_filtrado hoy df))
                                            (r_rows (df_filtrado hoy df))))
               == suma (map (saldo_esperado activos) (List.filter es_cargo (rows activos)))).
  { rewrite <- (List.map_map base SALDO_FACTURA), suma_validos_clave.
    destruct (saldo_factura_clave activos) as (g & Hg & Hs).
    rewrite <- (suma_saldos_iniciales activos g (rows activos) Hs), <- Hg.
    apply suma_perm, omap_perm.
    etransitivity; [apply Permutation_map, agregar_bandas_perm|].
    unfold df_filtrado. fold activos.
    etransitivity; [apply saldo_cliente_clave|].
    rewrite metricas_ciclo_clave. reflexivity. }
  split.
  - unfold _calcular_dso. cbn [saldo_total]. now rewrite Hk, Hv.
  - unfold _calcular_morosidad. cbn [cartera_total]. now rewrite Hk, Hv.
Qed.

End ReporteYKpis.
(** ** Worked instances *)

Import Ejemplos.

(** C3 as stated fails: with sales of 100, 200 and 300 the code's z-score
    of 300 is 1 (sample deviation 100) while the population formula gives
    about 1.2247; with threshold 1.1 the auditor flags nothing although the
    population z-score of 300 reaches the threshold. *)
Lemma C3_contraejemplo :
  let df := _preparar_datos df_tres_ventas in
  let xs := serie_importes_auditor df in
  xs = [100; 200; 300]
  /\ zscore xs 300 <> zscore_poblacional xs 300
  /\ _detectar_importes_atipicos cfg_umbral_bajo df = []
  /\ (Q2R (11 # 10) <= zscore_poblacional xs 300)%R.
Proof.
  intros df xs.
  assert (Exs : xs = [100; 200; 300]) by reflexivity.
  assert (Hpob : (Q2R (11 # 10) <= zscore_poblacional xs 300)%R).
  { rewrite Exs. unfold zscore_poblacional. rewrite <- Q2R_minus.
    apply supera_raiz; [reflexivity|]. vm_compute. reflexivity. }
  assert (Hstd : (0 < std xs)%R).
  { apply std_positiva_spec. rewrite Exs. vm_compute. reflexivity. }
  assert (Hcod : ~ (Q2R (11 # 10) <= zscore xs 300)%R).
  { rewrite <- (zscore_supera_spec xs (11 # 10) 300 Hstd).
    rewrite Exs. vm_compute. discriminate. }
  split; [exact Exs|]. split; [|split; [|exact Hpob]].
  - intros E. rewrite E in Hcod. exact (Hcod Hpob).
  - vm_compute. reflexivity.
Qed.

Lemma C3_zscore_muestral_witness :
  let df := _preparar_datos df_tres_ventas in
  let xs := serie_importes_auditor df in
  (3 <= length xs)%nat /\ (0 < std xs)%R
  /\ zscore xs 300 = zscore_muestral xs 300
  /\ forall f, In f (_detectar_importes_atipicos cfg_umbral_bajo df) <->
               In f (List.filter es_cargo (rows df))
               /\ exists v, IMPORTE f = Some v
                            /\ (Q2R (umbral_de (importe_zscore_umbral cfg_umbral_bajo))
                                <= zscore_muestral xs v)%R.
Proof.
  intros df xs.
  assert (Hn : (3 <= length xs)%nat) by (vm_compute; lia).
  assert (Hs : (0 < std xs)%R) by (apply std_positiva_spec; vm_compute; reflexivity).
  pose proof (C3_zscore_muestral cfg_umbral_bajo 3 df [] DELTA_MORA) as (H1 & H2 & _).
  split; [exact Hn|]. split; [exact Hs|]. split.
  - apply H1, Hs.
  - apply H2; assumption.
Defined.





(** C2 as stated fails.  A payment of 40 that references no invoice lowers
    the client's running balance to 60 while the only invoice balance stays
    100; and two invoices of 0.004 have balances that round to 0 each while
    the running balance rounds to 0.01. *)
Lemma C2_contraejemplo :
  let rep := r_rows (df_filtrado 100 (_preparar df_abono_suelto)) in
  let rep' := r_rows (df_filtrado 100 (_preparar df_milesimas)) in
  (exists r s, last (filas_de "ACME" rep) = Some r
               /\ SALDO_CLIENTE r = Some s /\ s == 60
               /\ suma_saldos_factura "ACME" rep == 100
               /\ ~ s == suma_saldos_factura "ACME" rep)
  /\ (exists r s, last (filas_de "ACME" rep') = Some r
                  /\ SALDO_CLIENTE r = Some s /\ s == 1 # 100
                  /\ suma_saldos_factura "ACME" rep' == 0
                  /\ ~ s == suma_saldos_factura "ACME" rep').
Proof.
  intros rep rep'. split.
  - assert (E : suma_saldos_factura "ACME" rep == 100) by (vm_compute; reflexivity).
    eexists. eexists. split; [vm_compute; reflexivity|].
    split; [vm_compute; reflexivity|]. split; [vm_compute; reflexivity|].
    split; [exact E|].
    rewrite E. vm_compute. discriminate.
  - assert (E : suma_saldos_factura "ACME" rep' == 0) by (vm_compute; reflexivity).
    eexists. eexists. split; [vm_compute; reflexivity|].
    split; [vm_compute; reflexivity|]. split; [vm_compute; reflexivity|].
    split; [exact E|].
    rewrite E. vm_compute. discriminate.
Qed.

Lemma C2_conciliacion_witness :
  let df := _preparar df_sobrepago in
  let rep := r_rows (df_filtrado 100 df) in
  bien_vinculado (_filtrar_movimientos df) "BETA"
  /\ exists r, last (filas_de "BETA" rep) = Some r
               /\ exists s, SALDO_CLIENTE r = Some s
                            /\ s == suma_saldos_factura "BETA" rep.
Proof.
  intros df rep.
  assert (H : bien_vinculado (_filtrar_movimientos df) "BETA").
  { apply bien_vinculado_b_ok. vm_compute. reflexivity. }
  split; [exact H|].
  eexists. split; [vm_compute; reflexivity|].
  apply (C2_conciliacion 100 df "BETA" H). vm_compute. reflexivity.
Defined.

(** C8 as stated fails: BETA's invoice of 100 was paid 150, its balance is
    -50, and the invoice is in neither the open nor the closed view (the
    closed view is empty, the open one holds ACME's invoice only); no
    column flags the overpayment. *)
Lemma C8_contraejemplo :
  let v := generar_reporte_cxc 100 df_sobrepago in
  exists r s,
    In r (map base (reporte_cxc v))
    /\ es_cargo (mov r) = true /\ NOMBRE_CLIENTE (mov r) = Some "BETA"
    /\ SALDO_FACTURA r = Some s /\ s == - (50)
    /\ ~ In r (map base (movimientos_abiertos_cxc v))
    /\ ~ In r (map base (movimientos_cerrados_cxc v))
    /\ sin_ciclo r.
Proof.
  intros v. eexists. eexists.
  split; [vm_compute; right; left; reflexivity|].
  split; [reflexivity|]. split; [reflexivity|]. split; [reflexivity|].
  split; [vm_compute; reflexivity|].
  split; [|split].
  - vm_compute. intros [H|[]]. discriminate H.
  - vm_compute. intros [].
  - repeat split.
Qed.

Lemma C8_saldo_negativo_witness :
  let v := generar_reporte_cxc 100 df_sobrepago in
  exists r s,
    In r (r_rows (df_filtrado 100 (_preparar df_sobrepago)))
    /\ es_cargo (mov r) = true /\ SALDO_FACTURA r = Some s /\ s < 0
    /\ In r (map base (reporte_cxc v))
    /\ ~ In r (map base (movimientos_abiertos_cxc v))
    /\ ~ In r (map base (movimientos_cerrados_cxc v)).
Proof.
  intros v. eexists. eexists.
  assert (H1 : In (nth 1 (r_rows (df_filtrado 100 (_preparar df_sobrepago)))
                       (con_saldo_factura (Fila None None "" None None None None None 0 0 0 Nulo) None))
                  (r_rows (df_filtrado 100 (_preparar df_sobrepago)))).
  { apply nth_In. vm_compute. lia. }
  split; [exact H1|].
  assert (H2 : es_cargo (mov (nth 1 (r_rows (df_filtrado 100 (_preparar df_sobrepago)))
                       (con_saldo_factura (Fila None None "" None None None None None 0 0 0 Nulo) None))) = true)
    by (vm_compute; reflexivity).
  split; [exact H2|].
  assert (H3 : SALDO_FACTURA (nth 1 (r_rows (df_filtrado 100 (_preparar df_sobrepago)))
                       (con_saldo_factura (Fila None None "" None None None None None 0 0 0 Nulo) None))
               = Some (-5000 # 100)) by (vm_compute; reflexivity).
  split; [exact H3|].
  assert (H4 : -5000 # 100 < 0) by reflexivity.
  split; [exact H4|].
  destruct (C8_saldo_negativo 100 df_sobrepago _ _ H1 H2 H3 H4) as (A & _ & B & C & _).
  split; [exact A|]. split; [exact B|exact C].
Defined.





(** C4 as stated fails for the outlier statistics: two ledgers with the
    same IMPORTE + IMPUESTO on every row (the last sale is 100000 + 16 in
    one, 100 + 99916 in the other) are flagged differently, by the auditor
    and in the ATIPICO_IMPORTE column of the report. *)
Lemma C4_contraejemplo :
  let a := df_atipico_importe in
  let b := df_atipico_impuesto in
  misma_tabla (_preparar a) (_preparar b)
  /\ length (_detectar_importes_atipicos cfg_defecto (_preparar_datos a)) = 1%nat
  /\ _detectar_importes_atipicos cfg_defecto (_preparar_datos b) = []
  /\ map ATIPICO_IMPORTE (movimientos_totales_cxc (generar_reporte_cxc 100 a))
     <> map ATIPICO_IMPORTE (movimientos_totales_cxc (generar_reporte_cxc 100 b)).
Proof.
  intros a b. split; [|split; [|split]].
  - split; [reflexivity|]. vm_compute.
    repeat (constructor; [split; reflexivity|]). constructor.
  - vm_compute. reflexivity.
  - vm_compute. reflexivity.
  - vm_compute. discriminate.
Qed.

Lemma C4_montos_witness :
  let a := _preparar df_atipico_importe in
  let b := _preparar df_atipico_impuesto in
  let ra := (_calcular_saldo_factura a).1 in
  let rb := (_calcular_saldo_factura b).1 in
  let va := _preparar_datos df_tres_ventas in
  let vb := _preparar_datos df_tres_ventas_sin_iva in
  let la := reporte_cxc (generar_reporte_cxc 100 df_tres_ventas) in
  let lb := reporte_cxc (generar_reporte_cxc 100 df_tres_ventas_sin_iva) in
  misma_tabla a b /\ mismo_reporte ra rb
  /\ map sin_impuesto (rows va) = map sin_impuesto (rows vb)
  /\ map clave_importe la = map clave_importe lb
  /\ CEI_VALOR (_calcular_cei a 100 10) == CEI_VALOR (_calcular_cei b 100 10)
  /\ Forall2 opt_Qeq
       (map SALDO_CLIENTE (r_rows (_calcular_saldo_cliente ra)))
       (map SALDO_CLIENTE (r_rows (_calcular_saldo_cliente rb)))
  /\ map sin_impuesto (_detectar_importes_atipicos cfg_umbral_bajo va)
     = map sin_impuesto (_detectar_importes_atipicos cfg_umbral_bajo vb)
  /\ map ATIPICO_IMPORTE (_agregar_zscores 3 la)
     = map ATIPICO_IMPORTE (_agregar_zscores 3 lb).
Proof.
  intros a b ra rb va vb la lb.
  assert (H1 : misma_tabla a b).
  { split; [reflexivity|]. vm_compute.
    repeat (constructor; [split; reflexivity|]). constructor. }
  assert (H2 : mismo_reporte ra rb).
  { split; [reflexivity|]. vm_compute.
    repeat (constructor; [split; reflexivity|]). constructor. }
  assert (H3 : map sin_impuesto (rows va) = map sin_impuesto (rows vb)) by reflexivity.
  assert (H4 : map clave_importe la = map clave_importe lb) by (vm_compute; reflexivity).
  destruct (C4_montos cfg_umbral_bajo 3 100 10 90 a b ra rb va vb la lb)
    as (K1 & K2 & K3 & K4).
  destruct (K1 H1) as (_ & _ & _ & C & _).
  split; [exact H1|]. split; [exact H2|]. split; [exact H3|]. split; [exact H4|].
  split; [exact C|]. split; [exact (K2 H2)|]. split; [exact (K3 H3)|exact (K4 H4)].
Defined.


(** *** The population filters on a ledger with advances *)


Lemma X4_filtrar_movimientos_witness :
  let df := _preparar df_anticipos in
  let f := nth 0 (rows df) fila_nula in
  In f (rows df) /\ TIPO_IMPTE f <> "A" /\ marcada_cancelada df f = false
  /\ In f (rows (_filtrar_movimientos df)).
Proof.
  intros df f.
  assert (H1 : In f (rows df)) by (apply nth_In; vm_compute; lia).
  assert (H2 : TIPO_IMPTE f <> "A") by (vm_compute; discriminate).
  assert (H3 : marcada_cancelada df f = false) by (vm_compute; reflexivity).
  destruct (X4_filtrar_movimientos df) as (_ & _ & _ & H).
  split; [exact H1|]. split; [exact H2|]. split; [exact H3|].
  apply H. split; [exact H1|]. split; [exact H2|exact H3].
Defined.

(** *** Running balance and bands of the overpaid ledger *)

Lemma X6_saldo_cliente_acumulado_witness :
  let rep := _calcular_metricas_ciclo 100
               (_calcular_saldo_factura (_filtrar_movimientos (_preparar df_sobrepago))).1 in
  let salida := r_rows (_calcular_saldo_cliente rep) in
  exists r,
    salida !! 2%nat = Some r
    /\ match NOMBRE_CLIENTE (mov r) with
       | None => SALDO_CLIENTE r = None
       | Some c =>
           exists s, SALDO_CLIENTE r = Some s
                     /\ s == round 2 (suma (map (fun x => movimiento (mov x))
                                                (filas_de c (take 3 salida))))
       end.
Proof.
  intros rep salida. eexists. split; [vm_compute; reflexivity|].
  apply (X6_saldo_cliente_acumulado rep 2%nat). vm_compute. reflexivity.
Defined.

Lemma X7_bandas_alternas_witness :
  let l := r_rows (df_filtrado 100 (_preparar df_sobrepago)) in
  let salida := agregar_bandas_grupo todas l in
  col_DOCTO_CC_ID todas = true
  /\ col_DOCTO_CC_ID sin_id = false
  /\ map base (agregar_bandas_grupo sin_id l) = l
  /\ exists a b,
       salida !! 1%nat = Some a /\ salida !! 2%nat = Some b
       /\ (_BAND_GROUP a = _BAND_GROUP b
           <-> exists g, _GRUPO_CARGO todas (mov (base a)) = Some g
                         /\ _GRUPO_CARGO todas (mov (base b)) = Some g).
Proof.
  intros l salida.
  destruct (X7_bandas_alternas todas l) as (_ & _ & _ & H).
  destruct (H eq_refl) as (_ & _ & Hady).
  destruct (X7_bandas_alternas sin_id l) as (_ & _ & H' & _).
  split; [reflexivity|]. split; [reflexivity|]. split; [exact (proj1 (H' eq_refl))|].
  eexists. eexists. split; [vm_compute; reflexivity|]. split; [vm_compute; reflexivity|].
  apply (Hady 1%nat); vm_compute; reflexivity.
Defined.

(** *** Cycle metrics of a paid and an open invoice *)

Lemma X8_metricas_ciclo_witness :
  let r := nth 1 ciclo_pagada fila_rep_nula in
  let c := nth 0 ciclo_pagada fila_rep_nula in
  In r ciclo_pagada
  /\ es_cargo (mov r) = false
  /\ DELTA_RECAUDO r = None /\ DELTA_MORA r = None
  /\ In c ciclo_pagada
  /\ DELTA_RECAUDO c <> None
  /\ pagada c = true.
Proof.
  intros r c.
  assert (Hin : In r ciclo_pagada) by (apply nth_In; vm_compute; lia).
  assert (Hc : es_cargo (mov r) = false) by (vm_compute; reflexivity).
  assert (Hin' : In c ciclo_pagada) by (apply nth_In; vm_compute; lia).
  assert (Hd : DELTA_RECAUDO c <> None) by (vm_compute; discriminate).
  destruct (X8_metricas_ciclo 100 (_filtrar_movimientos (_preparar df_pagada))) as [_ H].
  pose proof (proj1 (List.Forall_forall _ _) H r Hin) as (_ & _ & _ & Hn & _).
  pose proof (proj1 (List.Forall_forall _ _) H c Hin') as (_ & Hp & _).
  split; [exact Hin|]. split; [exact Hc|].
  split; [exact (proj1 (Hn Hc))|]. split; [exact (proj2 (Hn Hc))|].
  split; [exact Hin'|]. split; [exact Hd|exact (Hp Hd)].
Defined.

Lemma X9_delta_recaudo_ultimo_abono_witness :
  let df := _filtrar_movimientos (_preparar df_pagada) in
  let r := nth 0 ciclo_pagada fila_rep_nula in
  In r ciclo_pagada
  /\ DELTA_RECAUDO r = Some 15%Z
  /\ exists i v,
       pagada r = true
       /\ DOCTO_CC_ID (mov r) = Some i
       /\ FECHA_VENCIMIENTO (mov r) = Some v
       /\ (exists p, In p (rows df) /\ es_abono p = true
                     /\ DOCTO_CC_ACR_ID p = Some i /\ FECHA_EMISION p = Some (v + 15)%Z)
       /\ (forall p e, In p (rows df) -> es_abono p = true ->
                       DOCTO_CC_ACR_ID p = Some i -> FECHA_EMISION p = Some e ->
                       (e <= v + 15)%Z).
Proof.
  intros df r.
  assert (Hin : In r ciclo_pagada) by (apply nth_In; vm_compute; lia).
  assert (Hd : DELTA_RECAUDO r = Some 15%Z) by (vm_compute; reflexivity).
  split; [exact Hin|]. split; [exact Hd|].
  exact (X9_delta_recaudo_ultimo_abono 100 df r 15 Hin Hd).
Defined.

Lemma X10_vistas_abiertas_cerradas_witness :
  let rep := df_filtrado 100 (_preparar df_pagada) in
  let r := nth 1 (r_rows rep) fila_rep_nula in
  es_cargo (mov r) = true
  /\ In r (map base (_extraer_facturas_abiertas rep))
  /\ ~ In r (map base (_extraer_facturas_cerradas rep)).
Proof.
  intros rep r.
  assert (Hin : In r (r_rows rep)) by (apply nth_In; vm_compute; lia).
  assert (Hc : es_cargo (mov r) = true) by (vm_compute; reflexivity).
  assert (Ha : abierta r = true) by (vm_compute; reflexivity).
  destruct (X10_vistas_abiertas_cerradas rep r) as (H1 & _ & H3).
  assert (Hv : In r (map base (_extraer_facturas_abiertas rep))).
  { apply H1. split; [exact Hin|]. left. exact Ha. }
  split; [exact Hc|]. split; [exact Hv|]. exact (H3 Hc Hv).
Defined.

Lemma X11_reporte_conserva_witness :
  let v := generar_reporte_cxc 100 df_pagada in
  let r := nth 0 (map base (movimientos_cerrados_cxc v)) fila_rep_nula in
  let a := nth 0 (map base (movimientos_abiertos_cxc v)) fila_rep_nula in
  In r (map base (movimientos_cerrados_cxc v))
  /\ In a (map base (movimientos_abiertos_cxc v))
  /\ In r (map base (reporte_cxc v))
  /\ In a (map base (reporte_cxc v)).
Proof.
  intros v r a.
  assert (Hin : In r (map base (movimientos_cerrados_cxc v))).
  { apply nth_In. vm_compute. lia. }
  assert (Hin' : In a (map base (movimientos_abiertos_cxc v))).
  { apply nth_In. vm_compute. lia. }
  destruct (X11_reporte_conserva 100 df_pagada) as (_ & _ & Ha & Hc).
  split; [exact Hin|]. split; [exact Hin'|]. split; [exact (Hc r Hin)|exact (Ha a Hin')].
Defined.

(** *** Outliers *)

Lemma X12_umbral_monotono_witness :
  let df := _preparar_datos df_atipico_importe in
  let f := nth 10 (rows df) (Fila None None "" None None None None None None None None Nulo) in
  2 <= 3
  /\ In f (_detectar_importes_atipicos (Config (Some 3) None None) df)
  /\ In f (_detectar_importes_atipicos (Config (Some 2) None None) df).
Proof.
  intros df f.
  assert (Hu : 2 <= 3) by (vm_compute; discriminate).
  assert (Hf : In f (_detectar_importes_atipicos (Config (Some 3) None None) df)).
  { vm_compute. left. reflexivity. }
  split; [exact Hu|]. split; [exact Hf|].
  exact (proj1 (X12_umbral_monotono 3 2 None None df DELTA_MORA [] Hu) f Hf).
Defined.


(** *** Indices and tables per client *)

Lemma X14_indices_acotados_witness :
  let saldos := _saldos_por_factura df_cobros in
  Forall (fun f => 0 <= _MONTO f) (rows df_cobros)
  /\ Forall (fun s => 0 <= SALDO s) saldos
  /\ (0 <= 90)%Z
  /\ 0 <= saldo_actual (_calcular_cei df_cobros 100 10)
  /\ 0 <= DSO_VALOR (_calcular_dso df_cobros saldos 100 10 90)
  /\ 0 <= CEI_VALOR (_calcular_cei df_cobros 100 10)
  /\ CEI_VALOR (_calcular_cei df_cobros 100 10) <= 100
  /\ MOROSIDAD_VALOR (_calcular_morosidad saldos 100) <= 100.
Proof.
  intros saldos.
  assert (H1 : Forall (fun f => 0 <= _MONTO f) (rows df_cobros)).
  { vm_compute. repeat constructor; discriminate. }
  assert (H2 : Forall (fun s => 0 <= SALDO s) saldos).
  { vm_compute. repeat constructor; discriminate. }
  assert (H3 : (0 <= 90)%Z) by lia.
  assert (H4 : 0 <= saldo_actual (_calcular_cei df_cobros 100 10)).
  { vm_compute. discriminate. }
  destruct (X14_indices_acotados df_cobros saldos 100 10 90 H1 H2 H3) as (D & C & _ & M).
  destruct (C H4) as [C0 C1].
  split; [exact H1|]. split; [exact H2|]. split; [exact H3|]. split; [exact H4|].
  split; [exact D|]. split; [exact C0|]. split; [exact C1|exact M].
Defined.


Lemma X15_concentracion_tabla_witness :
  let saldos := saldos_de df_tres_clientes in
  let t := _calcular_concentracion saldos in
  let s := nth 0 saldos fila_saldo_nula in
  t <> []
  /\ In s saldos /\ NOMBRE_CLIENTE (cargo s) = Some "ACME"
  /\ In "ACME" (map CLIENTE t).
Proof.
  intros saldos t s.
  assert (H1 : t <> []) by (vm_compute; discriminate).
  assert (H2 : In s saldos) by (apply nth_In; vm_compute; lia).
  assert (H3 : NOMBRE_CLIENTE (cargo s) = Some "ACME") by (vm_compute; reflexivity).
  destruct (X15_concentracion_tabla saldos) as (_ & _ & _ & H & _).
  split; [exact H1|]. split; [exact H2|]. split; [exact H3|].
  exact (H H1 s "ACME" H2 H3).
Defined.

Lemma X16_morosidad_por_cliente_witness :
  let saldos := saldos_de df_tres_clientes in
  let t := _calcular_morosidad_por_cliente saldos 100 in
  Forall (fun s => decimales 2 (SALDO s)) saldos
  /\ Forall (fun s => 0 <= SALDO s) saldos
  /\ Forall (fun r => SALDO_VIGENTE r + SALDO_VENCIDO r == SALDO_TOTAL r) t
  /\ Forall (fun r => 0 <= PCT_VENCIDO r /\ PCT_VENCIDO r <= 100) t.
Proof.
  intros saldos t.
  assert (H1 : Forall (fun s => decimales 2 (SALDO s)) saldos)
    by apply saldos_por_factura_decimales.
  assert (H2 : Forall (fun s => 0 <= SALDO s) saldos).
  { vm_compute. repeat constructor; discriminate. }
  destruct (X16_morosidad_por_cliente saldos 100) as (_ & _ & _ & _ & D & P).
  split; [exact H1|]. split; [exact H2|]. split; [exact (D H1)|exact (P H2)].
Defined.

Lemma X17_limite_credito_witness :
  let df := _filtrar_activos (_preparar df_limites) in
  let saldos := _saldos_por_factura df in
  let t := _calcular_limite_credito df saldos in
  let acme := nth 0 t fila_limite_nula in
  let ceta := nth 2 t fila_limite_nula in
  col_LIMITE_CREDITO (columns df) = true
  /\ Permutation (map (fun r => (LC_CLIENTE r, LC_SALDO r)) t) (saldo_por_cliente saldos)
  /\ UTILIZACION_PCT acme = Some (950 # 10)
  /\ ALERTA acme = "CRITICO"
  /\ LC_LIMITE_CREDITO ceta < 0
  /\ ALERTA ceta = "NORMAL".
Proof.
  intros df saldos t acme ceta.
  destruct (X17_limite_credito df saldos) as (_ & Hp & _ & H).
  assert (Ha : In acme t) by (apply nth_In; vm_compute; lia).
  assert (Hc : In ceta t) by (apply nth_In; vm_compute; lia).
  assert (Hu : UTILIZACION_PCT acme = Some (950 # 10)) by (vm_compute; reflexivity).
  assert (Hl : LC_LIMITE_CREDITO ceta < 0) by (vm_compute; reflexivity).
  pose proof (proj1 (List.Forall_forall _ _) H acme Ha) as (_ & _ & _ & Hacme & _).
  pose proof (proj1 (List.Forall_forall _ _) H ceta Hc) as (_ & _ & Hceta & _).
  destruct (Hacme _ Hu) as (_ & _ & Hcrit & _).
  split; [reflexivity|]. split; [exact (Hp eq_refl)|]. split; [exact Hu|].
  split; [|split; [exact Hl|exact (Hceta Hl)]].
  apply Hcrit. split; vm_compute; discriminate.
Defined.

(** *** Data quality, aging buckets and selection lists *)

Lemma X18_calidad_datos_witness :
  let t := _evaluar_calidad_datos Z.eqb 3 tabla_calidad in
  let c := nth 0 t (FilaCalidad "" 0 0 0 0) in
  let r := nth 1 t (FilaCalidad "" 0 0 0 0) in
  Forall (fun c => length c.2 = 3%nat) tabla_calidad
  /\ NULOS c = 0%nat /\ PCT_NULOS c == 0
  /\ NULOS r = 3%nat /\ (0 < 3)%nat /\ PCT_NULOS r == 100.
Proof.
  intros t c r.
  assert (H : Forall (fun c => length c.2 = 3%nat) tabla_calidad).
  { repeat constructor. }
  assert (Hin : In r t) by (apply nth_In; vm_compute; lia).
  assert (Hin' : In c t) by (apply nth_In; vm_compute; lia).
  assert (Hn : NULOS r = 3%nat) by reflexivity.
  assert (Hn' : NULOS c = 0%nat) by reflexivity.
  assert (Hp : (0 < 3)%nat) by lia.
  destruct (X18_calidad_datos Z.eqb 3 tabla_calidad H) as [_ Hf].
  pose proof (proj1 (List.Forall_forall _ _) Hf r Hin) as (_ & _ & _ & _ & _ & Hc).
  pose proof (proj1 (List.Forall_forall _ _) Hf c Hin') as (_ & _ & _ & _ & Hz & _).
  split; [exact H|]. split; [exact Hn'|]. split; [exact (Hz Hn')|].
  split; [exact Hn|]. split; [exact Hp|]. exact (Hc Hn Hp).
Defined.

Lemma X19_bucket_mora_witness :
  cubre 1 rangos_ej = true
  /\ (0 < 45)%Z /\ (0 <= 0)%Z
  /\ _bucket_mora rangos_ej true (Some 0%Z) = "Por vencer"
  /\ exists r, In r rangos_ej
               /\ _bucket_mora rangos_ej true (Some 45%Z) = r.2
               /\ (r.1.1 <= 45)%Z
               /\ forall max_d, r.1.2 = Some max_d -> (45 <= max_d)%Z.
Proof.
  assert (Hc : cubre 1 rangos_ej = true) by reflexivity.
  assert (H45 : (0 < 45)%Z) by lia.
  assert (H0 : (0 <= 0)%Z) by lia.
  destruct (X19_bucket_mora rangos_ej 45) as (_ & _ & _ & _ & H).
  destruct (X19_bucket_mora rangos_ej 0) as (_ & Hv & _).
  split; [exact Hc|]. split; [exact H45|]. split; [exact H0|].
  split; [exact (Hv H0)|exact (H Hc H45)].
Defined.

Lemma X20_seleccion_clientes_witness :
  let f := nth 1 (rows df_tres_clientes)
               (Fila None None "" None None None None None None None None Nulo) in
  ["BETA"] <> []
  /\ get_clientes df_tres_clientes <> []
  /\ In f (rows df_tres_clientes)
  /\ NOMBRE_CLIENTE f = Some "BETA"
  /\ In f (rows (filtrar_por_cliente df_tres_clientes ["BETA"]))
  /\ rows (filtrar_por_cliente df_tres_clientes (get_clientes df_tres_clientes))
     = List.filter (fun f => negb (isna (NOMBRE_CLIENTE f))) (rows df_tres_clientes).
Proof.
  intros f.
  assert (H1 : ["BETA"] <> []) by discriminate.
  assert (H2 : get_clientes df_tres_clientes <> []) by (vm_compute; discriminate).
  assert (H3 : In f (rows df_tres_clientes)) by (apply nth_In; vm_compute; lia).
  destruct (X20_seleccion_clientes df_tres_clientes ["BETA"])
    as (_ & _ & _ & _ & _ & Hf & Ht).
  split; [exact H1|]. split; [exact H2|]. split; [exact H3|]. split; [reflexivity|].
  split; [|exact (Ht H2)].
  apply (Hf H1). split; [exact H3|]. exists "BETA". split; [reflexivity|now left].
Defined.
